(** * Session lifecycle of the messaging client: activity tracking,
      retention-driven cleanup and its scheduler, envelope decoding,
      decrypt-retry, session migration and trusted-contact tokens.

    The development embeds the TypeScript sources shallowly: closures with
    mutable state become records threaded through functions, [async] calls
    on the key store become functions of the store contents and of an
    outcome chosen by the environment (the call returns or throws), and
    [Date.now()] becomes a reading supplied by the environment.

    JavaScript numbers are modelled by [Z]: every number in these modules is
    an integer timestamp, a counter or a device index, far below 2^53.
    A value that may be [undefined] or [null] is an [option]. Calls on the
    logger do not influence any result and are left out. *)

From Stdlib Require Import ZArith QArith Lia String Ascii List DecimalString.
From stdpp Require Import base option gmap strings list fin_maps.

Open Scope string_scope.
Open Scope Z_scope.

(* ===================================================================== *)
(** ** JavaScript string and number primitives used by the sources        *)
(* ===================================================================== *)

Module JS.

(** An [Error] object: its [name] and its [message]. *)
Record JsError : Type := {
  errName : string;
  errMessage : string
}.

(** [Error.prototype.toString()] *)
Definition errToString (e : JsError) : string :=
  match errName e, errMessage e with
  | n, EmptyString => n
  | EmptyString, m => m
  | n, m => n +:+ ": " +:+ m
  end.

(** Outcome of a call that may throw. *)
Inductive outcome (A : Type) : Type :=
| Returns (a : A)
| Throws (error : JsError).
Arguments Returns {A} a.
Arguments Throws {A} error.

(** [s.startsWith(p)] *)
Definition startsWith (s p : string) : bool := String.prefix p s.

(** [s.includes(p)] *)
Fixpoint includes (s p : string) : bool :=
  String.prefix p s ||
  match s with
  | EmptyString => false
  | String _ s' => includes s' p
  end.

(** [s.endsWith(p)] *)
Fixpoint endsWith (s p : string) : bool :=
  String.eqb s p ||
  match s with
  | EmptyString => false
  | String _ s' => endsWith s' p
  end.

(** [s.split(sep)] for a one-character separator. *)
Fixpoint split (sep : ascii) (s : string) : list string :=
  match s with
  | EmptyString => [EmptyString]
  | String c s' =>
      if Ascii.eqb c sep then EmptyString :: split sep s'
      else match split sep s' with
           | [] => [String c EmptyString]
           | h :: t => String c h :: t
           end
  end.

(** Truthiness of a string that may be undefined: [!!s]. *)
Definition truthyStr (s : option string) : bool :=
  match s with
  | Some (String _ _) => true
  | _ => false
  end.

(** Truthiness of a number that may be undefined: [!!n] (NaN aside). *)
Definition truthyNum (n : option Z) : bool :=
  match n with
  | Some v => negb (v =? 0)
  | None => false
  end.

(** [a || b] on strings, where [a] may be undefined. *)
Definition orStr (a : option string) (b : string) : string :=
  match a with
  | Some (String c r) => String c r
  | _ => b
  end.

Definition isDigit (c : ascii) : bool :=
  let n := nat_of_ascii c in (48 <=? n)%nat && (n <=? 57)%nat.

Definition digitVal (c : ascii) : Z := Z.of_nat (nat_of_ascii c) - 48.

(** White space skipped by [parseInt] (the ASCII part of it). *)
Definition isSpace (c : ascii) : bool :=
  let n := nat_of_ascii c in
  ((9 <=? n)%nat && (n <=? 13)%nat) || (n =? 32)%nat.

Fixpoint skipSpaces (s : string) : string :=
  match s with
  | String c s' => if isSpace c then skipSpaces s' else s
  | EmptyString => s
  end.

(** Longest prefix of decimal digits; [None] when there is none. *)
Fixpoint parseDigits (s : string) (acc : option Z) : option Z :=
  match s with
  | String c s' =>
      if isDigit c
      then parseDigits s' (Some (10 * default 0 acc + digitVal c))
      else acc
  | EmptyString => acc
  end.

(** [parseInt(s, 10)]; [None] stands for NaN. *)
Definition parseInt (s : string) : option Z :=
  match skipSpaces s with
  | String "-"%char r => Z.opp <$> parseDigits r None
  | String "+"%char r => parseDigits r None
  | r => parseDigits r None
  end.

(** [String(n)] / template interpolation of an integer. *)
Definition numToString (n : Z) : string := NilZero.string_of_int (Z.to_int n).

(** [xs.some(p => s.includes(p))] *)
Definition someIncluded (patterns : list string) (s : string) : bool :=
  existsb (includes s) patterns.

End JS.

(* ===================================================================== *)
(** ** The persistent keyed store                                          *)
(* ===================================================================== *)

Module KeyStore.

(** Value of the [session-activity] namespace. *)
Record SessionActivityMetadata : Type := {
  lastActivityAt : Z;
  createdAt : option Z
}.

(** The two namespaces the modules below read and write. A session is
    opaque cipher state. *)
Record t : Type := {
  session : gmap string string;
  sessionActivity : gmap string SessionActivityMetadata
}.

(** One [keys.set({ns: {key: value | null}})] call. *)
Inductive SetCall : Type :=
| SetSession (updates : gmap string (option string))
| SetSessionActivity (updates : gmap string (option SessionActivityMetadata)).

(** Calls observed on the store, in order. *)
Inductive Call : Type :=
| Get (ns : string) (ids : list string)
| Transaction (label : string) (work : list SetCall).

(** Modelled from the spec: the store's [set], which is an external
    collaborator. A key mapped to a value is written, a key mapped to
    [null] is deleted, every other key is left as it is. *)
Definition applyUpdates {V : Type}
    (updates : gmap string (option V)) (m : gmap string V) : gmap string V :=
  merge (fun u old => match u with Some w => w | None => old end) updates m.

Definition applySet (c : SetCall) (s : t) : t :=
  match c with
  | SetSession u =>
      {| session := applyUpdates u (session s);
         sessionActivity := sessionActivity s |}
  | SetSessionActivity u =>
      {| session := session s;
         sessionActivity := applyUpdates u (sessionActivity s) |}
  end.

(** Outcome of a transaction, chosen by the environment. *)
Inductive TxOutcome : Type := Commits | Aborts.

(** Modelled from the spec: the store's [transaction(work, label)], an
    external collaborator "guaranteeing all-or-nothing application of a
    batch of set calls issued inside work". The boolean tells whether the
    call returned (true) or threw (false). *)
Definition transaction (o : TxOutcome) (work : list SetCall) (s : t) : t * bool :=
  match o with
  | Commits => (foldl (fun acc c => applySet c acc) s work, true)
  | Aborts => (s, false)
  end.

(** Modelled from the spec: the store's [get(namespace, keys)], an
    external collaborator, on one namespace. The callers pass the empty
    list to enumerate the namespace ("get all sessions from key store"),
    and a list of keys to read those keys. *)
Definition get {V : Type} (m : gmap string V) (ids : list string) : gmap string V :=
  match ids with
  | [] => m
  | _ => filter (fun kv => bool_decide (kv.1 ∈ ids)) m
  end.

End KeyStore.

(* ===================================================================== *)
(** ** Session activity tracker (Signal/session-activity-tracker.ts)       *)
(* ===================================================================== *)

Module ActivityTracker.
Import JS KeyStore.

Record SessionActivityConfig : Type := {
  flushIntervalMs : Z;
  enabled : bool
}.

Record Stats : Type := {
  totalUpdates : Z;
  totalFlushes : Z;
  lastFlushAt : Z;
  lastFlushDuration : Z;
  cacheSize : Z
}.

(** The closure state of [makeSessionActivityTracker]. *)
Record Tracker : Type := {
  activityCache : gmap string Z;
  isDirty : bool;
  stats : Stats
}.

Definition initialStats : Stats :=
  {| totalUpdates := 0; totalFlushes := 0; lastFlushAt := 0;
     lastFlushDuration := 0; cacheSize := 0 |}.

Definition makeSessionActivityTracker : Tracker :=
  {| activityCache := ∅; isDirty := false; stats := initialStats |}.

Definition keyPrefix : string := "session-activity:".

(** [`session-activity:${jid}`] *)
Definition activityKey (jid : string) : string := keyPrefix +:+ jid.

(** [recordActivity(jid)], with [now] the reading of [Date.now()]. *)
Definition recordActivity (config : SessionActivityConfig) (now : Z)
    (jid : string) (t : Tracker) : Tracker :=
  if negb (enabled config) then t
  else
    let cache := <[jid := now]> (activityCache t) in
    {| activityCache := cache;
       isDirty := true;
       stats := {| totalUpdates := totalUpdates (stats t) + 1;
                   totalFlushes := totalFlushes (stats t);
                   lastFlushAt := lastFlushAt (stats t);
                   lastFlushDuration := lastFlushDuration (stats t);
                   cacheSize := Z.of_nat (size cache) |} |}.

(** [getLastActivity(jid)]. [disk] is what [keys.get] does on this call:
    it returns the store's answer or throws. The second component is the
    list of store calls made. *)
Definition getLastActivity (config : SessionActivityConfig) (jid : string)
    (t : Tracker) (disk : outcome KeyStore.t) : option Z * list Call :=
  if negb (enabled config) then (None, [])
  else
    let cached := activityCache t !! jid in
    if truthyNum cached then (cached, [])
    else
      let key := activityKey jid in
      match disk with
      | Returns store =>
          let data := KeyStore.get (sessionActivity store) [key] in
          (lastActivityAt <$> data !! key, [Get "session-activity" [key]])
      | Throws _ => (None, [Get "session-activity" [key]])
      end.

(** Body of the loop over [Object.entries(allData)]. *)
Definition collectEntry (result : gmap string Z)
    (entry : string * SessionActivityMetadata) : gmap string Z :=
  let '(key, metadata) := entry in
  if startsWith key keyPrefix then
    let jid := String.substring (String.length keyPrefix)
                 (String.length key - String.length keyPrefix) key in
    if truthyNum (Some (lastActivityAt metadata))
    then <[jid := lastActivityAt metadata]> result
    else result
  else result.

(** [getAllActivities()] *)
Definition getAllActivities (config : SessionActivityConfig)
    (t : Tracker) (disk : outcome KeyStore.t) : gmap string Z * list Call :=
  if negb (enabled config) then (∅, [])
  else
    match disk with
    | Returns store =>
        let allData := KeyStore.get (sessionActivity store) [] in
        let result := foldl collectEntry ∅ (map_to_list allData) in
        (* merge with the in-memory cache, the cache wins *)
        (map_fold (fun jid timestamp acc => <[jid := timestamp]> acc)
           result (activityCache t),
         [Get "session-activity" []])
    | Throws _ => (∅, [Get "session-activity" []])
    end.

(** The batch [updates] that [flush] prepares from the cache. *)
Definition flushUpdates (cache : gmap string Z)
    : gmap string (option SessionActivityMetadata) :=
  kmap activityKey
    ((fun timestamp =>
        Some {| lastActivityAt := timestamp; createdAt := Some timestamp |})
     <$> cache).

(** [flush()]. [clock k] is the k-th reading of [Date.now()] during the
    call; [tx] is what the store's transaction does. *)
Definition flush (config : SessionActivityConfig) (clock : nat -> Z)
    (tx : TxOutcome) (t : Tracker) (store : KeyStore.t)
    : Tracker * KeyStore.t * list Call :=
  if negb (enabled config) || negb (isDirty t)
     || (size (activityCache t) =? 0)%nat
  then (t, store, [])
  else
    let startTime := clock 0%nat in
    let work := [SetSessionActivity (flushUpdates (activityCache t))] in
    let call := Transaction "session-activity-flush" work in
    match KeyStore.transaction tx work store with
    | (store', true) =>
        ({| activityCache := ∅;
            isDirty := false;
            stats := {| totalUpdates := totalUpdates (stats t);
                        totalFlushes := totalFlushes (stats t) + 1;
                        lastFlushAt := clock 1%nat;
                        lastFlushDuration := clock 2%nat - startTime;
                        cacheSize := 0 |} |},
         store', [call])
    | (store', false) =>
        (* keep cache for retry on next flush *)
        (t, store', [call])
    end.

(** The buffer is dirty whenever it holds an entry. *)
Definition coherent (t : Tracker) : Prop :=
  activityCache t ≠ ∅ -> isDirty t = true.

End ActivityTracker.

(* ===================================================================== *)
(** ** Session cleanup (Signal/session-cleanup.ts)                         *)
(* ===================================================================== *)

Module SessionCleanup.
Import JS KeyStore.

Record SessionCleanupConfig : Type := {
  enabled : bool;
  intervalMs : Z;
  cleanupHour : Z;
  secondaryDeviceInactiveDays : Z;
  primaryDeviceInactiveDays : Z;
  lidOrphanHours : Z;
  cleanupOnStartup : bool;
  autoCleanCorrupted : bool
}.

Record SessionCleanupStats : Type := {
  totalScanned : Z;
  secondaryDevicesDeleted : Z;
  primaryDevicesDeleted : Z;
  lidOrphansDeleted : Z;
  totalDeleted : Z;
  durationMs : Z;
  errors : Z
}.

(** Session metadata for cleanup decisions. *)
Record SessionMetadata : Type := {
  jid : string;
  isLID : bool;
  isPrimary : bool;
  lastActivityMs : option Z;
  createdAtMs : option Z;
  hasLIDMapping : option bool
}.

(** The mutable variables of the [makeSessionCleanup] closure that
    [runCleanup] reads and writes. *)
Record State : Type := {
  lastCleanupAt : Z;
  cleanupRunning : bool
}.

(** What the collaborators do during one run. *)
Record Env : Type := {
  (** [keys.get('session', [])] throws *)
  getThrows : bool;
  (** [lidMapping.getPNForLID(jid)] *)
  getPNForLID : string -> outcome (option string);
  (** [null], or what [sessionActivityTracker.getAllActivities()] does *)
  sessionActivityTracker : option (outcome (gmap string Z));
  (** what the deletion transaction does *)
  txOutcome : TxOutcome;
  (** readings of [Date.now()]: at the start, while the given session key
      is processed, and the two readings at the end *)
  clockStart : Z;
  clockAt : string -> Z;
  clockEnd : Z;
  clockDuration : Z
}.

(** [getAllSessionKeys()] *)
Definition getAllSessionKeys (env : Env) (store : KeyStore.t) : list string :=
  if getThrows env then []
  else (map_to_list (KeyStore.get (session store) [])).*1.

(** [parseSessionMetadata(signalAddr)] *)
Definition parseSessionMetadata (env : Env) (signalAddr : string)
    : option SessionMetadata :=
  let parts := split "."%char signalAddr in
  let userWithDomain := parts !! 0%nat in
  let deviceStr := parts !! 1%nat in
  if negb (truthyStr userWithDomain) then None
  else
    let parts' := split "_"%char (default EmptyString userWithDomain) in
    let user := parts' !! 0%nat in
    let domainStr := parts' !! 1%nat in
    if negb (truthyStr user) then None
    else
      let user := default EmptyString user in
      let device := parseInt (orStr deviceStr "0") in
      let domain := parseInt (orStr domainStr "0") in
      let isLID :=
        match domain with
        | Some d => (d =? 2) || (d =? 6)
        | None => false
        end in
      let isPrimary :=
        match device with
        | Some d => d =? 0
        | None => false
        end in
      let jid :=
        if isLID then user +:+ "@lid"
        else
          user +:+
          match device with
          | Some d => if 0 <? d then ":" +:+ numToString d else EmptyString
          | None => EmptyString
          end +:+ "@s.whatsapp.net" in
      if isLID then
        match getPNForLID env jid with
        | Returns pn =>
            Some {| jid := jid; isLID := isLID; isPrimary := isPrimary;
                    lastActivityMs := None; createdAtMs := None;
                    hasLIDMapping := Some (truthyStr pn) |}
        | Throws _ => None
        end
      else
        Some {| jid := jid; isLID := isLID; isPrimary := isPrimary;
                lastActivityMs := None; createdAtMs := None;
                hasLIDMapping := None |}.

(** [metadata.hasLIDMapping === false] *)
Definition mappingIsFalse (m : SessionMetadata) : bool :=
  match hasLIDMapping m with
  | Some false => true
  | _ => false
  end.

(** [!metadata.hasLIDMapping] *)
Definition mappingIsFalsy (m : SessionMetadata) : bool :=
  match hasLIDMapping m with
  | Some true => false
  | _ => true
  end.

Definition HOUR_MS : Z := 60 * 60 * 1000.
Definition DAY_MS : Z := 24 * 60 * 60 * 1000.

(** [shouldCleanupSession(metadata, now)]: the decision and its reason. *)
Definition shouldCleanupSession (config : SessionCleanupConfig)
    (metadata : SessionMetadata) (now : Z) : bool * string :=
  (* Rule 1: LID orphans (no PN mapping) after X hours *)
  if isLID metadata && mappingIsFalse metadata then
    let thresholdMs := lidOrphanHours config * 60 * 60 * 1000 in
    if truthyNum (lastActivityMs metadata) then
      let inactiveDuration := now - default 0 (lastActivityMs metadata) in
      if thresholdMs <? inactiveDuration then
        (true,
         "LID orphan without PN mapping, inactive for "
         +:+ numToString (inactiveDuration / 3600000)
         +:+ "h (threshold: " +:+ numToString (lidOrphanHours config) +:+ "h)")
      else (false, "LID orphan but not inactive long enough")
    else
      (true,
       "LID orphan without PN mapping, no activity tracked (threshold: "
       +:+ numToString (lidOrphanHours config) +:+ "h)")
  (* Rule 2: secondary devices inactive > X days *)
  else if negb (isPrimary metadata) && truthyNum (lastActivityMs metadata) then
    let thresholdMs := secondaryDeviceInactiveDays config * 24 * 60 * 60 * 1000 in
    let inactiveDuration := now - default 0 (lastActivityMs metadata) in
    if thresholdMs <? inactiveDuration then
      (true,
       "Secondary device inactive for "
       +:+ numToString (inactiveDuration / 86400000)
       +:+ " days (threshold: "
       +:+ numToString (secondaryDeviceInactiveDays config) +:+ " days)")
    else
      (false,
       "Secondary device active within "
       +:+ numToString (secondaryDeviceInactiveDays config) +:+ " days")
  (* Rule 3: primary devices inactive > Y days *)
  else if isPrimary metadata && truthyNum (lastActivityMs metadata) then
    let thresholdMs := primaryDeviceInactiveDays config * 24 * 60 * 60 * 1000 in
    let inactiveDuration := now - default 0 (lastActivityMs metadata) in
    if thresholdMs <? inactiveDuration then
      (true,
       "Primary device inactive for "
       +:+ numToString (inactiveDuration / 86400000)
       +:+ " days (threshold: "
       +:+ numToString (primaryDeviceInactiveDays config) +:+ " days)")
    else
      (false,
       "Primary device active within "
       +:+ numToString (primaryDeviceInactiveDays config) +:+ " days")
  (* no lastActivity tracked: don't cleanup yet (grace period) *)
  else (false, "No activity tracked yet").

Definition emptyStats : SessionCleanupStats :=
  {| totalScanned := 0; secondaryDevicesDeleted := 0;
     primaryDevicesDeleted := 0; lidOrphansDeleted := 0;
     totalDeleted := 0; durationMs := 0; errors := 0 |}.

Definition addError (s : SessionCleanupStats) : SessionCleanupStats :=
  {| totalScanned := totalScanned s;
     secondaryDevicesDeleted := secondaryDevicesDeleted s;
     primaryDevicesDeleted := primaryDevicesDeleted s;
     lidOrphansDeleted := lidOrphansDeleted s;
     totalDeleted := totalDeleted s;
     durationMs := durationMs s;
     errors := errors s + 1 |}.

(** The "update statistics" step for a session marked for deletion. *)
Definition countDeletion (m : SessionMetadata) (s : SessionCleanupStats)
    : SessionCleanupStats :=
  if isLID m && mappingIsFalsy m then
    {| totalScanned := totalScanned s;
       secondaryDevicesDeleted := secondaryDevicesDeleted s;
       primaryDevicesDeleted := primaryDevicesDeleted s;
       lidOrphansDeleted := lidOrphansDeleted s + 1;
       totalDeleted := totalDeleted s;
       durationMs := durationMs s;
       errors := errors s |}
  else if negb (isPrimary m) then
    {| totalScanned := totalScanned s;
       secondaryDevicesDeleted := secondaryDevicesDeleted s + 1;
       primaryDevicesDeleted := primaryDevicesDeleted s;
       lidOrphansDeleted := lidOrphansDeleted s;
       totalDeleted := totalDeleted s;
       durationMs := durationMs s;
       errors := errors s |}
  else
    {| totalScanned := totalScanned s;
       secondaryDevicesDeleted := secondaryDevicesDeleted s;
       primaryDevicesDeleted := primaryDevicesDeleted s + 1;
       lidOrphansDeleted := lidOrphansDeleted s;
       totalDeleted := totalDeleted s;
       durationMs := durationMs s;
       errors := errors s |}.

(** The metadata the loop hands to [shouldCleanupSession]: the parsed one
    with [lastActivityMs] taken from the tracker's map. *)
Definition withActivity (activityMap : gmap string Z) (m : SessionMetadata)
    : SessionMetadata :=
  {| jid := jid m; isLID := isLID m; isPrimary := isPrimary m;
     lastActivityMs := activityMap !! jid m;
     createdAtMs := createdAtMs m;
     hasLIDMapping := hasLIDMapping m |}.

(** Local variables of the scanning loop. *)
Record Scan : Type := {
  scanStats : SessionCleanupStats;
  sessionsToDelete : list string;
  deletionReasons : gmap string string
}.

(** One iteration of [for (const signalAddr of sessionKeys)]. *)
Definition scanStep (config : SessionCleanupConfig) (env : Env)
    (activityMap : gmap string Z) (acc : Scan) (signalAddr : string) : Scan :=
  match parseSessionMetadata env signalAddr with
  | None =>
      {| scanStats := addError (scanStats acc);
         sessionsToDelete := sessionsToDelete acc;
         deletionReasons := deletionReasons acc |}
  | Some parsed =>
      let metadata := withActivity activityMap parsed in
      let '(cleanup, reason) :=
        shouldCleanupSession config metadata (clockAt env signalAddr) in
      if cleanup then
        {| scanStats := countDeletion metadata (scanStats acc);
           sessionsToDelete := sessionsToDelete acc ++ [signalAddr];
           deletionReasons := <[signalAddr := reason]> (deletionReasons acc) |}
      else acc
  end.

Definition scan (config : SessionCleanupConfig) (env : Env)
    (activityMap : gmap string Z) (stats : SessionCleanupStats)
    (sessionKeys : list string) : Scan :=
  foldl (scanStep config env activityMap)
    {| scanStats := stats; sessionsToDelete := []; deletionReasons := ∅ |}
    sessionKeys.

(** [sessionsToDelete.forEach(addr => sessionUpdates[addr] = null)] *)
Definition sessionUpdates (toDelete : list string) : gmap string (option string) :=
  foldl (fun acc addr => <[addr := None]> acc) ∅ toDelete.

Definition setTotals (s : SessionCleanupStats) (scanned deleted duration : Z)
    : SessionCleanupStats :=
  {| totalScanned := scanned;
     secondaryDevicesDeleted := secondaryDevicesDeleted s;
     primaryDevicesDeleted := primaryDevicesDeleted s;
     lidOrphansDeleted := lidOrphansDeleted s;
     totalDeleted := deleted;
     durationMs := duration;
     errors := errors s |}.

(** [sessionActivityTracker ? await sessionActivityTracker.getAllActivities()
                            : new Map()] *)
Definition loadActivities (env : Env) : outcome (gmap string Z) :=
  match sessionActivityTracker env with
  | Some o => o
  | None => Returns ∅
  end.

(** Result of one run: the returned stats, the closure state, the store
    and the calls made on the store. *)
Record Run : Type := {
  runStats : SessionCleanupStats;
  runState : State;
  runStore : KeyStore.t;
  runCalls : list Call;
  (** the keys selected for deletion by this run *)
  runSelected : list string
}.

(** [runCleanup()] *)
Definition runCleanup (config : SessionCleanupConfig) (env : Env)
    (st : State) (store : KeyStore.t) : Run :=
  let stats := emptyStats in
  if negb (enabled config) then
    {| runStats := stats; runState := st; runStore := store;
       runCalls := []; runSelected := [] |}
  else if cleanupRunning st then
    {| runStats := stats; runState := st; runStore := store;
       runCalls := []; runSelected := [] |}
  else
    let sessionKeys := getAllSessionKeys env store in
    let getCall := Get "session" [] in
    let scanned := Z.of_nat (length sessionKeys) in
    match loadActivities env with
    | Throws _ =>
        (* outer catch: the run is abandoned *)
        {| runStats :=
             addError (setTotals stats scanned 0 (clockEnd env - clockStart env));
           runState := {| lastCleanupAt := lastCleanupAt st;
                          cleanupRunning := false |};
           runStore := store;
           runCalls := [getCall];
           runSelected := [] |}
    | Returns activityMap =>
        let sc := scan config env activityMap
                    (setTotals stats scanned 0 0) sessionKeys in
        let toDelete := sessionsToDelete sc in
        let finish (s : SessionCleanupStats) (deleted : Z) :=
          setTotals s scanned deleted (clockDuration env - clockStart env) in
        let st' := {| lastCleanupAt := clockEnd env; cleanupRunning := false |} in
        if (0 <? length toDelete)%nat then
          let work := [SetSession (sessionUpdates toDelete)] in
          let txCall := Transaction "session-cleanup" work in
          match KeyStore.transaction (txOutcome env) work store with
          | (store', true) =>
              {| runStats := finish (scanStats sc) (Z.of_nat (length toDelete));
                 runState := st'; runStore := store';
                 runCalls := [getCall; txCall]; runSelected := toDelete |}
          | (store', false) =>
              {| runStats := finish (addError (scanStats sc)) 0;
                 runState := st'; runStore := store';
                 runCalls := [getCall; txCall]; runSelected := toDelete |}
          end
        else
          {| runStats := finish (scanStats sc) 0;
             runState := st'; runStore := store;
             runCalls := [getCall]; runSelected := toDelete |}
    end.

(** The decision the loop takes for one session key. *)
Definition selects (config : SessionCleanupConfig) (env : Env)
    (activityMap : gmap string Z) (signalAddr : string) : bool :=
  match parseSessionMetadata env signalAddr with
  | Some parsed =>
      (shouldCleanupSession config (withActivity activityMap parsed)
         (clockAt env signalAddr)).1
  | None => false
  end.

(** The retention tier of a record, in the order of the rules. *)
Inductive Tier : Type := LidOrphan | SecondaryDevice | PrimaryDevice.

Definition tierOf (m : SessionMetadata) : Tier :=
  if isLID m && mappingIsFalse m then LidOrphan
  else if negb (isPrimary m) then SecondaryDevice
  else PrimaryDevice.

(** The same environment with another outcome of the transaction. *)
Definition withTx (o : TxOutcome) (env : Env) : Env :=
  {| getThrows := getThrows env;
     getPNForLID := getPNForLID env;
     sessionActivityTracker := sessionActivityTracker env;
     txOutcome := o;
     clockStart := clockStart env;
     clockAt := clockAt env;
     clockEnd := clockEnd env;
     clockDuration := clockDuration env |}.

(** Inactivity threshold of a tier, in milliseconds. *)
Definition tierThresholdMs (config : SessionCleanupConfig) (tier : Tier) : Z :=
  match tier with
  | LidOrphan => lidOrphanHours config * HOUR_MS
  | SecondaryDevice => secondaryDeviceInactiveDays config * DAY_MS
  | PrimaryDevice => primaryDeviceInactiveDays config * DAY_MS
  end.

(** Sum of the three per-category counters. *)
Definition deletedSum (s : SessionCleanupStats) : Z :=
  lidOrphansDeleted s + secondaryDevicesDeleted s + primaryDevicesDeleted s.

End SessionCleanup.

(* ===================================================================== *)
(** ** Decryption pipeline (Utils/decode-wa-message.ts)                    *)
(* ===================================================================== *)

Module Decrypt.
Import JS.

Definition NO_MESSAGE_FOUND_ERROR_TEXT : string := "Message absent from node".
Definition MISSING_KEYS_ERROR_TEXT : string := "Key used already or never filled".
Definition BAD_MAC_ERROR_TEXT : string := "Bad MAC".

Record RetryConfig : Type := {
  maxRetries : Z;
  baseDelayMs : Z;
  sessionRecordErrors : list string;
  corruptedSessionErrors : list string
}.

Definition DECRYPTION_RETRY_CONFIG : RetryConfig :=
  {| maxRetries := 3;
     baseDelayMs := 100;
     sessionRecordErrors :=
       ["No session record"; "SessionError: No session record"];
     corruptedSessionErrors :=
       ["Bad MAC"; "MessageCounterError"; MISSING_KEYS_ERROR_TEXT] |}.

Inductive BackoffStrategy : Type := Exponential | Linear | Fixed.

(** [RetryOptions] of [./retry-utils], as far as this module sets them. *)
Record RetryOptions : Type := {
  maxAttempts : Z;
  baseDelay : Z;
  maxDelay : Z;
  backoffStrategy : BackoffStrategy;
  backoffMultiplier : Z;
  jitter : Q;
  collectMetrics : bool;
  operationName : string;
  shouldRetry : JsError -> Z -> bool
}.

(** [DECRYPTION_RETRY_OPTIONS.shouldRetry] *)
Definition decryptionShouldRetry (error : JsError) (attempt : Z) : bool :=
  let errorMsg := errMessage error in
  (* always retry on session record errors (session might be syncing) *)
  if someIncluded (sessionRecordErrors DECRYPTION_RETRY_CONFIG) errorMsg
  then attempt <? 3
  (* don't retry on corrupted session errors (need cleanup first) *)
  else if someIncluded (corruptedSessionErrors DECRYPTION_RETRY_CONFIG) errorMsg
  then false
  (* retry other transient errors *)
  else attempt <? 2.

Definition DECRYPTION_RETRY_OPTIONS : RetryOptions :=
  {| maxAttempts := 3;
     baseDelay := 200;
     maxDelay := 2000;
     backoffStrategy := Exponential;
     backoffMultiplier := 2;
     jitter := (2 # 10)%Q;
     collectMetrics := false;
     operationName := "message_decryption";
     shouldRetry := decryptionShouldRetry |}.

(** [error?.message || error?.toString() || ''] *)
Definition errorText (error : JsError) : string :=
  match errMessage error with
  | String c r => String c r
  | EmptyString => errToString error
  end.

(** [isSessionRecordError(error)] *)
Definition isSessionRecordError (error : JsError) : bool :=
  someIncluded (sessionRecordErrors DECRYPTION_RETRY_CONFIG) (errorText error).

(** [isCorruptedSessionError(error)] *)
Definition isCorruptedSessionError (error : JsError) : bool :=
  someIncluded (corruptedSessionErrors DECRYPTION_RETRY_CONFIG) (errorText error).

(** The message matches a missing-session-record pattern. *)
Definition sessionRecordMessage (e : JsError) : Prop :=
  someIncluded (sessionRecordErrors DECRYPTION_RETRY_CONFIG) (errMessage e) = true.

(** The message matches a corrupted-session pattern and no
    missing-session-record pattern. *)
Definition corruptedOnlyMessage (e : JsError) : Prop :=
  someIncluded (sessionRecordErrors DECRYPTION_RETRY_CONFIG) (errMessage e) = false /\
  someIncluded (corruptedSessionErrors DECRYPTION_RETRY_CONFIG) (errMessage e) = true.

(** What [retry] throws: the error of the operation as it is, or a
    [RetryExhaustedError] wrapping it. *)
Inductive Thrown : Type :=
| Raw (error : JsError)
| RetryExhaustedError (originalError : JsError) (attempts : Z).

(** What one [retry] call did: the attempts made (operation calls) and
    its result. *)
Record Retried (A : Type) : Type := {
  attemptsMade : nat;
  retryResult : A + Thrown
}.
Arguments attemptsMade {A} _.
Arguments retryResult {A} _.

(** Modelled from the spec: [retry(fn, options)] of [./retry-utils] (not
    part of these sources), "retried up to 3 attempts with backoff". The
    operation is attempted at most [maxAttempts] times. A failed attempt
    that was the last one allowed throws [RetryExhaustedError]; one that
    [shouldRetry] refuses rethrows the error itself; otherwise the call
    waits and tries again. How long it waits has no part in any result and
    is not modelled. The number under which [shouldRetry] is told of the
    first attempt is not fixed by the spec and is left open:
    [firstAttempt]. [fn k] is what the k-th call of the operation does
    (k counted from 0). *)
Fixpoint retryFrom {A : Type} (options : RetryOptions) (firstAttempt : Z)
    (fn : nat -> outcome A) (fuel : nat) (done : nat) : Retried A :=
  let attempt := firstAttempt + Z.of_nat done in
  match fuel with
  | O =>
      {| attemptsMade := done;
         retryResult :=
           inr (RetryExhaustedError
                  {| errName := "Error"; errMessage := EmptyString |}
                  (Z.of_nat done)) |}
  | S fuel' =>
      match fn done with
      | Returns a => {| attemptsMade := S done; retryResult := inl a |}
      | Throws error =>
          if maxAttempts options <=? Z.of_nat (S done) then
            {| attemptsMade := S done;
               retryResult :=
                 inr (RetryExhaustedError error (Z.of_nat (S done))) |}
          else if negb (shouldRetry options error attempt) then
            {| attemptsMade := S done; retryResult := inr (Raw error) |}
          else retryFrom options firstAttempt fn fuel' (S done)
      end
  end.

(** Modelled from the spec: the entry point of [retry], which starts at
    the first attempt with [maxAttempts] attempts to go. *)
Definition retry {A : Type} (options : RetryOptions) (firstAttempt : Z)
    (fn : nat -> outcome A) : Retried A :=
  retryFrom options firstAttempt fn (Z.to_nat (maxAttempts options)) 0%nat.

(** Result of [jidDecode]. *)
Record FullJid : Type := {
  user : string;
  device : option Z;
  server : string
}.

(** A child of the stanza: its content is a byte array or something else. *)
Inductive Content : Type :=
| Binary (bytes : string)
| OtherContent.

Record BinaryNode : Type := {
  tag : string;
  attrs : gmap string string;
  content : Content
}.

Inductive StubType : Type := CIPHERTEXT.

(** The decoded protobuf message, after
    [msg = msg.deviceSentMessage?.message || msg]: its fields, and the
    sender key distribution message when it carries one. *)
Record Decoded : Type := {
  fields : gmap string string;
  senderKeyDistributionMessage : option string
}.

(** The parts of [fullMessage] that [decrypt()] writes. [retryCountAttr]
    holds the attribute whose [Number(...)] is [retryCount]. *)
Record FullMessage : Type := {
  verifiedBizName : option string;
  isViewOnce : bool;
  retryCountAttr : option string;
  message : option (gmap string string);
  messageStubType : option StubType;
  messageStubParameters : list string
}.

(** Calls made on the signal repository, in order. *)
Inductive RepoCall : Type :=
| StoreLIDPNMappings (lid pn : string)
| MigrateSession (fromJid toJid : string)
| DecryptMessage (jid type ciphertext : string)
| DecryptGroupMessage (group authorJid msg : string)
| ProcessSenderKeyDistributionMessage (authorJid item : string)
| DeleteSession (jids : list string).

(** What the signal repository does. The lookup of the mapping store
    takes the calls made on the repository before it, so that it may
    answer with a mapping stored meanwhile. The cipher calls take the
    number of cipher calls made before, so that a retried call may fare
    differently. A boolean result tells whether the call returned (true)
    or threw. *)
Record Repository : Type := {
  getLIDForPN : list RepoCall -> string -> option string;
  storeLIDPNMappings : string -> string -> bool;
  migrateSession : string -> string -> bool;
  decryptMessage : string -> string -> string -> nat -> outcome string;
  decryptGroupMessage : string -> string -> string -> nat -> outcome string;
  processSenderKeyDistributionMessage : string -> string -> bool;
  deleteSession : list string -> bool
}.

(** Local state of one [decrypt()] call, with the session records the
    cipher module holds (by address) as far as this module deletes them. *)
Record DecryptState : Type := {
  fullMessage : FullMessage;
  decryptables : Z;
  cipherCalls : nat;
  sessions : gset string;
  calls : list RepoCall
}.

Definition withMessage (st : DecryptState) (f : FullMessage -> FullMessage)
    : DecryptState :=
  {| fullMessage := f (fullMessage st);
     decryptables := decryptables st;
     cipherCalls := cipherCalls st;
     sessions := sessions st;
     calls := calls st |}.

Definition addCalls (st : DecryptState) (cs : list RepoCall) : DecryptState :=
  {| fullMessage := fullMessage st;
     decryptables := decryptables st;
     cipherCalls := cipherCalls st;
     sessions := sessions st;
     calls := calls st ++ cs |}.

(** [a || b] on attribute values. *)
Definition orAttr (a b : option string) : option string :=
  if truthyStr a then a else b.

(** [extractAddressingContext(stanza)]: addressing mode, [senderAlt] and
    [recipientAlt]. *)
Definition extractAddressingContext (stanzaAttrs : gmap string string)
    : string * option string * option string :=
  let sender := orAttr (stanzaAttrs !! "participant") (stanzaAttrs !! "from") in
  let addressingMode :=
    orStr (stanzaAttrs !! "addressing_mode")
      (match sender with
       | Some s => if endsWith s "lid" then "lid" else "pn"
       | None => "pn"
       end) in
  if String.eqb addressingMode "lid" then
    (addressingMode,
     orAttr (orAttr (stanzaAttrs !! "participant_pn") (stanzaAttrs !! "sender_pn"))
       (stanzaAttrs !! "peer_recipient_pn"),
     stanzaAttrs !! "recipient_pn")
  else
    (addressingMode,
     orAttr (orAttr (stanzaAttrs !! "participant_lid") (stanzaAttrs !! "sender_lid"))
       (stanzaAttrs !! "peer_recipient_lid"),
     stanzaAttrs !! "recipient_lid").

(** Modelled from the spec: the cipher module's [deleteSession(jids)], an
    external collaborator: the records of the given addresses are gone. *)
Definition deleteSessions (jids : list string) (held : gset string) : gset string :=
  held ∖ list_to_set jids.

Section Pipeline.

(** Helpers of [../WABinary], [./generics] and the protobuf library, which
    are not part of these sources. *)
Variable isLidUser : string -> bool.
Variable isPnUser : string -> bool.
Variable isHostedLidUser : string -> bool.
Variable jidDecode : string -> option FullJid.
Variable unpadRandomMax16 : string -> outcome string.
Variable decodeMessage : string -> outcome Decoded.

(** The two [decode] calls on a [verified_name] certificate: they throw,
    or the certificate has no [details] ([None]), or it has, with their
    [verifiedName]. *)
Variable decodeVerifiedName : string -> outcome (option (option string)).

(** The number under which [retry] tells [shouldRetry] of the first
    attempt. *)
Variable firstAttempt : Z.

Variable repository : Repository.

(** [getDecryptionJid(sender, repository)], after the given calls on the
    repository. *)
Definition getDecryptionJid (madeSoFar : list RepoCall) (sender : string)
    : string :=
  if isLidUser sender || isHostedLidUser sender then sender
  else orStr (getLIDForPN repository madeSoFar sender) sender.

(** [storeMappingFromEnvelope]: the repository calls it makes. *)
Definition storeMappingFromEnvelope (stanzaAttrs : gmap string string)
    (sender decryptionJid : string) : list RepoCall :=
  let '(_, senderAlt, _) := extractAddressingContext stanzaAttrs in
  match senderAlt with
  | Some alt =>
      if truthyStr senderAlt && isLidUser alt && isPnUser sender
         && String.eqb decryptionJid sender
      then
        if storeLIDPNMappings repository alt sender
        then [StoreLIDPNMappings alt sender; MigrateSession sender alt]
        else [StoreLIDPNMappings alt sender]
      else []
  | None => []
  end.

(** The domain under which [cleanupCorruptedSession] deletes, by the
    suffix of the address (hosted addresses included). *)
Definition sessionDomain (jid : string) : string :=
  let isLID := endsWith jid "@lid" || endsWith jid "@hosted.lid" in
  let isHosted := includes jid "@hosted" in
  if isLID then (if isHosted then "hosted.lid" else "lid")
  else (if isHosted then "hosted" else "s.whatsapp.net").

(** [`${user}:${i}@${domain}`] *)
Definition deviceJid (userPart : string) (i : Z) (domain : string) : string :=
  userPart +:+ ":" +:+ numToString i +:+ "@" +:+ domain.

(** The addresses [cleanupCorruptedSession] asks to delete, or [None]
    when the address does not decode to a user. *)
Definition corruptedSessionTargets (jid : string) : option (list string) :=
  let decoded := jidDecode jid in
  let userPart : option string := user <$> decoded in
  let devicePart : option Z := decoded ≫= device in
  if negb (truthyStr userPart) then None
  else
    let userPart := default EmptyString userPart in
    let domain := sessionDomain jid in
    (* primary device (0) *)
    let primary : list string := [userPart +:+ "@" +:+ domain] in
    (* secondary devices (1-5) *)
    let secondary : list string :=
      (fun i => deviceJid userPart i domain) <$> [1; 2; 3; 4; 5] in
    (* a specific device beyond 5 *)
    let specific : list string :=
      match devicePart with
      | Some d => if 5 <? d then [deviceJid userPart d domain] else []
      | None => []
      end in
    Some (primary ++ secondary ++ specific)%list.

(** [cleanupCorruptedSession(jid, repository, logger)]: the new state and
    the returned count, or the error of [deleteSession]. *)
Definition cleanupCorruptedSession (jid : string) (st : DecryptState)
    : DecryptState * option Z :=
  match corruptedSessionTargets jid with
  | None => (st, Some 0)
  | Some jidsToDelete =>
      let st' := addCalls st [DeleteSession jidsToDelete] in
      if deleteSession repository jidsToDelete then
        ({| fullMessage := fullMessage st';
            decryptables := decryptables st';
            cipherCalls := cipherCalls st';
            sessions := deleteSessions jidsToDelete (sessions st');
            calls := calls st' |},
         Some (Z.of_nat (length jidsToDelete)))
      else (st', None)
  end.

(** What [decodeMessageNode] hands to [decrypt()]: the stanza with its
    attributes and children ([None] when the content is not an array), the
    author and the sender. *)
Record Envelope : Type := {
  stanzaAttrs : gmap string string;
  stanzaContent : option (list BinaryNode);
  author : string;
  sender : string
}.

(** The [switch (e2eType)]: the cipher call wrapped in [retry]. *)
Definition runCipher (env : Envelope) (e2eType : option string)
    (bytes decryptionJid : string) (st : DecryptState)
    : DecryptState * (string + Thrown) :=
  let kind := default "undefined" e2eType in
  if String.eqb kind "skmsg" then
    let r := retry DECRYPTION_RETRY_OPTIONS firstAttempt
               (fun k => decryptGroupMessage repository (sender env) (author env)
                           bytes (cipherCalls st + k)%nat) in
    ({| fullMessage := fullMessage st;
        decryptables := decryptables st;
        cipherCalls := (cipherCalls st + attemptsMade r)%nat;
        sessions := sessions st;
        calls := (calls st ++
                  replicate (attemptsMade r)
                    (DecryptGroupMessage (sender env) (author env) bytes))%list |},
     retryResult r)
  else if String.eqb kind "pkmsg" || String.eqb kind "msg" then
    let r := retry DECRYPTION_RETRY_OPTIONS firstAttempt
               (fun k => decryptMessage repository decryptionJid kind
                           bytes (cipherCalls st + k)%nat) in
    ({| fullMessage := fullMessage st;
        decryptables := decryptables st;
        cipherCalls := (cipherCalls st + attemptsMade r)%nat;
        sessions := sessions st;
        calls := (calls st ++
                  replicate (attemptsMade r)
                    (DecryptMessage decryptionJid kind bytes))%list |},
     retryResult r)
  else if String.eqb kind "plaintext" then (st, inl bytes)
  else
    (st, inr (Raw {| errName := "Error";
                     errMessage := "Unknown e2e type: " +:+ kind |})).

(** The cipher call a node of the given type makes, and what the
    repository answers to it. *)
Definition cipherCall (env : Envelope) (kind bytes jid : string) : RepoCall :=
  if String.eqb kind "skmsg"
  then DecryptGroupMessage (sender env) (author env) bytes
  else DecryptMessage jid kind bytes.

Definition cipherAnswer (env : Envelope) (kind bytes jid : string) (n : nat)
    : outcome string :=
  if String.eqb kind "skmsg"
  then decryptGroupMessage repository (sender env) (author env) bytes n
  else decryptMessage repository jid kind bytes n.

Definition ciphered (kind : string) : Prop :=
  kind = "skmsg" \/ kind = "pkmsg" \/ kind = "msg".

(** The state after [n] cipher calls. *)
Definition afterCipher (st : DecryptState) (n : nat) (call : RepoCall)
    : DecryptState :=
  {| fullMessage := fullMessage st;
     decryptables := decryptables st;
     cipherCalls := (cipherCalls st + n)%nat;
     sessions := sessions st;
     calls := (calls st ++ replicate n call)%list |}.

(** The rest of the [try] block once the cipher returned [msgBuffer]. *)
Definition acceptPlaintext (env : Envelope) (e2eType : option string)
    (msgBuffer : string) (st : DecryptState) : DecryptState + Thrown :=
  let input :=
    if negb (String.eqb (default "undefined" e2eType) "plaintext")
    then unpadRandomMax16 msgBuffer
    else Returns msgBuffer in
  match input with
  | Throws e => inr (Raw e)
  | Returns padded =>
      match decodeMessage padded with
      | Throws e => inr (Raw e)
      | Returns msg =>
          let st1 :=
            match senderKeyDistributionMessage msg with
            | Some item =>
                (* an error of this call is logged and dropped *)
                addCalls st [ProcessSenderKeyDistributionMessage (author env) item]
            | None => st
            end in
          inl (withMessage st1 (fun m =>
            {| verifiedBizName := verifiedBizName m;
               isViewOnce := isViewOnce m;
               retryCountAttr := retryCountAttr m;
               message :=
                 match message m with
                 | Some old => Some (fields msg ∪ old)
                 | None => Some (fields msg)
                 end;
               messageStubType := messageStubType m;
               messageStubParameters := messageStubParameters m |}))
      end
  end.

Definition originalErrorOf (err : Thrown) : JsError :=
  match err with
  | RetryExhaustedError e _ => e
  | Raw e => e
  end.

Definition setStub (parameter : string) (m : FullMessage) : FullMessage :=
  {| verifiedBizName := verifiedBizName m;
     isViewOnce := isViewOnce m;
     retryCountAttr := retryCountAttr m;
     message := message m;
     messageStubType := Some CIPHERTEXT;
     messageStubParameters := [parameter] |}.

(** The [catch (err)] block of the node loop. *)
Definition onDecryptFailure (autoCleanCorrupted : bool)
    (decryptionJid : string) (err : Thrown) (st : DecryptState) : DecryptState :=
  let originalError := originalErrorOf err in
  let isCorrupted := isCorruptedSessionError originalError in
  let st1 :=
    if isCorrupted && autoCleanCorrupted
    then (cleanupCorruptedSession decryptionJid st).1
    else st in
  withMessage st1 (setStub (errMessage originalError)).

(** The head of the loop body: the verified name, the view-once flag and
    the retry count, whatever the node is. The certificate is decoded
    outside the [try] block, so an error of its decoder is thrown out of
    [decrypt()], before this iteration has changed anything. *)
Definition noteAttributes (st : DecryptState) (node : BinaryNode)
    : outcome DecryptState :=
  let named : outcome DecryptState :=
    match content node with
    | Binary bytes =>
        if String.eqb (tag node) "verified_name" then
          match decodeVerifiedName bytes with
          | Throws e => Throws e
          | Returns (Some verifiedName) =>
              Returns (withMessage st (fun m =>
                {| verifiedBizName := verifiedName;
                   isViewOnce := isViewOnce m;
                   retryCountAttr := retryCountAttr m;
                   message := message m;
                   messageStubType := messageStubType m;
                   messageStubParameters := messageStubParameters m |}))
          | Returns None => Returns st
          end
        else Returns st
    | OtherContent => Returns st
    end in
  match named with
  | Throws e => Throws e
  | Returns st =>
      let st :=
        if String.eqb (tag node) "unavailable"
           && bool_decide (attrs node !! "type" = Some "view_once")
        then withMessage st (fun m =>
               {| verifiedBizName := verifiedBizName m;
                  isViewOnce := true;
                  retryCountAttr := retryCountAttr m;
                  message := message m;
                  messageStubType := messageStubType m;
                  messageStubParameters := messageStubParameters m |})
        else st in
      Returns
        (if truthyStr (attrs node !! "count") && String.eqb (tag node) "enc"
         then withMessage st (fun m =>
                {| verifiedBizName := verifiedBizName m;
                   isViewOnce := isViewOnce m;
                   retryCountAttr := attrs node !! "count";
                   message := message m;
                   messageStubType := messageStubType m;
                   messageStubParameters := messageStubParameters m |})
         else st)
  end.

(** The rest of the loop body, from
    [if (tag !== 'enc' && tag !== 'plaintext') continue] on. The
    decryption address is read from the repository at every node, after
    the calls made so far. *)
Definition decryptPayload (env : Envelope) (autoCleanCorrupted : bool)
    (st : DecryptState) (node : BinaryNode) : DecryptState :=
  if negb (String.eqb (tag node) "enc") && negb (String.eqb (tag node) "plaintext")
  then st
  else
    match content node with
    | OtherContent => st
    | Binary bytes =>
        let decryptionJid := getDecryptionJid (calls st) (author env) in
        let st :=
          {| fullMessage := fullMessage st;
             decryptables := decryptables st + 1;
             cipherCalls := cipherCalls st;
             sessions := sessions st;
             calls := calls st |} in
        let st :=
          if negb (String.eqb (tag node) "plaintext")
          then addCalls st
                 (storeMappingFromEnvelope (stanzaAttrs env) (author env)
                    decryptionJid)
          else st in
        let e2eType :=
          if String.eqb (tag node) "plaintext" then Some "plaintext"
          else attrs node !! "type" in
        match runCipher env e2eType bytes decryptionJid st with
        | (st1, inl msgBuffer) =>
            match acceptPlaintext env e2eType msgBuffer st1 with
            | inl st2 => st2
            | inr err => onDecryptFailure autoCleanCorrupted decryptionJid err st1
            end
        | (st1, inr err) =>
            onDecryptFailure autoCleanCorrupted decryptionJid err st1
        end
    end.

(** How an iteration, the loop and [decrypt()] end: they complete, or an
    error thrown outside the [try] block rejects [decrypt()], with the
    message as it was left. *)
Inductive Ended : Type :=
| Completes (st : DecryptState)
| Rejects (st : DecryptState) (error : JsError).

Definition stateOf (r : Ended) : DecryptState :=
  match r with
  | Completes st => st
  | Rejects st _ => st
  end.

(** One iteration of [for (const { tag, attrs, content } of stanza.content)]. *)
Definition decryptNode (env : Envelope) (autoCleanCorrupted : bool)
    (st : DecryptState) (node : BinaryNode) : Ended :=
  match noteAttributes st node with
  | Throws e => Rejects st e
  | Returns st => Completes (decryptPayload env autoCleanCorrupted st node)
  end.

(** The loop over the children of the stanza. *)
Fixpoint decryptLoop (env : Envelope) (autoCleanCorrupted : bool)
    (nodes : list BinaryNode) (st : DecryptState) : Ended :=
  match nodes with
  | [] => Completes st
  | node :: rest =>
      match decryptNode env autoCleanCorrupted st node with
      | Completes st => decryptLoop env autoCleanCorrupted rest st
      | Rejects st e => Rejects st e
      end
  end.

(** The addresses targeted once the decryption address decodes to a
    user: the primary address, devices 1 to 5, and the decoded device
    when it is beyond 5, all under the domain of the address. *)
Definition expectedTargets (jid : string) (fj : FullJid) : list string :=
  let u := user fj in
  let d := sessionDomain jid in
  ([u +:+ "@" +:+ d; deviceJid u 1 d; deviceJid u 2 d; deviceJid u 3 d;
    deviceJid u 4 d; deviceJid u 5 d]
   ++ match device fj with
      | Some dv => if 5 <? dv then [deviceJid u dv d] else []
      | None => []
      end)%list.

(** The rest of the loop body on an [enc] node with binary content: the
    state in which the cipher is called. *)
Definition beforeCipher (env : Envelope) (st : DecryptState) : DecryptState :=
  addCalls
    {| fullMessage := fullMessage st;
       decryptables := decryptables st + 1;
       cipherCalls := cipherCalls st;
       sessions := sessions st;
       calls := calls st |}
    (storeMappingFromEnvelope (stanzaAttrs env) (author env)
       (getDecryptionJid (calls st) (author env))).

Definition initialMessage : FullMessage :=
  {| verifiedBizName := None; isViewOnce := false; retryCountAttr := None;
     message := None; messageStubType := None; messageStubParameters := [] |}.

Definition initialState (held : gset string) : DecryptState :=
  {| fullMessage := initialMessage; decryptables := 0; cipherCalls := 0%nat;
     sessions := held; calls := [] |}.

(** [decryptMessageNode(...).decrypt()] *)
Definition decrypt (env : Envelope) (autoCleanCorrupted : bool)
    (held : gset string) : Ended :=
  let looped :=
    match stanzaContent env with
    | Some nodes => decryptLoop env autoCleanCorrupted nodes (initialState held)
    | None => Completes (initialState held)
    end in
  match looped with
  | Rejects st e => Rejects st e
  | Completes st =>
      (* if nothing was found to decrypt *)
      Completes
        (if (decryptables st =? 0) && negb (isViewOnce (fullMessage st))
         then withMessage st (setStub NO_MESSAGE_FOUND_ERROR_TEXT)
         else st)
  end.

End Pipeline.

End Decrypt.

(* ===================================================================== *)
(** ** Session migrator                                                    *)
(* ===================================================================== *)

Module Migrator.
Import KeyStore.

(** The two identifier spaces. *)
Inductive IdentityTag : Type := PhoneNumber | LongLivedId.

#[global] Instance IdentityTag_eq_dec : EqDecision IdentityTag.
Proof. solve_decision. Defined.

#[global] Instance IdentityTag_countable : Countable IdentityTag.
Proof.
  refine (inj_countable'
            (fun t => match t with PhoneNumber => false | LongLivedId => true end)
            (fun b => if b then LongLivedId else PhoneNumber) _).
  intros []; reflexivity.
Defined.

(** An identity: its tag, its user component and an optional device. *)
Record Identity : Type := {
  tag : IdentityTag;
  user : string;
  device : option Z
}.

(** Modelled from the spec: the state the migrator works on, session
    records keyed by (user, tag, device), the device list of every user,
    and the migration ledger (phone-number user, device) -> completedAtMs. *)
Record State : Type := {
  sessions : gmap (string * IdentityTag * Z) string;
  deviceList : gmap string (list Z);
  ledger : gmap (string * Z) Z
}.

Record MigrationResult : Type := {
  migrated : Z;
  skipped : Z;
  total : Z
}.

Inductive Outcome : Type :=
| Rejected                       (* direction guard *)
| Failed                         (* the transaction did not commit *)
| Done (result : MigrationResult).

(** Modelled from the spec: the grace period of a ledger entry, 7 days. *)
Definition LEDGER_GRACE_MS : Z := 7 * 24 * 60 * 60 * 1000.

(** Modelled from the spec: a ledger entry exists for the device and is
    unexpired (step 3). *)
Definition ledgerHolds (now : Z) (st : State) (pnUser : string) (d : Z) : bool :=
  match ledger st !! (pnUser, d) with
  | Some completedAt => now - completedAt <=? LEDGER_GRACE_MS
  | None => false
  end.

(** Modelled from the spec: steps 3 and 4 for one device, the record to
    move, or [None] when the device is skipped. *)
Definition toMigrate (now : Z) (st : State) (pnUser : string) (d : Z)
    : option (Z * string) :=
  if ledgerHolds now st pnUser d then None
  else
    match sessions st !! (pnUser, PhoneNumber, d) with
    | Some record => Some (d, record)
    | None => None
    end.

(** Modelled from the spec: step 5 for one device, write under the
    long-lived-id key and delete the phone-number key. *)
Definition relocate (pnUser lidUser : string)
    (m : gmap (string * IdentityTag * Z) string) (move : Z * string)
    : gmap (string * IdentityTag * Z) string :=
  delete (pnUser, PhoneNumber, move.1)
    (<[(lidUser, LongLivedId, move.1) := move.2]> m).

(** Modelled from the spec: [migrateSessions(sourceIdentity,
    targetIdentity)], whose implementation is not part of these sources,
    following the seven steps of the design: direction guard, device
    list, ledger check, read of the phone-number record, staging, one
    transaction for everything staged, ledger entries on commit. *)
Definition migrateSessions (now : Z) (tx : TxOutcome)
    (source target : Identity) (st : State) : Outcome * State :=
  match tag source, tag target with
  | PhoneNumber, LongLivedId =>
      let devices := default [] (deviceList st !! user source) in
      match devices with
      | [] => (Done {| migrated := 0; skipped := 0; total := 0 |}, st)
      | _ =>
          let staged := omap (toMigrate now st (user source)) devices in
          match tx with
          | Aborts => (Failed, st)
          | Commits =>
              (Done {| migrated := Z.of_nat (length staged);
                       skipped := Z.of_nat (length devices)
                                  - Z.of_nat (length staged);
                       total := Z.of_nat (length devices) |},
               {| sessions :=
                    foldl (relocate (user source) (user target))
                      (sessions st) staged;
                  deviceList := deviceList st;
                  ledger :=
                    foldl (fun l move => <[(user source, move.1) := now]> l)
                      (ledger st) staged |})
          end
      end
  | _, _ => (Rejected, st)
  end.

(** A device holds records under both keyspaces. *)
Definition inBothKeyspaces (st : State) (pnUser lidUser : string) (d : Z) : Prop :=
  is_Some (sessions st !! (pnUser, PhoneNumber, d)) /\
  is_Some (sessions st !! (lidUser, LongLivedId, d)).

(** No device of the list that an unexpired ledger entry covers still has
    a record under the phone-number key. *)
Definition ledgerConsistent (now : Z) (st : State) (pnUser : string) : Prop :=
  forall d, d ∈ default [] (deviceList st !! pnUser) ->
    ledgerHolds now st pnUser d = true ->
    sessions st !! (pnUser, PhoneNumber, d) = None.

End Migrator.

(* ===================================================================== *)
(** ** Concrete scenarios, after the test suites                           *)
(* ===================================================================== *)

Module Scenarios.
Import JS KeyStore.

(** *** Activity tracker *)

Definition trackerOn : ActivityTracker.SessionActivityConfig :=
  {| ActivityTracker.flushIntervalMs := 60000; ActivityTracker.enabled := true |}.

Definition trackerOff : ActivityTracker.SessionActivityConfig :=
  {| ActivityTracker.flushIntervalMs := 60000; ActivityTracker.enabled := false |}.

Definition fixedNow : Z := 1700000000000.

(** A tracker that recorded one identity. *)
Definition oneRecorded : ActivityTracker.Tracker :=
  ActivityTracker.recordActivity trackerOn fixedNow
    "5511999999999@s.whatsapp.net" ActivityTracker.makeSessionActivityTracker.

Definition emptyStore : KeyStore.t :=
  {| session := ∅; sessionActivity := ∅ |}.

(** A store that holds an activity record. *)
Definition storeWithActivity : KeyStore.t :=
  {| session := ∅;
     sessionActivity :=
       {[ "session-activity:5511888888888@s.whatsapp.net" :=
            {| lastActivityAt := 1699999000000; createdAt := Some 1699999000000 |} ]} |}.

Definition steadyClock : nat -> Z := fun _ => fixedNow.

(** *** Cleanup *)

Definition cleanupConfig : SessionCleanup.SessionCleanupConfig :=
  {| SessionCleanup.enabled := true;
     SessionCleanup.intervalMs := 86400000;
     SessionCleanup.cleanupHour := 3;
     SessionCleanup.secondaryDeviceInactiveDays := 15;
     SessionCleanup.primaryDeviceInactiveDays := 30;
     SessionCleanup.lidOrphanHours := 24;
     SessionCleanup.cleanupOnStartup := false;
     SessionCleanup.autoCleanCorrupted := false |}.

Definition idle : SessionCleanup.State :=
  {| SessionCleanup.lastCleanupAt := 0; SessionCleanup.cleanupRunning := false |}.

(** One long-lived-id session, ["123456789_2.0"]. *)
Definition lidStore : KeyStore.t :=
  {| session := {[ "123456789_2.0" := "session-data" ]}; sessionActivity := ∅ |}.

(** One phone-number secondary-device session. *)
Definition secondaryStore : KeyStore.t :=
  {| session := {[ "5511999999999_0.1" := "session-data" ]}; sessionActivity := ∅ |}.

(** An environment at [fixedNow]: the reverse mapping answer, the
    tracker's map and the outcome of the transaction. *)
Definition cleanupEnv (pn : option string) (activities : gmap string Z)
    (tx : TxOutcome) : SessionCleanup.Env :=
  {| SessionCleanup.getThrows := false;
     SessionCleanup.getPNForLID := fun _ => Returns pn;
     SessionCleanup.sessionActivityTracker := Some (Returns activities);
     SessionCleanup.txOutcome := tx;
     SessionCleanup.clockStart := fixedNow;
     SessionCleanup.clockAt := fun _ => fixedNow;
     SessionCleanup.clockEnd := fixedNow;
     SessionCleanup.clockDuration := fixedNow |}.

(** A long-lived-id record with a reverse mapping, last active 31 days ago. *)
Definition mappedLidStale : SessionCleanup.Env :=
  cleanupEnv (Some "5511999999999@s.whatsapp.net")
    {[ "123456789@lid" := fixedNow - 31 * SessionCleanup.DAY_MS ]} Commits.

(** An orphan last active exactly 24 hours ago. *)
Definition orphanAtBoundary : SessionCleanup.Env :=
  cleanupEnv None {[ "123456789@lid" := fixedNow - 24 * SessionCleanup.HOUR_MS ]} Commits.

(** An orphan without any activity record. *)
Definition orphanUntracked (tx : TxOutcome) : SessionCleanup.Env :=
  cleanupEnv None ∅ tx.

(** The four sessions of the mixed scenario: an orphan last active 25
    hours ago, a secondary device 16 days ago, a primary device 31 days
    ago and a primary device 5 days ago. *)
Definition mixedStore : KeyStore.t :=
  {| session :=
       {[ "123456789_2.0" := "lid-orphan";
          "5511999999999_0.1" := "secondary-inactive";
          "5511888888888_0.0" := "primary-inactive";
          "5511777777777_0.0" := "primary-active" ]};
     sessionActivity := ∅ |}.

Definition mixedEnv : SessionCleanup.Env :=
  cleanupEnv None
    {[ "123456789@lid" := fixedNow - 25 * SessionCleanup.HOUR_MS;
       "5511999999999:1@s.whatsapp.net" := fixedNow - 16 * SessionCleanup.DAY_MS;
       "5511888888888@s.whatsapp.net" := fixedNow - 31 * SessionCleanup.DAY_MS;
       "5511777777777@s.whatsapp.net" := fixedNow - 5 * SessionCleanup.DAY_MS ]}
    Commits.

(** *** Decryption *)

(** Sample instances of the helpers that the pipeline takes as
    parameters, for the scenarios below. *)
Definition isLidUser (jid : string) : bool := endsWith jid "@lid".
Definition isPnUser (jid : string) : bool := endsWith jid "@s.whatsapp.net".
Definition isHostedLidUser (jid : string) : bool := endsWith jid "@hosted.lid".

Definition jidDecode (jid : string) : option Decrypt.FullJid :=
  match split "@"%char jid with
  | userCombined :: _ :: _ =>
      let parts := split ":"%char userCombined in
      let userAgent := default EmptyString (parts !! 0%nat) in
      Some {| Decrypt.user := default EmptyString (split "_"%char userAgent !! 0%nat);
              Decrypt.device := (parts !! 1%nat) ≫= parseInt;
              Decrypt.server := String.concat "@" (tail (split "@"%char jid)) |}
  | _ => None
  end.

Definition noPadding (bytes : string) : outcome string := Returns bytes.

Definition decodeText (bytes : string) : outcome Decrypt.Decoded :=
  Returns {| Decrypt.fields := {[ "conversation" := bytes ]};
             Decrypt.senderKeyDistributionMessage := None |}.

Definition noVerifiedName (bytes : string)
    : outcome (option (option string)) := Returns None.

(** A repository whose cipher always fails with the given error. *)
Definition failingRepository (e : JsError) : Decrypt.Repository :=
  {| Decrypt.getLIDForPN := fun _ _ => None;
     Decrypt.storeLIDPNMappings := fun _ _ => true;
     Decrypt.migrateSession := fun _ _ => true;
     Decrypt.decryptMessage := fun _ _ _ _ => Throws e;
     Decrypt.decryptGroupMessage := fun _ _ _ _ => Throws e;
     Decrypt.processSenderKeyDistributionMessage := fun _ _ => true;
     Decrypt.deleteSession := fun _ => true |}.

Definition badMac : JsError := {| errName := "Error"; errMessage := "Bad MAC" |}.

Definition noSessionRecord : JsError :=
  {| errName := "SessionError"; errMessage := "No session record" |}.

(** A message that names both a missing record and a bad MAC. *)
Definition noRecordAndBadMac : JsError :=
  {| errName := "Error"; errMessage := "No session record, Bad MAC" |}.

Definition peer : string := "5511999999999@s.whatsapp.net".

Definition encNode : Decrypt.BinaryNode :=
  {| Decrypt.tag := "enc";
     Decrypt.attrs := {[ "type" := "msg" ]};
     Decrypt.content := Decrypt.Binary "ciphertext" |}.

(** One [enc] node of type [msg] from [peer]. *)
Definition oneMessage : Decrypt.Envelope :=
  {| Decrypt.stanzaAttrs := {[ "from" := peer ]};
     Decrypt.stanzaContent := Some [encNode];
     Decrypt.author := peer;
     Decrypt.sender := peer |}.

(** The cipher holds records for the peer's primary device and device 2. *)
Definition heldSessions : gset string :=
  {[ peer; "5511999999999:2@s.whatsapp.net" ]}.

(** [decrypt()] on that message, with a cipher that fails with the given
    error, when [retry] numbers the first attempt as given. *)
Definition decryptWith (firstAttempt : Z) (e : JsError)
    (autoCleanCorrupted : bool) : Decrypt.Ended :=
  Decrypt.decrypt isLidUser isPnUser isHostedLidUser jidDecode noPadding
    decodeText noVerifiedName firstAttempt (failingRepository e) oneMessage
    autoCleanCorrupted heldSessions.

(** The LID stored last for a phone-number address by the given calls. *)
Fixpoint storedLid (made : list Decrypt.RepoCall) (pn : string)
    : option string :=
  match made with
  | [] => None
  | c :: rest =>
      match storedLid rest pn with
      | Some lid => Some lid
      | None =>
          match c with
          | Decrypt.StoreLIDPNMappings lid pn' =>
              if String.eqb pn' pn then Some lid else None
          | _ => None
          end
      end
  end.

(** A repository that answers with the mappings stored so far and whose
    cipher fails with the given error. *)
Definition learningRepository (e : JsError) : Decrypt.Repository :=
  {| Decrypt.getLIDForPN := storedLid;
     Decrypt.storeLIDPNMappings := fun _ _ => true;
     Decrypt.migrateSession := fun _ _ => true;
     Decrypt.decryptMessage := fun _ _ _ _ => Throws e;
     Decrypt.decryptGroupMessage := fun _ _ _ _ => Throws e;
     Decrypt.processSenderKeyDistributionMessage := fun _ _ => true;
     Decrypt.deleteSession := fun _ => true |}.

Definition peerLid : string := "123456789@lid".

(** Two [enc] nodes of type [msg] from [peer], in an envelope that names
    the LID of [peer]. *)
Definition twoMessages : Decrypt.Envelope :=
  {| Decrypt.stanzaAttrs := {[ "from" := peer; "sender_lid" := peerLid ]};
     Decrypt.stanzaContent := Some [encNode; encNode];
     Decrypt.author := peer;
     Decrypt.sender := peer |}.

(** A [verified_name] child whose certificate does not decode. *)
Definition malformedName : Decrypt.BinaryNode :=
  {| Decrypt.tag := "verified_name";
     Decrypt.attrs := ∅;
     Decrypt.content := Decrypt.Binary "garbage" |}.

Definition decodeError : JsError :=
  {| errName := "RangeError"; errMessage := "index out of range" |}.

Definition failingNameDecoder (bytes : string)
    : outcome (option (option string)) := Throws decodeError.

(** *** Migration *)

Definition pnIdentity : Migrator.Identity :=
  {| Migrator.tag := Migrator.PhoneNumber; Migrator.user := "5511900000000";
     Migrator.device := None |}.

Definition lidIdentity : Migrator.Identity :=
  {| Migrator.tag := Migrator.LongLivedId; Migrator.user := "abc123";
     Migrator.device := None |}.

(** Devices 0 and 5 with a record each under the phone-number key, and an
    empty ledger. *)
Definition twoDevices : Migrator.State :=
  {| Migrator.sessions :=
       {[ ("5511900000000", Migrator.PhoneNumber, 0) := "record-0";
          ("5511900000000", Migrator.PhoneNumber, 5) := "record-5" ]};
     Migrator.deviceList := {[ "5511900000000" := [0; 5] ]};
     Migrator.ledger := ∅ |}.

(** Device 0 was migrated one day before [fixedNow]; since then a record
    was established again under the phone-number key. *)
Definition reestablished : Migrator.State :=
  {| Migrator.sessions :=
       {[ ("5511900000000", Migrator.PhoneNumber, 0) := "record-new";
          ("abc123", Migrator.LongLivedId, 0) := "record-0" ]};
     Migrator.deviceList := {[ "5511900000000" := [0] ]};
     Migrator.ledger :=
       {[ ("5511900000000", 0) := fixedNow - SessionCleanup.DAY_MS ]} |}.

End Scenarios.

(* ===================================================================== *)
(** ** Activity tracker: periodic flush (start, stop, getStats)            *)
(* ===================================================================== *)

Module TrackerLifecycle.
Import JS KeyStore ActivityTracker.

(** The tracker with its timer: [flushInterval] holds the period of the
    armed interval timer, or [None] when no timer is armed. *)
Record Running : Type := {
  tracker : Tracker;
  flushInterval : option Z
}.

(** [start()]. The immediate flush is started at once; [clock] and [tx]
    are those of that flush. *)
Definition start (config : SessionActivityConfig) (clock : nat -> Z)
    (tx : TxOutcome) (r : Running) (store : KeyStore.t)
    : Running * KeyStore.t * list Call :=
  if negb (enabled config) then (r, store, [])
  else
    match flushInterval r with
    | Some _ => (r, store, [])
    | None =>
        (* flush immediately on start, then schedule the periodic flush *)
        let '(t', store', calls) := flush config clock tx (tracker r) store in
        ({| tracker := t'; flushInterval := Some (flushIntervalMs config) |},
         store', calls)
    end.

(** One firing of the interval timer. *)
Definition tick (config : SessionActivityConfig) (clock : nat -> Z)
    (tx : TxOutcome) (r : Running) (store : KeyStore.t)
    : Running * KeyStore.t * list Call :=
  match flushInterval r with
  | Some _ =>
      let '(t', store', calls) := flush config clock tx (tracker r) store in
      ({| tracker := t'; flushInterval := flushInterval r |}, store', calls)
  | None => (r, store, [])
  end.

(** [stop()]: the timer is cleared, then a final flush is made. *)
Definition stop (config : SessionActivityConfig) (clock : nat -> Z)
    (tx : TxOutcome) (r : Running) (store : KeyStore.t)
    : Running * KeyStore.t * list Call :=
  let '(t', store', calls) := flush config clock tx (tracker r) store in
  ({| tracker := t'; flushInterval := None |}, store', calls).

(** [getStats()]: [{ enabled: config.enabled, ...stats }]. *)
Definition getStats (config : SessionActivityConfig) (t : Tracker)
    : bool * Stats :=
  (enabled config, stats t).

(** The statistics agree with the buffer. *)
Definition statsCoherent (t : Tracker) : Prop :=
  cacheSize (stats t) = Z.of_nat (size (activityCache t)).

(** What the store holds for an identity, as [getAllActivities] reads it:
    the timestamp under the identity's key when it is not zero. *)
Definition persistedActivity (store : KeyStore.t) (jid : string) : option Z :=
  match sessionActivity store !! activityKey jid with
  | Some metadata =>
      if lastActivityAt metadata =? 0 then None
      else Some (lastActivityAt metadata)
  | None => None
  end.

End TrackerLifecycle.

(* ===================================================================== *)
(** ** Session cleanup before activity tracking (first version of
       Signal/session-cleanup.ts)                                          *)
(* ===================================================================== *)

Module SessionCleanupV1.
Import JS KeyStore SessionCleanup.

(** [shouldCleanupSession(metadata, now)] of the first version: only
    orphans are cleaned, the two device rules wait for activity tracking.
    The configuration is the later one, of which this version reads the
    first six fields. *)
Definition shouldCleanupSession (config : SessionCleanupConfig)
    (metadata : SessionMetadata) (now : Z) : bool * string :=
  (* Rule 1: LID orphans (no PN mapping) after X hours *)
  if isLID metadata && mappingIsFalse metadata then
    (true,
     "LID orphan without PN mapping ("
     +:+ numToString (lidOrphanHours config) +:+ "h threshold)")
  (* Rule 2: secondary devices inactive > X days *)
  else if negb (isPrimary metadata) then
    (false, "Activity tracking not implemented")
  (* Rule 3: primary devices inactive > Y days *)
  else if isPrimary metadata then
    (false, "Activity tracking not implemented")
  else (false, "No cleanup rules matched").

(** One iteration of the scanning loop of the first version. *)
Definition scanStep (config : SessionCleanupConfig) (env : Env)
    (acc : Scan) (signalAddr : string) : Scan :=
  match parseSessionMetadata env signalAddr with
  | None =>
      {| scanStats := addError (scanStats acc);
         sessionsToDelete := sessionsToDelete acc;
         deletionReasons := deletionReasons acc |}
  | Some metadata =>
      let '(cleanup, reason) :=
        shouldCleanupSession config metadata (clockAt env signalAddr) in
      if cleanup then
        {| scanStats := countDeletion metadata (scanStats acc);
           sessionsToDelete := sessionsToDelete acc ++ [signalAddr];
           deletionReasons := <[signalAddr := reason]> (deletionReasons acc) |}
      else acc
  end.

Definition scan (config : SessionCleanupConfig) (env : Env)
    (stats : SessionCleanupStats) (sessionKeys : list string) : Scan :=
  foldl (scanStep config env)
    {| scanStats := stats; sessionsToDelete := []; deletionReasons := ∅ |}
    sessionKeys.

(** [runCleanup()] of the first version. It reads no activity, so
    [sessionActivityTracker] of the environment is not consulted. *)
Definition runCleanup (config : SessionCleanupConfig) (env : Env)
    (st : State) (store : KeyStore.t) : Run :=
  let stats := emptyStats in
  if negb (enabled config) then
    {| runStats := stats; runState := st; runStore := store;
       runCalls := []; runSelected := [] |}
  else if cleanupRunning st then
    {| runStats := stats; runState := st; runStore := store;
       runCalls := []; runSelected := [] |}
  else
    let sessionKeys := getAllSessionKeys env store in
    let getCall := Get "session" [] in
    let scanned := Z.of_nat (length sessionKeys) in
    let sc := scan config env (setTotals stats scanned 0 0) sessionKeys in
    let toDelete := sessionsToDelete sc in
    let finish (s : SessionCleanupStats) (deleted : Z) :=
      setTotals s scanned deleted (clockDuration env - clockStart env) in
    let st' := {| lastCleanupAt := clockEnd env; cleanupRunning := false |} in
    if (0 <? length toDelete)%nat then
      let work := [SetSession (sessionUpdates toDelete)] in
      let txCall := Transaction "session-cleanup" work in
      match KeyStore.transaction (txOutcome env) work store with
      | (store', true) =>
          {| runStats := finish (scanStats sc) (Z.of_nat (length toDelete));
             runState := st'; runStore := store';
             runCalls := [getCall; txCall]; runSelected := toDelete |}
      | (store', false) =>
          {| runStats := finish (addError (scanStats sc)) 0;
             runState := st'; runStore := store';
             runCalls := [getCall; txCall]; runSelected := toDelete |}
      end
    else
      {| runStats := finish (scanStats sc) 0;
         runState := st'; runStore := store;
         runCalls := [getCall]; runSelected := toDelete |}.

(** The environment of a manager built without activity tracker. *)
Definition withoutTracker (env : Env) : Env :=
  {| getThrows := getThrows env;
     getPNForLID := getPNForLID env;
     sessionActivityTracker := None;
     txOutcome := txOutcome env;
     clockStart := clockStart env;
     clockAt := clockAt env;
     clockEnd := clockEnd env;
     clockDuration := clockDuration env |}.

End SessionCleanupV1.

(* ===================================================================== *)
(** ** Histories of tracker operations                                     *)
(* ===================================================================== *)

Module TrackerHistory.
Import JS KeyStore ActivityTracker.

(** A call on the tracker: [recordActivity(jid)] at a reading of the
    clock, or [flush()] with the readings and the outcome of its
    transaction. *)
Inductive Op : Type :=
| DoRecord (now : Z) (jid : string)
| DoFlush (clock : nat -> Z) (tx : TxOutcome).

Definition step (config : SessionActivityConfig)
    (s : Tracker * KeyStore.t) (op : Op) : Tracker * KeyStore.t :=
  match op with
  | DoRecord now jid => (recordActivity config now jid s.1, s.2)
  | DoFlush clock tx => (flush config clock tx s.1 s.2).1
  end.

(** The tracker and the store after a history that starts with a new
    tracker. *)
Definition execute (config : SessionActivityConfig) (store : KeyStore.t)
    (ops : list Op) : Tracker * KeyStore.t :=
  foldl (step config) (makeSessionActivityTracker, store) ops.

Definition isRecord (op : Op) : bool :=
  match op with
  | DoRecord _ _ => true
  | DoFlush _ _ => false
  end.

End TrackerHistory.

(* ===================================================================== *)
(** ** Views of the stanza children and of the repository calls           *)
(* ===================================================================== *)

Module DecryptNodes.
Import JS Decrypt.

(** The children that the node loop counts in [decryptables]: an [enc] or
    [plaintext] node whose content is a byte array. *)
Definition decryptable (node : BinaryNode) : bool :=
  (String.eqb (tag node) "enc" || String.eqb (tag node) "plaintext")
  && match content node with
     | Binary _ => true
     | OtherContent => false
     end.

(** [tag === 'unavailable' && attrs.type === 'view_once'] *)
Definition viewOnceNode (node : BinaryNode) : bool :=
  String.eqb (tag node) "unavailable"
  && bool_decide (attrs node !! "type" = Some "view_once").

Definition isCipherCall (c : RepoCall) : bool :=
  match c with
  | DecryptMessage _ _ _ | DecryptGroupMessage _ _ _ => true
  | _ => false
  end.

Definition isDeleteSession (c : RepoCall) : bool :=
  match c with
  | DeleteSession _ => true
  | _ => false
  end.

(** How many of the calls made on the repository are of a given kind. *)
Definition countCalls (p : RepoCall -> bool) (cs : list RepoCall) : nat :=
  length (List.filter p cs).

(** The message matches neither list of [DECRYPTION_RETRY_CONFIG]. *)
Definition unclassifiedMessage (e : JsError) : Prop :=
  someIncluded (sessionRecordErrors DECRYPTION_RETRY_CONFIG) (errMessage e) = false /\
  someIncluded (corruptedSessionErrors DECRYPTION_RETRY_CONFIG) (errMessage e) = false.

(** The certificate of a [verified_name] child decodes (any other child
    has none to decode). *)
Definition decodesName
    (decodeVerifiedName : string -> outcome (option (option string)))
    (node : BinaryNode) : Prop :=
  match content node with
  | Binary bytes =>
      if String.eqb (tag node) "verified_name"
      then exists v, decodeVerifiedName bytes = Returns v
      else True
  | OtherContent => True
  end.

(** A call on the repository that concerns the author of the envelope:
    made for one of the decryption addresses [chosen] for the author, for
    the author itself, or for the cleanup targets of such an address. *)
Definition concernsAuthor (chosen : string -> Prop)
    (targets : string -> option (list string))
    (env : Envelope) (c : RepoCall) : Prop :=
  match c with
  | StoreLIDPNMappings _ pn => pn = author env
  | MigrateSession fromJid _ => fromJid = author env
  | DecryptMessage j type _ => chosen j /\ (type = "pkmsg" \/ type = "msg")
  | DecryptGroupMessage group authorJid _ =>
      group = sender env /\ authorJid = author env
  | ProcessSenderKeyDistributionMessage authorJid _ => authorJid = author env
  | DeleteSession jids => exists j, chosen j /\ targets j = Some jids
  end.

End DecryptNodes.

(* ===================================================================== *)
(** ** Decoding the envelope of a message (decode-wa-message.ts)          *)
(* ===================================================================== *)

Module DecodeNode.
Import JS.

Inductive MessageType : Type :=
| Chat | PeerBroadcast | OtherBroadcast | Group
| DirectPeerStatus | OtherStatus | Newsletter.

Record WAMessageKey : Type := {
  remoteJid : string;
  remoteJidAlt : option string;
  fromMe : bool;
  id : option string;
  participant : option string;
  participantAlt : option string;
  addressingMode : string;
  server_id : option string
}.

Inductive Status : Type := SERVER_ACK.

(** The message that [decodeMessageNode] builds. [messageTimestampAttr]
    holds the attribute [t] whose numeric value is [messageTimestamp]
    (0 when it is absent). *)
Record WAMessage : Type := {
  key : WAMessageKey;
  category : option string;
  messageTimestampAttr : option string;
  pushName : option string;
  broadcast : bool;
  status : option Status
}.

Record DecodedNode : Type := {
  fullMessage : WAMessage;
  author : string;
  sender : string
}.

(** [new Boom(message)] *)
Definition boom (message : string) : JsError :=
  {| errName := "Error"; errMessage := message |}.

Section Decode.

(** Address predicates of [../WABinary], which are not part of these
    sources. *)
Variable isPnUser : string -> bool.
Variable isLidUser : string -> bool.
Variable isHostedLidUser : string -> bool.
Variable isHostedPnUser : string -> bool.
Variable isJidGroup : string -> bool.
Variable isJidBroadcast : string -> bool.
Variable isJidStatusBroadcast : string -> bool.
Variable isJidNewsletter : string -> bool.
Variable isJidMetaAI : string -> bool.
Variable areJidsSameUser : string -> string -> bool.

(** The first part of [decodeMessageNode]: the type of the message, the
    chat, the author and [fromMe], or the error thrown. *)
Definition classify (stanzaAttrs : gmap string string) (meId meLid : string)
    : outcome (MessageType * string * string * bool) :=
  let from := stanzaAttrs !! "from" in
  if negb (truthyStr from) then
    Throws (boom "Missing from attribute in message")
  else
    let from := default EmptyString from in
    let participant := stanzaAttrs !! "participant" in
    let recipient := stanzaAttrs !! "recipient" in
    let isMe := fun jid => areJidsSameUser jid meId in
    let isMeLid := fun jid => areJidsSameUser jid meLid in
    if isPnUser from || isLidUser from || isHostedLidUser from
       || isHostedPnUser from then
      if truthyStr recipient
         && negb (isJidMetaAI (default EmptyString recipient)) then
        if negb (isMe from) && negb (isMeLid from) then
          Throws (boom "receipient present, but msg not from me")
        else
          Returns (Chat, default EmptyString recipient, from,
                   isMe from || isMeLid from)
      else Returns (Chat, from, from, false)
    else if isJidGroup from then
      if negb (truthyStr participant) then
        Throws (boom "No participant in group message")
      else
        let participant := default EmptyString participant in
        Returns (Group, from, participant,
                 isMe participant || isMeLid participant)
    else if isJidBroadcast from then
      if negb (truthyStr participant) then
        Throws (boom "No participant in group message")
      else
        let participant := default EmptyString participant in
        let isParticipantMe := isMe participant in
        let msgType :=
          if isJidStatusBroadcast from
          then (if isParticipantMe then DirectPeerStatus else OtherStatus)
          else (if isParticipantMe then PeerBroadcast else OtherBroadcast) in
        Returns (msgType, from, participant, isParticipantMe)
    else if isJidNewsletter from then
      Returns (Newsletter, from, from, isMe from || isMeLid from)
    else Throws (boom "Unknown message type").

Definition isChat (t : MessageType) : bool :=
  match t with
  | Chat => true
  | _ => false
  end.

Definition isNewsletter (t : MessageType) : bool :=
  match t with
  | Newsletter => true
  | _ => false
  end.

(** [decodeMessageNode(stanza, meId, meLid)] *)
Definition decodeMessageNode (stanzaAttrs : gmap string string)
    (meId meLid : string) : outcome DecodedNode :=
  match classify stanzaAttrs meId meLid with
  | Throws e => Throws e
  | Returns (msgType, chatId, author, fromMe) =>
      let '(addressingMode, senderAlt, _) :=
        Decrypt.extractAddressingContext stanzaAttrs in
      let key :=
        {| remoteJid := chatId;
           remoteJidAlt := if negb (isJidGroup chatId) then senderAlt else None;
           fromMe := fromMe;
           id := stanzaAttrs !! "id";
           participant := stanzaAttrs !! "participant";
           participantAlt := if isJidGroup chatId then senderAlt else None;
           addressingMode := addressingMode;
           server_id :=
             if isNewsletter msgType && truthyStr (stanzaAttrs !! "server_id")
             then stanzaAttrs !! "server_id" else None |} in
      Returns
        {| fullMessage :=
             {| key := key;
                category := stanzaAttrs !! "category";
                messageTimestampAttr := stanzaAttrs !! "t";
                pushName := stanzaAttrs !! "notify";
                broadcast :=
                  isJidBroadcast (default EmptyString (stanzaAttrs !! "from"));
                status := if fromMe then Some SERVER_ACK else None |};
           author := author;
           sender := if isChat msgType then author else chatId |}
  end.

(** What [decryptMessageNode] hands to its [decrypt()]: the stanza, with
    the author and the sender that [decodeMessageNode] returned. *)
Definition envelope (stanzaAttrs : gmap string string)
    (stanzaContent : option (list Decrypt.BinaryNode)) (d : DecodedNode)
    : Decrypt.Envelope :=
  {| Decrypt.stanzaAttrs := stanzaAttrs;
     Decrypt.stanzaContent := stanzaContent;
     Decrypt.author := author d;
     Decrypt.sender := sender d |}.

End Decode.

(** Sample address predicates, by the suffix of the address. *)
Definition sampleIsPnUser (jid : string) : bool := endsWith jid "@s.whatsapp.net".
Definition sampleIsLidUser (jid : string) : bool := endsWith jid "@lid".
Definition sampleIsHostedLidUser (jid : string) : bool := endsWith jid "@hosted.lid".
Definition sampleIsHostedPnUser (jid : string) : bool := endsWith jid "@hosted".
Definition sampleIsJidGroup (jid : string) : bool := endsWith jid "@g.us".
Definition sampleIsJidBroadcast (jid : string) : bool := endsWith jid "@broadcast".
Definition sampleIsJidStatusBroadcast (jid : string) : bool :=
  String.eqb jid "status@broadcast".
Definition sampleIsJidNewsletter (jid : string) : bool := endsWith jid "@newsletter".
Definition sampleIsJidMetaAI (jid : string) : bool := endsWith jid "@bot".
Definition sampleAreJidsSameUser (a b : string) : bool :=
  String.eqb (default EmptyString (split "@"%char a !! 0%nat))
             (default EmptyString (split "@"%char b !! 0%nat)).

Definition sampleDecode (stanzaAttrs : gmap string string) : outcome DecodedNode :=
  decodeMessageNode sampleIsPnUser sampleIsLidUser sampleIsHostedLidUser
    sampleIsHostedPnUser sampleIsJidGroup sampleIsJidBroadcast
    sampleIsJidStatusBroadcast sampleIsJidNewsletter sampleIsJidMetaAI
    sampleAreJidsSameUser stanzaAttrs "5511888888888@s.whatsapp.net"
    "987654321@lid".

(** A message in a group, from a participant other than the user. *)
Definition groupStanza : gmap string string :=
  {[ "from" := "120363000000000000@g.us";
     "participant" := "5511999999999@s.whatsapp.net";
     "participant_lid" := "123456789@lid";
     "id" := "3EB0" ]}.

(** A message to a chat of the user's, sent from another device of the
    user. *)
Definition ownStanza : gmap string string :=
  {[ "from" := "5511888888888@s.whatsapp.net";
     "recipient" := "5511999999999@s.whatsapp.net";
     "id" := "3EB1" ]}.

End DecodeNode.

(* ===================================================================== *)
(** ** Trusted-contact tokens: the rolling window (tc-token-utils.ts)     *)
(* ===================================================================== *)

Module TcToken.

(** A number, as far as these functions tell numbers apart: NaN or a
    value. Timestamps are seconds; values are taken integral. *)
Inductive JsNumber : Type :=
| NaN
| Num (z : Z).

(** [number | string | null | undefined] *)
Inductive TimestampArg : Type :=
| Missing
| Numeric (n : JsNumber)
| Text (s : string).

(** 7 days in seconds. *)
Definition TC_TOKEN_BUCKET_DURATION : Z := 604800.
(** 4 buckets: a rolling window of about 28 days. *)
Definition TC_TOKEN_NUM_BUCKETS : Z := 4.

Section WithNumber.

(** [Number(s)] on strings. *)
Variable Number : string -> JsNumber.

(** [isTcTokenExpired(timestamp)], at the reading [dateNow] of
    [Date.now()]. *)
Definition isTcTokenExpired (dateNow : Z) (timestamp : TimestampArg) : bool :=
  match timestamp with
  | Missing => true
  | _ =>
      let ts :=
        match timestamp with
        | Text s => Number s
        | Numeric n => n
        | Missing => NaN
        end in
      match ts with
      | NaN => true
      | Num ts =>
          let now := dateNow / 1000 in
          let currentBucket := now / TC_TOKEN_BUCKET_DURATION in
          let cutoffBucket := currentBucket - (TC_TOKEN_NUM_BUCKETS - 1) in
          let cutoffTimestamp := cutoffBucket * TC_TOKEN_BUCKET_DURATION in
          ts <? cutoffTimestamp
      end
  end.

End WithNumber.

(** [shouldSendNewTcToken(senderTimestamp)], at the reading [dateNow] of
    [Date.now()]. A comparison with NaN is false. *)
Definition shouldSendNewTcToken (dateNow : Z) (senderTimestamp : option JsNumber)
    : bool :=
  match senderTimestamp with
  | None => true
  | Some NaN => false
  | Some (Num senderTimestamp) =>
      let now := dateNow / 1000 in
      let currentBucket := now / TC_TOKEN_BUCKET_DURATION in
      let senderBucket := senderTimestamp / TC_TOKEN_BUCKET_DURATION in
      senderBucket <? currentBucket
  end.

End TcToken.

(* ===================================================================== *)
(** ** Session cleanup: the scheduler (start, stop)                        *)
(* ===================================================================== *)

Module CleanupScheduler.
Import SessionCleanup.

(** A timer armed in the event loop. *)
Inductive Timer : Type :=
| Timeout (delay : Z)
| Interval (period : Z).

(** The scheduling variables of the [makeSessionCleanup] closure, with the
    timers armed in the event loop (by handle), the number of timeout
    callbacks that have set [initialTimeout] to null and are awaiting their
    cleanup, and the number of cleanup runs requested so far. *)
Record Scheduler : Type := {
  cleanupInterval : option nat;
  initialTimeout : option nat;
  armed : gmap nat Timer;
  nextHandle : nat;
  awaiting : nat;
  runs : nat
}.

Definition fresh : Scheduler :=
  {| cleanupInterval := None; initialTimeout := None; armed := ∅;
     nextHandle := 0; awaiting := 0; runs := 0 |}.

(** [start()], where [msUntilFirst] is what [msUntilNextCleanup()]
    returns. *)
Definition start (config : SessionCleanupConfig) (msUntilFirst : Z)
    (s : Scheduler) : Scheduler :=
  if negb (enabled config) then s
  else
    match cleanupInterval s with
    | Some _ => s
    | None =>
        (* run immediate cleanup on startup if enabled *)
        let runs' := if cleanupOnStartup config then S (runs s) else runs s in
        (* schedule first cleanup at configured hour *)
        let h := nextHandle s in
        {| cleanupInterval := cleanupInterval s;
           initialTimeout := Some h;
           armed := <[h := Timeout msUntilFirst]> (armed s);
           nextHandle := S h;
           awaiting := awaiting s;
           runs := runs' |}
    end.

(** [stop()] *)
Definition stop (s : Scheduler) : Scheduler :=
  let s :=
    match initialTimeout s with
    | Some h =>
        {| cleanupInterval := cleanupInterval s;
           initialTimeout := None;
           armed := delete h (armed s);
           nextHandle := nextHandle s;
           awaiting := awaiting s;
           runs := runs s |}
    | None => s
    end in
  match cleanupInterval s with
  | Some h =>
      {| cleanupInterval := None;
         initialTimeout := initialTimeout s;
         armed := delete h (armed s);
         nextHandle := nextHandle s;
         awaiting := awaiting s;
         runs := runs s |}
  | None => s
  end.

(** The event loop fires the timer with handle [h]. A timeout is spent;
    its callback clears [initialTimeout] and then awaits the startup
    cleanup and its own cleanup. An interval requests one more run. *)
Definition fire (h : nat) (s : Scheduler) : Scheduler :=
  match armed s !! h with
  | Some (Timeout _) =>
      {| cleanupInterval := cleanupInterval s;
         initialTimeout := None;
         armed := delete h (armed s);
         nextHandle := nextHandle s;
         awaiting := S (awaiting s);
         runs := runs s |}
  | Some (Interval _) =>
      {| cleanupInterval := cleanupInterval s;
         initialTimeout := initialTimeout s;
         armed := armed s;
         nextHandle := nextHandle s;
         awaiting := awaiting s;
         runs := S (runs s) |}
  | None => s
  end.

(** The rest of a timeout callback, once its cleanup has run: the
    recurring interval is armed. *)
Definition firstCleanupDone (config : SessionCleanupConfig) (s : Scheduler)
    : Scheduler :=
  match awaiting s with
  | O => s
  | S n =>
      let h := nextHandle s in
      {| cleanupInterval := Some h;
         initialTimeout := initialTimeout s;
         armed := <[h := Interval (intervalMs config)]> (armed s);
         nextHandle := S h;
         awaiting := n;
         runs := S (runs s) |}
  end.

(** [start()] called once for each of the given delays. *)
Definition startAll (config : SessionCleanupConfig) (delays : list Z)
    (s : Scheduler) : Scheduler :=
  foldl (fun s d => start config d s) s delays.

End CleanupScheduler.

(* ===================================================================== *)
(** * Properties                                                           *)
(* ===================================================================== *)

(** ** The keyed store *)

Module KeyStoreFacts.
Import KeyStore.

Lemma lookup_applyUpdates {V : Type} (u : gmap string (option V))
    (m : gmap string V) (k : string) :
  applyUpdates u m !! k =
  match u !! k with
  | Some w => w
  | None => m !! k
  end.
Proof.
  unfold applyUpdates. rewrite lookup_merge.
  destruct (u !! k) as [w|], (m !! k); reflexivity.
Qed.

(** An aborted transaction leaves the store as it was, whatever the work. *)
Lemma transaction_aborts work s : transaction Aborts work s = (s, false).
Proof. reflexivity. Qed.

Lemma transaction_commits_one c s :
  transaction Commits [c] s = (applySet c s, true).
Proof. reflexivity. Qed.

End KeyStoreFacts.

(** ** The activity tracker *)

Module TrackerFacts.
Import JS KeyStore ActivityTracker KeyStoreFacts.

#[local] Instance activityKey_inj : Inj (=) (=) activityKey.
Proof. unfold activityKey. apply _. Qed.

Lemma coherent_initial : coherent makeSessionActivityTracker.
Proof. intros H. exfalso. apply H. reflexivity. Qed.

Lemma coherent_recordActivity config now jid t :
  coherent t -> coherent (recordActivity config now jid t).
Proof.
  unfold recordActivity. destruct (enabled config); simpl; [|done].
  intros _ _. reflexivity.
Qed.

Lemma coherent_flush config clock tx t store :
  coherent t -> coherent (flush config clock tx t store).1.1.
Proof.
  intros Hc. unfold flush.
  destruct (negb (enabled config) || negb (isDirty t)
            || (size (activityCache t) =? 0)%nat); simpl; [done|].
  destruct tx; simpl; [|done].
  intros H. exfalso. apply H. reflexivity.
Qed.

Lemma lookup_flushUpdates cache jid :
  flushUpdates cache !! activityKey jid =
  (fun ts => Some {| lastActivityAt := ts; createdAt := Some ts |})
    <$> cache !! jid.
Proof.
  unfold flushUpdates. rewrite lookup_kmap; [|apply _].
  rewrite lookup_fmap. reflexivity.
Qed.

Lemma lookup_flushUpdates_other cache k :
  (forall jid, is_Some (cache !! jid) -> k ≠ activityKey jid) ->
  flushUpdates cache !! k = None.
Proof.
  intros Hk. unfold flushUpdates. apply lookup_kmap_None; [apply _|].
  intros jid ->. rewrite lookup_fmap.
  destruct (cache !! jid) eqn:E; [|reflexivity].
  exfalso. apply (Hk jid); [rewrite E; eauto | reflexivity].
Qed.

(** The guard of [flush] under an enabled configuration. *)
Lemma flush_guard config t :
  enabled config = true -> coherent t ->
  (negb (enabled config) || negb (isDirty t)
   || (size (activityCache t) =? 0)%nat)
  = bool_decide (activityCache t = ∅).
Proof.
  intros -> Hc. simpl.
  case_bool_decide as He.
  - rewrite He, map_size_empty. apply orb_true_r.
  - rewrite (Hc He). simpl.
    apply Nat.eqb_neq. by apply map_size_non_empty_iff.
Qed.

(** C7: under an enabled configuration, a flush whose transaction commits
    writes every buffered identity-to-timestamp entry to the store, in at
    most one transaction holding one [set], touches nothing else and
    leaves the buffer empty; a flush whose transaction fails leaves the
    tracker (buffer and dirty flag) and the store exactly as they were. *)
Theorem flush_writes_whole_buffer_or_keeps_it
    (config : SessionActivityConfig) (clock : nat -> Z)
    (t : Tracker) (store : KeyStore.t) :
  enabled config = true ->
  coherent t ->
  (let r := flush config clock Commits t store in
   activityCache r.1.1 = ∅ /\
   (forall jid ts, activityCache t !! jid = Some ts ->
      sessionActivity r.1.2 !! activityKey jid
      = Some {| lastActivityAt := ts; createdAt := Some ts |}) /\
   (forall k, (forall jid, is_Some (activityCache t !! jid) -> k ≠ activityKey jid) ->
      sessionActivity r.1.2 !! k = sessionActivity store !! k) /\
   session r.1.2 = session store /\
   r.2 = if bool_decide (activityCache t = ∅) then []
         else [Transaction "session-activity-flush"
                 [SetSessionActivity (flushUpdates (activityCache t))]])
  /\
  (let r := flush config clock Aborts t store in
   r.1.1 = t /\ r.1.2 = store /\
   r.2 = if bool_decide (activityCache t = ∅) then []
         else [Transaction "session-activity-flush"
                 [SetSessionActivity (flushUpdates (activityCache t))]]).
Proof.
  intros Hen Hc. unfold flush. rewrite (flush_guard _ _ Hen Hc).
  case_bool_decide as He; simpl.
  - rewrite He. repeat split; try reflexivity.
    intros jid ts H. by rewrite lookup_empty in H.
  - repeat split; try reflexivity.
    + intros jid ts H. rewrite lookup_applyUpdates, lookup_flushUpdates, H.
      reflexivity.
    + intros k Hk. rewrite lookup_applyUpdates, lookup_flushUpdates_other; done.
Qed.

(** C7 at a tracker that recorded one identity: the commit empties the
    buffer and stores the entry, the abort keeps the tracker. *)
Lemma flush_writes_whole_buffer_or_keeps_it_witness :
  let committed := flush Scenarios.trackerOn Scenarios.steadyClock Commits
                     Scenarios.oneRecorded Scenarios.emptyStore in
  let aborted := flush Scenarios.trackerOn Scenarios.steadyClock Aborts
                   Scenarios.oneRecorded Scenarios.emptyStore in
  activityCache committed.1.1 = ∅ /\
  sessionActivity committed.1.2
    !! activityKey "5511999999999@s.whatsapp.net"
  = Some {| lastActivityAt := Scenarios.fixedNow;
            createdAt := Some Scenarios.fixedNow |} /\
  aborted.1.1 = Scenarios.oneRecorded /\
  aborted.1.2 = Scenarios.emptyStore.
Proof.
  intros committed aborted.
  destruct (flush_writes_whole_buffer_or_keeps_it
              Scenarios.trackerOn Scenarios.steadyClock
              Scenarios.oneRecorded Scenarios.emptyStore
              eq_refl (fun _ => eq_refl))
    as [(Hclear & Hwritten & _) (Hkept & Hstore & _)].
  split; [exact Hclear|].
  split; [apply Hwritten; reflexivity|].
  split; [exact Hkept | exact Hstore].
Defined.

(** C10: a tracker configured disabled does nothing at its interface:
    recording leaves the tracker as it is, both reads answer "nothing"
    without consulting the store (whatever it holds), and a flush writes
    nothing. *)
Theorem disabled_tracker_is_inert (config : SessionActivityConfig) :
  enabled config = false ->
  forall (now : Z) (jid : string) (t : Tracker) (disk : outcome KeyStore.t)
         (clock : nat -> Z) (tx : TxOutcome) (store : KeyStore.t),
    recordActivity config now jid t = t /\
    getLastActivity config jid t disk = (None, []) /\
    getAllActivities config t disk = (∅, []) /\
    flush config clock tx t store = (t, store, []).
Proof.
  intros Hoff now jid t disk clock tx store.
  unfold recordActivity, getLastActivity, getAllActivities, flush.
  rewrite Hoff. simpl. repeat split.
Qed.

(** C10 at a disabled tracker in front of a store that holds an activity
    record. *)
Lemma disabled_tracker_is_inert_witness :
  ActivityTracker.enabled Scenarios.trackerOff = false /\
  recordActivity Scenarios.trackerOff Scenarios.fixedNow
    "5511888888888@s.whatsapp.net" makeSessionActivityTracker
  = makeSessionActivityTracker /\
  getLastActivity Scenarios.trackerOff "5511888888888@s.whatsapp.net"
    makeSessionActivityTracker (Returns Scenarios.storeWithActivity)
  = (None, []) /\
  getAllActivities Scenarios.trackerOff makeSessionActivityTracker
    (Returns Scenarios.storeWithActivity)
  = (∅, []) /\
  flush Scenarios.trackerOff Scenarios.steadyClock Commits
    Scenarios.oneRecorded Scenarios.storeWithActivity
  = (Scenarios.oneRecorded, Scenarios.storeWithActivity, []).
Proof.
  split; [reflexivity|].
  destruct (disabled_tracker_is_inert Scenarios.trackerOff eq_refl
              Scenarios.fixedNow "5511888888888@s.whatsapp.net"
              makeSessionActivityTracker
              (Returns Scenarios.storeWithActivity)
              Scenarios.steadyClock Commits Scenarios.storeWithActivity)
    as (Hrec & Hlast & Hall & _).
  destruct (disabled_tracker_is_inert Scenarios.trackerOff eq_refl
              Scenarios.fixedNow "5511888888888@s.whatsapp.net"
              Scenarios.oneRecorded
              (Returns Scenarios.storeWithActivity)
              Scenarios.steadyClock Commits Scenarios.storeWithActivity)
    as (_ & _ & _ & Hflush).
  split; [exact Hrec|]. split; [exact Hlast|].
  split; [exact Hall | exact Hflush].
Defined.

(** The merged view of the test suite: the buffer wins over the store,
    and a failed read of the store yields the empty map. *)
Example getAllActivities_buffer_wins :
  let disk := {| session := ∅;
                 sessionActivity :=
                   {[ "session-activity:5511999999999@s.whatsapp.net" :=
                        {| lastActivityAt := Scenarios.fixedNow - 10000;
                           createdAt := Some (Scenarios.fixedNow - 10000) |};
                      "session-activity:5511888888888@s.whatsapp.net" :=
                        {| lastActivityAt := Scenarios.fixedNow - 5000;
                           createdAt := Some (Scenarios.fixedNow - 15000) |} ]} |} in
  let merged := (getAllActivities Scenarios.trackerOn Scenarios.oneRecorded
                   (Returns disk)).1 in
  merged !! "5511999999999@s.whatsapp.net" = Some Scenarios.fixedNow /\
  merged !! "5511888888888@s.whatsapp.net" = Some (Scenarios.fixedNow - 5000) /\
  size merged = 2%nat /\
  (getAllActivities Scenarios.trackerOn Scenarios.oneRecorded
     (Throws {| errName := "Error"; errMessage := "Disk read error" |})).1 = ∅.
Proof. repeat split; vm_compute; reflexivity. Qed.

End TrackerFacts.

(** ** The cleanup scheduler *)

Module CleanupFacts.
Import JS KeyStore SessionCleanup KeyStoreFacts.

(** *** The retention decision *)

Lemma truthyNum_Some t : t ≠ 0 -> truthyNum (Some t) = true.
Proof. intros H. simpl. apply negb_true_iff, Z.eqb_neq, H. Qed.

Lemma truthyNum_true n : truthyNum n = true -> exists t, n = Some t /\ t ≠ 0.
Proof.
  destruct n as [t|]; simpl; [|discriminate].
  intros H. exists t. split; [reflexivity|].
  apply Z.eqb_neq, negb_true_iff, H.
Qed.

(** With a tracked timestamp the decision is the strict comparison of the
    inactive duration with the tier's threshold. *)
Lemma decision_tracked config m now t :
  lastActivityMs m = Some t -> t ≠ 0 ->
  (shouldCleanupSession config m now).1
  = (tierThresholdMs config (tierOf m) <? now - t).
Proof.
  intros Ht Hnz.
  assert (Htr : truthyNum (lastActivityMs m) = true)
    by (rewrite Ht; by apply truthyNum_Some).
  unfold shouldCleanupSession, tierOf, tierThresholdMs, HOUR_MS, DAY_MS.
  rewrite Htr, Ht. simpl.
  replace (lidOrphanHours config * 60 * 60 * 1000)
    with (lidOrphanHours config * (60 * 60 * 1000)) by lia.
  replace (secondaryDeviceInactiveDays config * 24 * 60 * 60 * 1000)
    with (secondaryDeviceInactiveDays config * (24 * 60 * 60 * 1000)) by lia.
  replace (primaryDeviceInactiveDays config * 24 * 60 * 60 * 1000)
    with (primaryDeviceInactiveDays config * (24 * 60 * 60 * 1000)) by lia.
  destruct (isLID m && mappingIsFalse m), (isPrimary m); simpl;
    match goal with
    | |- context [?a <? ?b] => destruct (a <? b); reflexivity
    end.
Qed.

(** Without a tracked timestamp only the orphan rule selects. *)
Lemma decision_untracked config m now :
  truthyNum (lastActivityMs m) = false ->
  (shouldCleanupSession config m now).1 = isLID m && mappingIsFalse m.
Proof.
  intros Hun. unfold shouldCleanupSession. rewrite Hun.
  destruct (isLID m && mappingIsFalse m), (isPrimary m); reflexivity.
Qed.

(** *** The scanning loop *)

Lemma deletedSum_countDeletion m s :
  deletedSum (countDeletion m s) = deletedSum s + 1.
Proof.
  unfold countDeletion, deletedSum.
  destruct (isLID m && mappingIsFalsy m), (negb (isPrimary m)); simpl; lia.
Qed.

Lemma scanStep_selected config env am acc k :
  sessionsToDelete (scanStep config env am acc k)
  = (sessionsToDelete acc ++ if selects config env am k then [k] else [])%list.
Proof.
  unfold scanStep, selects.
  destruct (parseSessionMetadata env k) as [p|]; simpl.
  - destruct (shouldCleanupSession config (withActivity am p) (clockAt env k))
      as [[] reason]; simpl; [reflexivity | by rewrite app_nil_r].
  - by rewrite app_nil_r.
Qed.

Lemma scanStep_deletedSum config env am acc k :
  deletedSum (scanStats (scanStep config env am acc k))
  = deletedSum (scanStats acc) + if selects config env am k then 1 else 0.
Proof.
  unfold scanStep, selects.
  destruct (parseSessionMetadata env k) as [p|]; simpl.
  - destruct (shouldCleanupSession config (withActivity am p) (clockAt env k))
      as [[] reason]; simpl; [apply deletedSum_countDeletion | lia].
  - unfold deletedSum. simpl. lia.
Qed.

Lemma scanStep_errors config env am acc k :
  errors (scanStats (scanStep config env am acc k))
  = errors (scanStats acc)
    + match parseSessionMetadata env k with Some _ => 0 | None => 1 end.
Proof.
  unfold scanStep.
  destruct (parseSessionMetadata env k) as [p|]; simpl; [|reflexivity].
  destruct (shouldCleanupSession config (withActivity am p) (clockAt env k))
    as [[] reason]; simpl; [|lia].
  unfold countDeletion.
  destruct (isLID (withActivity am p) && mappingIsFalsy (withActivity am p)),
    (negb (isPrimary (withActivity am p))); simpl; lia.
Qed.

(** The keys marked by the loop are the scanned keys the decision
    selects, in scan order. *)
Lemma scan_fold_selected config env am keys acc :
  sessionsToDelete (foldl (scanStep config env am) acc keys)
  = (sessionsToDelete acc
     ++ filter (fun k => selects config env am k = true) keys)%list.
Proof.
  revert acc. induction keys as [|k keys IH]; intros acc; simpl.
  - by rewrite app_nil_r.
  - rewrite IH, scanStep_selected, <- app_assoc. f_equal.
    destruct (selects config env am k) eqn:E.
    + by rewrite filter_cons_True.
    + rewrite filter_cons_False; [reflexivity | by rewrite E].
Qed.

Lemma scan_fold_deletedSum config env am keys acc :
  deletedSum (scanStats (foldl (scanStep config env am) acc keys))
  = deletedSum (scanStats acc)
    + Z.of_nat (length (filter (fun k => selects config env am k = true) keys)).
Proof.
  revert acc. induction keys as [|k keys IH]; intros acc; simpl.
  - lia.
  - rewrite IH, scanStep_deletedSum.
    destruct (selects config env am k) eqn:E.
    + rewrite filter_cons_True by done. simpl length. lia.
    + rewrite filter_cons_False by (by rewrite E). lia.
Qed.

Lemma scan_fold_errors config env am keys acc :
  errors (scanStats acc)
  <= errors (scanStats (foldl (scanStep config env am) acc keys)).
Proof.
  revert acc. induction keys as [|k keys IH]; intros acc; simpl; [lia|].
  etransitivity; [|apply IH]. rewrite scanStep_errors.
  destruct (parseSessionMetadata env k); lia.
Qed.

Lemma scan_selected config env am stats keys :
  sessionsToDelete (scan config env am stats keys)
  = filter (fun k => selects config env am k = true) keys.
Proof. unfold scan. by rewrite scan_fold_selected. Qed.

Lemma scan_deletedSum config env am stats keys :
  deletedSum (scanStats (scan config env am stats keys))
  = deletedSum stats
    + Z.of_nat (length (sessionsToDelete (scan config env am stats keys))).
Proof. rewrite scan_selected. unfold scan. by rewrite scan_fold_deletedSum. Qed.

(** *** One run *)

Lemma lookup_sessionUpdates_fold (l : list string)
    (acc : gmap string (option string)) (k : string) :
  foldl (fun a addr => <[addr := None]> a) acc l !! k
  = if bool_decide (k ∈ l) then Some None else acc !! k.
Proof.
  revert acc. induction l as [|x l IH]; intros acc; cbn [foldl].
  - rewrite bool_decide_eq_false_2; [reflexivity | apply not_elem_of_nil].
  - rewrite IH. destruct (decide (k = x)) as [->|Hne].
    + rewrite lookup_insert_eq.
      rewrite (bool_decide_eq_true_2 (x ∈ x :: l)) by (apply elem_of_cons; by left).
      by case_bool_decide.
    + rewrite lookup_insert_ne by done.
      case_bool_decide as H1; case_bool_decide as H2; try reflexivity.
      * exfalso. apply H2. apply elem_of_cons. by right.
      * exfalso. apply elem_of_cons in H2 as [?|?]; done.
Qed.

Lemma lookup_sessionUpdates l k :
  sessionUpdates l !! k = if bool_decide (k ∈ l) then Some None else None.
Proof. unfold sessionUpdates. by rewrite lookup_sessionUpdates_fold, lookup_empty. Qed.

Lemma elem_of_getAllSessionKeys env store k :
  k ∈ getAllSessionKeys env store
  <-> getThrows env = false /\ is_Some (session store !! k).
Proof.
  unfold getAllSessionKeys. destruct (getThrows env); simpl.
  - split; [intros H; by apply elem_of_nil in H | intros [? _]; discriminate].
  - unfold KeyStore.get. rewrite list_elem_of_fmap. split.
    + intros [[k' v] [-> Hin]]. apply elem_of_map_to_list in Hin.
      simpl. split; [reflexivity | rewrite Hin; eauto].
    + intros [_ [v Hv]]. exists (k, v). split; [reflexivity|].
      by apply elem_of_map_to_list.
Qed.

(** The keys a run selects. *)
Lemma runSelected_eq config env st store :
  runSelected (runCleanup config env st store)
  = if enabled config && negb (cleanupRunning st) then
      match loadActivities env with
      | Returns am =>
          filter (fun k => selects config env am k = true)
            (getAllSessionKeys env store)
      | Throws _ => []
      end
    else [].
Proof.
  unfold runCleanup.
  destruct (enabled config); simpl; [|reflexivity].
  destruct (cleanupRunning st); simpl; [reflexivity|].
  destruct (loadActivities env) as [am|e]; simpl; [|reflexivity].
  rewrite <- (scan_selected config env am
                (setTotals emptyStats
                   (Z.of_nat (length (getAllSessionKeys env store))) 0 0)).
  destruct (0 <? length _)%nat; simpl; [|reflexivity].
  destruct (txOutcome env); reflexivity.
Qed.

(** A selected key was scanned and the decision selected it. *)
Lemma runSelected_inv config env st store k :
  k ∈ runSelected (runCleanup config env st store) ->
  exists am, loadActivities env = Returns am /\
             is_Some (session store !! k) /\
             selects config env am k = true.
Proof.
  rewrite runSelected_eq.
  destruct (enabled config && negb (cleanupRunning st));
    [|intros H; by apply elem_of_nil in H].
  destruct (loadActivities env) as [am|e];
    [|intros H; by apply elem_of_nil in H].
  intros [Hsel Hin]%list_elem_of_filter.
  apply elem_of_getAllSessionKeys in Hin as [_ Hin]. eauto.
Qed.

(** In an enabled, idle run whose reads return, the selected keys are the
    stored keys the decision selects. *)
Lemma runSelected_iff config env st store am k :
  enabled config = true -> cleanupRunning st = false ->
  getThrows env = false -> loadActivities env = Returns am ->
  k ∈ runSelected (runCleanup config env st store)
  <-> is_Some (session store !! k) /\ selects config env am k = true.
Proof.
  intros Hen Hidle Hget Hact.
  rewrite runSelected_eq, Hen, Hidle, Hact. simpl.
  rewrite list_elem_of_filter, elem_of_getAllSessionKeys. tauto.
Qed.

(** The store after a run: the selected keys are gone when the
    transaction committed, everything else is as before. *)
Lemma runStore_session config env st store k :
  let r := runCleanup config env st store in
  session (runStore r) !! k
  = match txOutcome env with
    | Commits =>
        if bool_decide (k ∈ runSelected r) then None else session store !! k
    | Aborts => session store !! k
    end.
Proof.
  unfold runCleanup.
  destruct (enabled config); simpl;
    [|destruct (txOutcome env); reflexivity].
  destruct (cleanupRunning st); simpl;
    [destruct (txOutcome env); reflexivity|].
  destruct (loadActivities env) as [am|e]; simpl;
    [|destruct (txOutcome env); reflexivity].
  set (sc := scan _ _ _ _ _).
  destruct (0 <? length (sessionsToDelete sc))%nat eqn:Hlen; simpl.
  - destruct (txOutcome env); simpl; [|reflexivity].
    rewrite lookup_applyUpdates, lookup_sessionUpdates.
    by case_bool_decide.
  - apply Nat.ltb_ge in Hlen.
    assert (Hnil : sessionsToDelete sc = []) by (apply length_zero_iff_nil; lia).
    rewrite Hnil. destruct (txOutcome env); reflexivity.
Qed.

Lemma runStore_sessionActivity config env st store :
  sessionActivity (runStore (runCleanup config env st store))
  = sessionActivity store.
Proof.
  unfold runCleanup.
  destruct (enabled config); simpl; [|reflexivity].
  destruct (cleanupRunning st); simpl; [reflexivity|].
  destruct (loadActivities env) as [am|e]; simpl; [|reflexivity].
  destruct (0 <? length _)%nat; simpl; [|reflexivity].
  destruct (txOutcome env); reflexivity.
Qed.

(** The mixed scenario of the test suite: four sessions scanned, one
    deleted in each category, the active primary device kept. *)
Example mixed_scenario :
  let r := runCleanup Scenarios.cleanupConfig Scenarios.mixedEnv Scenarios.idle
             Scenarios.mixedStore in
  runStats r = {| totalScanned := 4; secondaryDevicesDeleted := 1;
                  primaryDevicesDeleted := 1; lidOrphansDeleted := 1;
                  totalDeleted := 3; durationMs := 0; errors := 0 |} /\
  map_to_list (session (runStore r)) = [("5511777777777_0.0", "primary-active")].
Proof. split; vm_compute; reflexivity. Qed.

(** *** Selection of long-lived-id records with a reverse mapping *)

Lemma not_orphan_of_mapping m :
  hasLIDMapping m = Some true -> isLID m && mappingIsFalse m = false.
Proof. intros H. unfold mappingIsFalse. rewrite H. apply andb_false_r. Qed.

Lemma tierOf_withActivity am m : tierOf (withActivity am m) = tierOf m.
Proof. reflexivity. Qed.

(** C1, as stated, fails: a long-lived-id record with a live reverse
    mapping whose last activity is older than its device tier's threshold
    is selected (here a primary device last active 31 days ago, with the
    30-day threshold). *)
Lemma mapped_lid_record_selected_when_stale :
  ~ (forall config env st store k m,
       parseSessionMetadata env k = Some m ->
       isLID m = true -> hasLIDMapping m = Some true ->
       k ∉ runSelected (runCleanup config env st store)).
Proof.
  intros H.
  apply (H Scenarios.cleanupConfig Scenarios.mappedLidStale Scenarios.idle
           Scenarios.lidStore "123456789_2.0"
           {| jid := "123456789@lid"; isLID := true; isPrimary := true;
              lastActivityMs := None; createdAtMs := None;
              hasLIDMapping := Some true |});
    try reflexivity.
  assert (Hrun : runSelected
                   (runCleanup Scenarios.cleanupConfig Scenarios.mappedLidStale
                      Scenarios.idle Scenarios.lidStore)
                 = ["123456789_2.0"]) by (vm_compute; reflexivity).
  rewrite Hrun. apply list_elem_of_here.
Qed.

(** C1 (amended): a long-lived-id record with a live reverse mapping is
    never selected by the orphan rule nor without tracked activity: when a
    run selects it, its activity is tracked and it has been inactive for
    longer than the threshold of its device tier (primary-device days for
    device 0, secondary-device days otherwise). *)
Theorem mapped_lid_record_selected_only_by_device_tier
    (config : SessionCleanupConfig) (env : Env) (st : State)
    (store : KeyStore.t) (k : string) (m : SessionMetadata) :
  parseSessionMetadata env k = Some m ->
  isLID m = true ->
  hasLIDMapping m = Some true ->
  k ∈ runSelected (runCleanup config env st store) ->
  exists am t,
    loadActivities env = Returns am /\
    am !! jid m = Some t /\ t ≠ 0 /\
    (if isPrimary m
     then primaryDeviceInactiveDays config * DAY_MS
     else secondaryDeviceInactiveDays config * DAY_MS) < clockAt env k - t.
Proof.
  intros Hparse Hlid Hmap Hsel.
  apply runSelected_inv in Hsel as (am & Hact & _ & Hdec).
  unfold selects in Hdec. rewrite Hparse in Hdec.
  destruct (truthyNum (am !! jid m)) eqn:Htr.
  - apply truthyNum_true in Htr as (t & Ht & Hnz).
    exists am, t. repeat split; try done.
    rewrite (decision_tracked config (withActivity am m) _ t) in Hdec by done.
    apply Z.ltb_lt in Hdec. revert Hdec.
    rewrite tierOf_withActivity. unfold tierOf.
    rewrite (not_orphan_of_mapping m Hmap).
    destruct (isPrimary m); simpl; done.
  - rewrite decision_untracked in Hdec by done.
    change (isLID m && mappingIsFalse m = true) in Hdec.
    rewrite (not_orphan_of_mapping m Hmap) in Hdec. discriminate.
Qed.

(** The amended statement at the stale record of the scenario. *)
Lemma mapped_lid_record_selected_only_by_device_tier_witness :
  exists am t,
    loadActivities Scenarios.mappedLidStale = Returns am /\
    am !! "123456789@lid" = Some t /\ t ≠ 0 /\
    30 * DAY_MS < Scenarios.fixedNow - t.
Proof.
  apply (mapped_lid_record_selected_only_by_device_tier
           Scenarios.cleanupConfig Scenarios.mappedLidStale Scenarios.idle
           Scenarios.lidStore "123456789_2.0"
           {| jid := "123456789@lid"; isLID := true; isPrimary := true;
              lastActivityMs := None; createdAtMs := None;
              hasLIDMapping := Some true |});
    try reflexivity.
  vm_compute. apply list_elem_of_here.
Defined.

(** *** Records without an activity record *)

(** C4: in a run, an orphaned long-lived-id record (no reverse mapping)
    without any activity record is selected, and deleted when the
    transaction commits; a record that is not an orphan and has no
    activity record is not selected and stays in the store. *)
Theorem untracked_orphan_selected_addressable_kept
    (config : SessionCleanupConfig) (env : Env) (st : State)
    (store : KeyStore.t) (k : string) (m : SessionMetadata)
    (am : gmap string Z) :
  parseSessionMetadata env k = Some m ->
  loadActivities env = Returns am ->
  am !! jid m = None ->
  let r := runCleanup config env st store in
  (isLID m = true -> hasLIDMapping m = Some false ->
   enabled config = true -> cleanupRunning st = false ->
   getThrows env = false -> is_Some (session store !! k) ->
   k ∈ runSelected r /\
   (txOutcome env = Commits -> session (runStore r) !! k = None))
  /\
  (((isLID m = false) \/ (hasLIDMapping m ≠ Some false)) ->
   (k ∉ runSelected r) /\
   session (runStore r) !! k = session store !! k).
Proof.
  intros Hparse Hact Hnone r.
  assert (Hdec : selects config env am k = isLID m && mappingIsFalse m).
  { unfold selects. rewrite Hparse, decision_untracked; [reflexivity|].
    simpl. by rewrite Hnone. }
  split.
  - intros Hlid Hmap Hen Hidle Hget Hin.
    assert (Hsel : k ∈ runSelected r).
    { apply (runSelected_iff config env st store am k); try done.
      split; [done|]. rewrite Hdec, Hlid. unfold mappingIsFalse.
      by rewrite Hmap. }
    split; [done|]. intros Htx. subst r.
    rewrite runStore_session, Htx. by rewrite bool_decide_eq_true_2.
  - intros Hnot.
    assert (Hsel : k ∉ runSelected r).
    { intros Hsel. apply runSelected_inv in Hsel as (am' & Hact' & _ & Hdec').
      rewrite Hact in Hact'. injection Hact' as <-.
      rewrite Hdec in Hdec'. apply andb_true_iff in Hdec' as [Hl Hm].
      destruct Hnot as [Hnl | Hnm]; [congruence|].
      apply Hnm. unfold mappingIsFalse in Hm.
      destruct (hasLIDMapping m) as [[]|]; done. }
    split; [done|]. subst r. rewrite runStore_session.
    destruct (txOutcome env); [|reflexivity].
    by rewrite bool_decide_eq_false_2.
Qed.

(** C4 at the untracked orphan of the test suite: selected and deleted. *)
Lemma untracked_orphan_selected_addressable_kept_witness :
  let r := runCleanup Scenarios.cleanupConfig
             (Scenarios.orphanUntracked Commits) Scenarios.idle
             Scenarios.lidStore in
  "123456789_2.0" ∈ runSelected r /\
  session (runStore r) !! "123456789_2.0" = None.
Proof.
  intros r.
  destruct (untracked_orphan_selected_addressable_kept
              Scenarios.cleanupConfig (Scenarios.orphanUntracked Commits)
              Scenarios.idle Scenarios.lidStore "123456789_2.0"
              {| jid := "123456789@lid"; isLID := true; isPrimary := true;
                 lastActivityMs := None; createdAtMs := None;
                 hasLIDMapping := Some false |}
              ∅ eq_refl eq_refl eq_refl) as [Horphan _].
  destruct Horphan as [Hsel Hgone]; try reflexivity.
  - exists "session-data". reflexivity.
  - split; [exact Hsel | exact (Hgone eq_refl)].
Defined.

(** *** The threshold comparison *)

(** C5: for a record with a tracked last-activity timestamp, a run
    selects it exactly when its inactive duration is strictly greater than
    the threshold of its tier: orphan hours for a long-lived-id record
    without reverse mapping, secondary-device days for any other record of
    a device other than 0, primary-device days for any other record of
    device 0. At the threshold exactly the record is retained. *)
Theorem strict_threshold_comparison
    (config : SessionCleanupConfig) (env : Env) (st : State)
    (store : KeyStore.t) (k : string) (m : SessionMetadata)
    (am : gmap string Z) (t : Z) :
  enabled config = true -> cleanupRunning st = false ->
  getThrows env = false -> loadActivities env = Returns am ->
  is_Some (session store !! k) ->
  parseSessionMetadata env k = Some m ->
  am !! jid m = Some t -> t ≠ 0 ->
  let inactive := clockAt env k - t in
  let threshold :=
    if isLID m && mappingIsFalse m then lidOrphanHours config * HOUR_MS
    else if negb (isPrimary m) then secondaryDeviceInactiveDays config * DAY_MS
    else primaryDeviceInactiveDays config * DAY_MS in
  let r := runCleanup config env st store in
  (k ∈ runSelected r <-> threshold < inactive) /\
  (inactive = threshold -> k ∉ runSelected r) /\
  (threshold < inactive -> txOutcome env = Commits ->
   session (runStore r) !! k = None) /\
  (inactive <= threshold -> session (runStore r) !! k = session store !! k).
Proof.
  intros Hen Hidle Hget Hact Hin Hparse Ht Hnz inactive threshold r.
  assert (Hdec : selects config env am k = (threshold <? inactive)).
  { unfold selects. rewrite Hparse.
    rewrite (decision_tracked config (withActivity am m) _ t) by done.
    rewrite tierOf_withActivity. subst threshold inactive.
    unfold tierOf, tierThresholdMs.
    destruct (isLID m && mappingIsFalse m), (negb (isPrimary m)); reflexivity. }
  assert (Hiff : k ∈ runSelected r <-> threshold < inactive).
  { subst r. rewrite (runSelected_iff config env st store am k) by done.
    rewrite Hdec, Z.ltb_lt. split; [tauto | done]. }
  split; [exact Hiff|]. split; [|split].
  - intros Heq Hsel. apply Hiff in Hsel. lia.
  - intros Hgt Htx. subst r. rewrite runStore_session, Htx.
    rewrite bool_decide_eq_true_2; [reflexivity | by apply Hiff].
  - intros Hle. subst r. rewrite runStore_session.
    destruct (txOutcome env); [|reflexivity].
    rewrite bool_decide_eq_false_2; [reflexivity|].
    intros Hsel. apply Hiff in Hsel. lia.
Qed.

(** C5 at the boundary test: an orphan last active exactly 24 hours ago
    is not selected. *)
Lemma strict_threshold_comparison_witness :
  "123456789_2.0" ∉
    runSelected (runCleanup Scenarios.cleanupConfig Scenarios.orphanAtBoundary
                   Scenarios.idle Scenarios.lidStore).
Proof.
  refine (proj1 (proj2 (strict_threshold_comparison
            Scenarios.cleanupConfig Scenarios.orphanAtBoundary Scenarios.idle
            Scenarios.lidStore "123456789_2.0"
            {| jid := "123456789@lid"; isLID := true; isPrimary := true;
               lastActivityMs := None; createdAtMs := None;
               hasLIDMapping := Some false |}
            {[ "123456789@lid" := Scenarios.fixedNow - 24 * HOUR_MS ]}
            (Scenarios.fixedNow - 24 * HOUR_MS)
            eq_refl eq_refl eq_refl eq_refl _ eq_refl eq_refl _)) _).
  - exists "session-data". reflexivity.
  - discriminate.
  - reflexivity.
Defined.

(** *** The deletion transaction and the statistics *)

Lemma runCalls_eq config env st store :
  let r := runCleanup config env st store in
  runCalls r =
  if enabled config && negb (cleanupRunning st) then
    match runSelected r with
    | [] => [Get "session" []]
    | _ => [Get "session" [];
            Transaction "session-cleanup"
              [SetSession (sessionUpdates (runSelected r))]]
    end
  else [].
Proof.
  unfold runCleanup.
  destruct (enabled config); simpl; [|reflexivity].
  destruct (cleanupRunning st); simpl; [reflexivity|].
  destruct (loadActivities env) as [am|e]; simpl; [|reflexivity].
  set (sc := scan _ _ _ _ _).
  destruct (sessionsToDelete sc) as [|x l] eqn:Hl; simpl; [reflexivity|].
  destruct (txOutcome env); simpl; try rewrite Hl; reflexivity.
Qed.

(** The statistics of a run, by the outcome of the transaction. *)
Lemma runStats_totals config env st store :
  let r := runCleanup config env st store in
  0 <= totalScanned (runStats r) /\
  Z.of_nat (length (runSelected r)) <= totalScanned (runStats r) /\
  deletedSum (runStats r) = Z.of_nat (length (runSelected r)) /\
  totalDeleted (runStats r)
  = match txOutcome env with
    | Commits => Z.of_nat (length (runSelected r))
    | Aborts => 0
    end.
Proof.
  unfold runCleanup.
  destruct (enabled config); simpl;
    [|destruct (txOutcome env); repeat split; reflexivity || lia].
  destruct (cleanupRunning st); simpl;
    [destruct (txOutcome env); repeat split; reflexivity || lia|].
  destruct (loadActivities env) as [am|e]; simpl;
    [|destruct (txOutcome env); repeat split; reflexivity || lia].
  set (keys := getAllSessionKeys env store).
  set (stats0 := setTotals emptyStats (Z.of_nat (length keys)) 0 0).
  pose proof (scan_deletedSum config env am stats0 keys) as Hsum.
  pose proof (scan_selected config env am stats0 keys) as Hsel.
  pose proof (length_filter (fun k => selects config env am k = true) keys) as Hle.
  rewrite <- Hsel in Hle.
  set (sc := scan config env am stats0 keys) in *.
  change (deletedSum stats0) with 0 in Hsum.
  destruct (0 <? length (sessionsToDelete sc))%nat eqn:Hlen; simpl.
  - destruct (txOutcome env); simpl; unfold deletedSum in *; simpl;
      repeat split; lia.
  - apply Nat.ltb_ge in Hlen.
    destruct (txOutcome env); simpl; unfold deletedSum in *; simpl;
      repeat split; lia.
Qed.

(** The outcome of the transaction does not influence the scan. *)
Lemma scan_withTx o config env am stats keys :
  scan config (withTx o env) am stats keys = scan config env am stats keys.
Proof.
  unfold scan. generalize ({| scanStats := stats; sessionsToDelete := [];
                              deletionReasons := ∅ |}).
  induction keys as [|k keys IH]; intros acc; simpl; [reflexivity|].
  rewrite IH. reflexivity.
Qed.

(** The errors counted by a run. *)
Lemma runStats_errors config env st store :
  let r := runCleanup config env st store in
  errors (runStats r) =
  if enabled config && negb (cleanupRunning st) then
    match loadActivities env with
    | Throws _ => 1
    | Returns am =>
        let keys := getAllSessionKeys env store in
        errors (scanStats (scan config env am
                  (setTotals emptyStats (Z.of_nat (length keys)) 0 0) keys))
        + match txOutcome env, runSelected r with
          | Aborts, _ :: _ => 1
          | _, _ => 0
          end
    end
  else 0.
Proof.
  unfold runCleanup.
  destruct (enabled config); simpl; [|reflexivity].
  destruct (cleanupRunning st); simpl; [reflexivity|].
  destruct (loadActivities env) as [am|e]; simpl; [|reflexivity].
  set (sc := scan _ _ _ _ _).
  destruct (sessionsToDelete sc) as [|x l] eqn:Hl; simpl.
  - destruct (txOutcome env); lia.
  - destruct (txOutcome env); simpl; try rewrite Hl; lia.
Qed.

(** The errors counted by a run whose transaction fails. *)
Lemma runStats_errors_aborted config env st store :
  txOutcome env = Aborts ->
  runSelected (runCleanup config env st store) ≠ [] ->
  errors (runStats (runCleanup config env st store))
  = errors (runStats (runCleanup config (withTx Commits env) st store)) + 1.
Proof.
  intros Htx Hne.
  pose proof (runStats_errors config env st store) as H1.
  pose proof (runStats_errors config (withTx Commits env) st store) as H2.
  cbv zeta in H1, H2. rewrite H1, H2. clear H1 H2.
  change (loadActivities (withTx Commits env)) with (loadActivities env).
  change (getAllSessionKeys (withTx Commits env) store)
    with (getAllSessionKeys env store).
  change (txOutcome (withTx Commits env)) with Commits.
  rewrite Htx.
  destruct (runSelected (runCleanup config env st store)) as [|x l] eqn:Hsel;
    [done|].
  rewrite runSelected_eq in Hsel.
  destruct (enabled config && negb (cleanupRunning st)); [|discriminate].
  destruct (loadActivities env) as [am|e]; [|discriminate].
  rewrite scan_withTx. lia.
Qed.

Lemma runStore_aborted config env st store :
  txOutcome env = Aborts -> runStore (runCleanup config env st store) = store.
Proof.
  intros Htx. unfold runCleanup.
  destruct (enabled config); simpl; [|reflexivity].
  destruct (cleanupRunning st); simpl; [reflexivity|].
  destruct (loadActivities env) as [am|e]; simpl; [|reflexivity].
  destruct (0 <? length _)%nat; simpl; [|reflexivity].
  rewrite Htx. reflexivity.
Qed.

(** C6: a run that scans (cleanup enabled, no other run in progress, the
    tracker answers) selects the stored keys for which the retention rules
    decide deletion, each of them holding a record, and deletes them in
    one transaction on the store: the transaction holds one [set] that maps
    exactly the selected keys to [null], and no other transaction is made.
    When it commits, exactly the selected records are gone and
    [totalDeleted] is their number. When it fails, the store is what it
    was (every targeted record intact), [totalDeleted] is 0 and [errors] is
    one more than in the same run with a committing transaction. *)
Theorem deletion_is_one_atomic_transaction
    (config : SessionCleanupConfig) (env : Env) (st : State)
    (store : KeyStore.t) (activityMap : gmap string Z) :
  enabled config = true -> cleanupRunning st = false ->
  loadActivities env = Returns activityMap ->
  let r := runCleanup config env st store in
  let selected :=
    filter (fun k => selects config env activityMap k = true)
      (getAllSessionKeys env store) in
  let deletion :=
    Transaction "session-cleanup" [SetSession (sessionUpdates selected)] in
  runSelected r = selected /\
  (forall k, k ∈ selected -> is_Some (session store !! k)) /\
  runCalls r = match selected with
               | [] => [Get "session" []]
               | _ => [Get "session" []; deletion]
               end /\
  (forall k, sessionUpdates selected !! k
             = if bool_decide (k ∈ selected) then Some None else None) /\
  (txOutcome env = Commits ->
   (forall k, session (runStore r) !! k
              = if bool_decide (k ∈ selected) then None
                else session store !! k) /\
   totalDeleted (runStats r) = Z.of_nat (length selected)) /\
  (txOutcome env = Aborts ->
   runStore r = store /\
   (forall k, k ∈ selected ->
      session (runStore r) !! k = session store !! k) /\
   totalDeleted (runStats r) = 0 /\
   (selected ≠ [] ->
    errors (runStats r)
    = errors (runStats (runCleanup config (withTx Commits env) st store)) + 1)).
Proof.
  intros Hen Hidle Hact r selected deletion.
  assert (Hsel : runSelected r = selected).
  { subst r selected. by rewrite runSelected_eq, Hen, Hidle, Hact. }
  pose proof (runCalls_eq config env st store) as Hcalls. cbv zeta in Hcalls.
  fold r in Hcalls. rewrite Hen, Hidle, Hsel in Hcalls. cbn [negb andb] in Hcalls.
  pose proof (runStats_totals config env st store) as (_ & _ & _ & Htot).
  fold r in Htot. rewrite Hsel in Htot.
  split; [exact Hsel|]. split; [|split; [exact Hcalls|split; [|split]]].
  - intros k Hk. rewrite <- Hsel in Hk. subst r.
    apply runSelected_inv in Hk as (am & _ & Hstored & _). exact Hstored.
  - intros k. apply lookup_sessionUpdates.
  - intros Htx. rewrite Htx in Htot. split; [|exact Htot].
    intros k. pose proof (runStore_session config env st store k) as Hk.
    cbv zeta in Hk. fold r in Hk. by rewrite Htx, Hsel in Hk.
  - intros Htx. rewrite Htx in Htot.
    assert (Hstore : runStore r = store) by (by apply runStore_aborted).
    split; [exact Hstore|]. split; [by rewrite Hstore|].
    split; [exact Htot|].
    intros Hne. apply runStats_errors_aborted; [exact Htx|].
    fold r. by rewrite Hsel.
Qed.

(** C6 at the untracked orphan with a failing transaction: the orphan is
    selected, the one transaction on the store is the deletion of exactly
    this key, and the store is what it was. *)
Lemma deletion_is_one_atomic_transaction_witness :
  let r := runCleanup Scenarios.cleanupConfig (Scenarios.orphanUntracked Aborts)
             Scenarios.idle Scenarios.lidStore in
  runSelected r = ["123456789_2.0"] /\
  runCalls r = [Get "session" [];
                Transaction "session-cleanup"
                  [SetSession (sessionUpdates ["123456789_2.0"])]] /\
  runStore r = Scenarios.lidStore /\
  totalDeleted (runStats r) = 0 /\
  errors (runStats r)
  = errors (runStats (runCleanup Scenarios.cleanupConfig
                        (withTx Commits (Scenarios.orphanUntracked Aborts))
                        Scenarios.idle Scenarios.lidStore)) + 1.
Proof.
  intros r.
  destruct (deletion_is_one_atomic_transaction Scenarios.cleanupConfig
              (Scenarios.orphanUntracked Aborts) Scenarios.idle
              Scenarios.lidStore ∅ eq_refl eq_refl eq_refl)
    as (Hsel & _ & Hcalls & _ & _ & Habort).
  assert (Hkeys :
    filter (fun k => selects Scenarios.cleanupConfig
                       (Scenarios.orphanUntracked Aborts) ∅ k = true)
      (getAllSessionKeys (Scenarios.orphanUntracked Aborts) Scenarios.lidStore)
    = ["123456789_2.0"]) by (vm_compute; reflexivity).
  rewrite Hkeys in Hsel, Hcalls, Habort.
  destruct (Habort eq_refl) as (Hstore & _ & Htot & Herr).
  split; [exact Hsel|]. split; [exact Hcalls|]. split; [exact Hstore|].
  split; [exact Htot|]. apply Herr. discriminate.
Defined.

(** A failed deletion in the scenario of the untracked orphan: the record
    is still stored, nothing counts as deleted, one error is counted. *)
Example failed_deletion_keeps_record :
  let r := runCleanup Scenarios.cleanupConfig (Scenarios.orphanUntracked Aborts)
             Scenarios.idle Scenarios.lidStore in
  runSelected r = ["123456789_2.0"] /\
  session (runStore r) !! "123456789_2.0" = Some "session-data" /\
  totalDeleted (runStats r) = 0 /\
  lidOrphansDeleted (runStats r) = 1 /\
  errors (runStats r) = 1.
Proof. vm_compute. repeat split. Qed.

(** C9: when the deletion transaction commits (or none is needed),
    [totalDeleted] is the sum of the three per-category counters and is at
    most [totalScanned]; when it fails, [totalDeleted] is 0 while the
    three counters add up to the number of selected keys, which is not
    zero in the scenario of the untracked orphan. *)
Theorem stats_totals_consistent
    (config : SessionCleanupConfig) (env : Env) (st : State)
    (store : KeyStore.t) :
  let r := runCleanup config env st store in
  let s := runStats r in
  (txOutcome env = Commits ->
   totalDeleted s
   = lidOrphansDeleted s + secondaryDevicesDeleted s + primaryDevicesDeleted s
   /\ totalDeleted s <= totalScanned s) /\
  (txOutcome env = Aborts ->
   totalDeleted s = 0 /\
   lidOrphansDeleted s + secondaryDevicesDeleted s + primaryDevicesDeleted s
   = Z.of_nat (length (runSelected r))) /\
  (let s' := runStats (runCleanup Scenarios.cleanupConfig
                         (Scenarios.orphanUntracked Aborts)
                         Scenarios.idle Scenarios.lidStore) in
   totalDeleted s' = 0 /\ lidOrphansDeleted s' = 1).
Proof.
  intros r s.
  pose proof (runStats_totals config env st store) as (H0 & Hle & Hsum & Htot).
  fold r in H0, Hle, Hsum, Htot. fold s in H0, Hle, Hsum, Htot.
  unfold deletedSum in Hsum.
  split; [|split].
  - intros Htx. rewrite Htx in Htot. lia.
  - intros Htx. rewrite Htx in Htot. lia.
  - vm_compute. split; reflexivity.
Qed.

End CleanupFacts.

(** ** The decryption pipeline *)

Module DecryptFacts.
Import JS Decrypt DecryptNodes.

Lemma shouldRetry_sessionRecord e attempt :
  sessionRecordMessage e ->
  decryptionShouldRetry e attempt = (attempt <? 3).
Proof. intros H. unfold decryptionShouldRetry. by rewrite H. Qed.

Lemma shouldRetry_corruptedOnly e attempt :
  corruptedOnlyMessage e -> decryptionShouldRetry e attempt = false.
Proof. intros [H1 H2]. unfold decryptionShouldRetry. by rewrite H1, H2. Qed.

(** A message that matches a corrupted-session pattern is not empty, so
    [isCorruptedSessionError] reads the message itself. *)
Lemma corrupted_message_classified e :
  someIncluded (corruptedSessionErrors DECRYPTION_RETRY_CONFIG) (errMessage e) = true ->
  isCorruptedSessionError e = true.
Proof.
  intros H. unfold isCorruptedSessionError, errorText.
  destruct (errMessage e) as [|c r]; [discriminate H | exact H].
Qed.

(** The three attempts of [retry] under the decryption options. *)
Lemma retry_decryption_unfold {A : Type} (firstAttempt : Z)
    (fn : nat -> outcome A) :
  retry DECRYPTION_RETRY_OPTIONS firstAttempt fn =
  match fn 0%nat with
  | Returns a => {| attemptsMade := 1; retryResult := inl a |}
  | Throws e0 =>
      if negb (decryptionShouldRetry e0 firstAttempt)
      then {| attemptsMade := 1; retryResult := inr (Raw e0) |}
      else
        match fn 1%nat with
        | Returns a => {| attemptsMade := 2; retryResult := inl a |}
        | Throws e1 =>
            if negb (decryptionShouldRetry e1 (firstAttempt + 1))
            then {| attemptsMade := 2; retryResult := inr (Raw e1) |}
            else
              match fn 2%nat with
              | Returns a => {| attemptsMade := 3; retryResult := inl a |}
              | Throws e2 =>
                  {| attemptsMade := 3;
                     retryResult := inr (RetryExhaustedError e2 3) |}
              end
        end
  end.
Proof.
  unfold retry.
  change (Z.to_nat (maxAttempts DECRYPTION_RETRY_OPTIONS)) with 3%nat.
  cbn [retryFrom].
  change (shouldRetry DECRYPTION_RETRY_OPTIONS) with decryptionShouldRetry.
  change (maxAttempts DECRYPTION_RETRY_OPTIONS <=? Z.of_nat 1) with false.
  change (maxAttempts DECRYPTION_RETRY_OPTIONS <=? Z.of_nat 2) with false.
  change (maxAttempts DECRYPTION_RETRY_OPTIONS <=? Z.of_nat 3) with true.
  change (Z.of_nat 0) with 0. change (Z.of_nat 1) with 1.
  change (Z.of_nat 3) with 3. rewrite Z.add_0_r.
  destruct (fn 0%nat) as [a|e0]; [reflexivity|]. cbn iota.
  destruct (decryptionShouldRetry e0 firstAttempt); cbn [negb]; [|reflexivity].
  destruct (fn 1%nat) as [a|e1]; [reflexivity|]. cbn iota.
  destruct (decryptionShouldRetry e1 (firstAttempt + 1)); cbn [negb];
    [|reflexivity].
  destruct (fn 2%nat) as [a|e2]; reflexivity.
Qed.

Lemma retry_at_most_three {A : Type} (firstAttempt : Z) (fn : nat -> outcome A) :
  (1 <= attemptsMade (retry DECRYPTION_RETRY_OPTIONS firstAttempt fn) <= 3)%nat.
Proof.
  rewrite retry_decryption_unfold.
  repeat match goal with
         | |- context [match ?x with _ => _ end] => destruct x
         end; simpl; lia.
Qed.

(** The attempt that meets an error with a corrupted-session message (and
    no missing-record message) is the last one, whichever it is, and its
    error is the one that [retry] throws, as it is or wrapped. *)
Lemma retry_corrupted_is_last {A : Type} (firstAttempt : Z)
    (fn : nat -> outcome A) (k : nat) (e : JsError) :
  let r := retry DECRYPTION_RETRY_OPTIONS firstAttempt fn in
  fn k = Throws e -> corruptedOnlyMessage e -> (k < attemptsMade r)%nat ->
  attemptsMade r = S k /\
  exists err, retryResult r = inr err /\ originalErrorOf err = e.
Proof.
  cbv zeta. intros Hk Hcor. rewrite retry_decryption_unfold.
  pose proof (fun a => shouldRetry_corruptedOnly e a Hcor) as Hno.
  destruct k as [|[|[|k]]].
  - rewrite Hk, Hno. cbn. eauto.
  - destruct (fn 0%nat) as [a|e0]; [cbn; lia|].
    destruct (negb (decryptionShouldRetry e0 firstAttempt)); [cbn; lia|].
    rewrite Hk, Hno. cbn. eauto.
  - destruct (fn 0%nat) as [a|e0]; [cbn; lia|].
    destruct (negb (decryptionShouldRetry e0 firstAttempt)); [cbn; lia|].
    destruct (fn 1%nat) as [a|e1]; [cbn; lia|].
    destruct (negb (decryptionShouldRetry e1 (firstAttempt + 1))); [cbn; lia|].
    rewrite Hk. cbn. eauto.
  - repeat match goal with
           | |- context [match ?x with _ => _ end] => destruct x
           end; cbn; lia.
Qed.

(** An attempt that meets an error with a missing-record message is
    followed by another one while attempts remain. *)
Lemma retry_sessionRecord_again {A : Type} (firstAttempt : Z)
    (fn : nat -> outcome A) (k : nat) (e : JsError) :
  0 <= firstAttempt <= 1 ->
  let r := retry DECRYPTION_RETRY_OPTIONS firstAttempt fn in
  fn k = Throws e -> sessionRecordMessage e -> (k < attemptsMade r)%nat ->
  (S k < 3)%nat -> (S k < attemptsMade r)%nat.
Proof.
  cbv zeta. intros Hf Hk Hrec. rewrite retry_decryption_unfold.
  pose proof (fun a => shouldRetry_sessionRecord e a Hrec) as Hyes.
  destruct k as [|[|k]]; [| |lia].
  - rewrite Hk, Hyes.
    replace (firstAttempt <? 3) with true by (symmetry; apply Z.ltb_lt; lia).
    cbn [negb].
    repeat match goal with
           | |- context [match ?x with _ => _ end] => destruct x
           end; cbn; lia.
  - destruct (fn 0%nat) as [a|e0]; [cbn; lia|].
    destruct (negb (decryptionShouldRetry e0 firstAttempt)); [cbn; lia|].
    rewrite Hk, Hyes.
    replace (firstAttempt + 1 <? 3) with true by (symmetry; apply Z.ltb_lt; lia).
    cbn [negb]. destruct (fn 2%nat); cbn; lia.
Qed.

Section NodeFacts.

Variable isLidUser : string -> bool.
Variable isPnUser : string -> bool.
Variable isHostedLidUser : string -> bool.
Variable jidDecode : string -> option FullJid.
Variable unpadRandomMax16 : string -> outcome string.
Variable decodeMessage : string -> outcome Decoded.
Variable decodeVerifiedName : string -> outcome (option (option string)).
Variable firstAttempt : Z.
Variable repository : Repository.

#[local] Abbreviation getDecryptionJid' := (getDecryptionJid isLidUser isHostedLidUser repository).
#[local] Abbreviation storeMapping' := (storeMappingFromEnvelope isLidUser isPnUser repository).
#[local] Abbreviation targets' := (corruptedSessionTargets jidDecode).
#[local] Abbreviation cleanup' := (cleanupCorruptedSession jidDecode repository).
#[local] Abbreviation runCipher' := (runCipher firstAttempt repository).
#[local] Abbreviation cipherAnswer' := (cipherAnswer repository).
#[local] Abbreviation accept' := (acceptPlaintext unpadRandomMax16 decodeMessage).
#[local] Abbreviation onFailure' := (onDecryptFailure jidDecode repository).
#[local] Abbreviation note' := (noteAttributes decodeVerifiedName).
#[local] Abbreviation beforeCipher' :=
  (beforeCipher isLidUser isPnUser isHostedLidUser repository).
#[local] Abbreviation decryptPayload' :=
  (decryptPayload isLidUser isPnUser isHostedLidUser jidDecode unpadRandomMax16
     decodeMessage firstAttempt repository).
#[local] Abbreviation decryptNode' :=
  (decryptNode isLidUser isPnUser isHostedLidUser jidDecode unpadRandomMax16
     decodeMessage decodeVerifiedName firstAttempt repository).
#[local] Abbreviation decryptLoop' :=
  (decryptLoop isLidUser isPnUser isHostedLidUser jidDecode unpadRandomMax16
     decodeMessage decodeVerifiedName firstAttempt repository).
#[local] Abbreviation decrypt' :=
  (decrypt isLidUser isPnUser isHostedLidUser jidDecode unpadRandomMax16
     decodeMessage decodeVerifiedName firstAttempt repository).

Lemma runCipher_ciphered env kind bytes jid st :
  ciphered kind ->
  runCipher' env (Some kind) bytes jid st =
  let r := retry DECRYPTION_RETRY_OPTIONS firstAttempt
             (fun k => cipherAnswer' env kind bytes jid (cipherCalls st + k)%nat) in
  (afterCipher st (attemptsMade r) (cipherCall env kind bytes jid), retryResult r).
Proof. intros [-> | [-> | ->]]; reflexivity. Qed.

(** What the head of the loop body leaves as it is. *)
Lemma noteAttributes_frame st node st' :
  note' st node = Returns st' ->
  decryptables st' = decryptables st /\
  cipherCalls st' = cipherCalls st /\
  sessions st' = sessions st /\
  calls st' = calls st /\
  messageStubType (fullMessage st') = messageStubType (fullMessage st) /\
  messageStubParameters (fullMessage st') = messageStubParameters (fullMessage st).
Proof.
  unfold noteAttributes.
  destruct (content node) as [bytes|];
    try destruct (String.eqb (tag node) "verified_name");
    try destruct (decodeVerifiedName bytes) as [[v|]|e];
    try discriminate;
    destruct (String.eqb (tag node) "unavailable"
              && bool_decide (attrs node !! "type" = Some "view_once"));
    destruct (truthyStr (attrs node !! "count") && String.eqb (tag node) "enc");
    intros [= <-]; simpl; repeat split.
Qed.

(** The head of the loop body throws only when a certificate does not
    decode. *)
Lemma noteAttributes_returns st node :
  decodesName decodeVerifiedName node -> exists st', note' st node = Returns st'.
Proof.
  unfold decodesName, noteAttributes.
  destruct (content node) as [bytes|]; [|eauto].
  destruct (String.eqb (tag node) "verified_name"); [|eauto].
  intros [v ->]. destruct v; eauto.
Qed.

Lemma noteAttributes_enc st node :
  tag node = "enc" -> exists st', note' st node = Returns st'.
Proof.
  intros Htag. apply noteAttributes_returns. unfold decodesName.
  rewrite Htag. by destruct (content node).
Qed.

Lemma cleanup_fullMessage jid st :
  fullMessage (cleanup' jid st).1 = fullMessage st.
Proof.
  unfold cleanupCorruptedSession.
  destruct (targets' jid) as [l|]; [|reflexivity].
  destruct (deleteSession repository l); reflexivity.
Qed.

(** The [catch] block always leaves the stub, with the error's message. *)
Lemma onDecryptFailure_stub autoClean jid err st :
  let st' := onFailure' autoClean jid err st in
  messageStubType (fullMessage st') = Some CIPHERTEXT /\
  messageStubParameters (fullMessage st') = [errMessage (originalErrorOf err)] /\
  cipherCalls st' = cipherCalls st.
Proof.
  unfold onDecryptFailure. simpl. repeat split.
  destruct (isCorruptedSessionError (originalErrorOf err) && autoClean);
    [|reflexivity].
  unfold cleanupCorruptedSession.
  destruct (targets' jid) as [l|]; [|reflexivity].
  destruct (deleteSession repository l); reflexivity.
Qed.

Lemma acceptPlaintext_stub env e2eType msgBuffer st st2 :
  accept' env e2eType msgBuffer st = inl st2 ->
  messageStubType (fullMessage st2) = messageStubType (fullMessage st).
Proof.
  unfold acceptPlaintext.
  destruct (if negb _ then _ else _) as [padded|]; [|discriminate].
  destruct (decodeMessage padded) as [msg|]; [|discriminate].
  intros [= <-]. destruct (senderKeyDistributionMessage msg); reflexivity.
Qed.

Lemma runCipher_fullMessage env e2eType bytes jid st :
  fullMessage (runCipher' env e2eType bytes jid st).1 = fullMessage st.
Proof.
  unfold runCipher.
  destruct (String.eqb _ "skmsg"); [reflexivity|].
  destruct (String.eqb _ "pkmsg" || String.eqb _ "msg"); [reflexivity|].
  destruct (String.eqb _ "plaintext"); reflexivity.
Qed.

(** A stub, once set, stays through the rest of the loop. *)
Lemma decryptPayload_keeps_stub env autoClean st node :
  messageStubType (fullMessage st) = Some CIPHERTEXT ->
  messageStubType (fullMessage (decryptPayload' env autoClean st node))
  = Some CIPHERTEXT.
Proof.
  intros Hs. unfold decryptPayload.
  destruct (negb (String.eqb (tag node) "enc")
            && negb (String.eqb (tag node) "plaintext")); [exact Hs|].
  destruct (content node) as [bytes|]; [|exact Hs].
  match goal with
  | |- context [runCipher' ?a ?b ?c ?d ?s] =>
      pose proof (runCipher_fullMessage a b c d s) as Hfm;
      destruct (runCipher' a b c d s) as [st1 [msgBuffer|err]] eqn:Hrun
  end; simpl in Hfm.
  - match goal with
    | |- context [accept' ?a ?b ?c ?s] =>
        destruct (accept' a b c s) as [st2|err] eqn:Hacc
    end.
    + rewrite (acceptPlaintext_stub _ _ _ _ _ Hacc), Hfm.
      destruct (negb (String.eqb (tag node) "plaintext")); exact Hs.
    + apply onDecryptFailure_stub.
  - apply onDecryptFailure_stub.
Qed.

Lemma decryptNode_keeps_stub env autoClean st node :
  messageStubType (fullMessage st) = Some CIPHERTEXT ->
  messageStubType (fullMessage (stateOf (decryptNode' env autoClean st node)))
  = Some CIPHERTEXT.
Proof.
  intros Hstub. unfold decryptNode.
  destruct (note' st node) as [st0|e] eqn:Hnote; cbn [stateOf]; [|exact Hstub].
  apply decryptPayload_keeps_stub.
  destruct (noteAttributes_frame st node st0 Hnote) as (_ & _ & _ & _ & Hs & _).
  by rewrite Hs.
Qed.

Lemma decryptLoop_keeps_stub env autoClean nodes st :
  messageStubType (fullMessage st) = Some CIPHERTEXT ->
  messageStubType
    (fullMessage (stateOf (decryptLoop' env autoClean nodes st)))
  = Some CIPHERTEXT.
Proof.
  revert st. induction nodes as [|n nodes IH]; intros st H; cbn [decryptLoop];
    [exact H|].
  pose proof (decryptNode_keeps_stub env autoClean st n H) as Hn.
  destruct (decryptNode' env autoClean st n) as [st'|st' e]; cbn [stateOf] in *.
  - by apply IH.
  - exact Hn.
Qed.

Lemma decryptLoop_app env autoClean pre post st :
  decryptLoop' env autoClean (pre ++ post) st =
  match decryptLoop' env autoClean pre st with
  | Completes st' => decryptLoop' env autoClean post st'
  | Rejects st' e => Rejects st' e
  end.
Proof.
  revert st. induction pre as [|n pre IH]; intros st; cbn [decryptLoop app];
    [reflexivity|].
  destruct (decryptNode' env autoClean st n); [apply IH | reflexivity].
Qed.

(** The loop completes when every certificate decodes. *)
Lemma decryptLoop_completes env autoClean nodes st :
  Forall (decodesName decodeVerifiedName) nodes ->
  exists st', decryptLoop' env autoClean nodes st = Completes st'.
Proof.
  intros Hall. revert st.
  induction Hall as [|n nodes Hn _ IH]; intros st; cbn [decryptLoop]; [eauto|].
  unfold decryptNode.
  destruct (noteAttributes_returns st n Hn) as [st0 ->]. apply IH.
Qed.

Lemma corruptedSessionTargets_decoded jid fj :
  jidDecode jid = Some fj -> user fj ≠ EmptyString ->
  targets' jid = Some (expectedTargets jid fj).
Proof.
  intros Hdec Hu. unfold corruptedSessionTargets, expectedTargets.
  rewrite Hdec. simpl. destruct (user fj) as [|c r]; [done|]. reflexivity.
Qed.

Lemma beforeCipher_frame env st :
  let st1 := beforeCipher' env st in
  cipherCalls st1 = cipherCalls st /\
  sessions st1 = sessions st /\
  calls st1 = (calls st ++ storeMapping' (stanzaAttrs env) (author env)
                             (getDecryptionJid' (calls st) (author env)))%list.
Proof. done. Qed.

Lemma decryptPayload_enc env autoClean st node bytes kind :
  tag node = "enc" -> content node = Binary bytes ->
  attrs node !! "type" = Some kind ->
  decryptPayload' env autoClean st node =
  let jid := getDecryptionJid' (calls st) (author env) in
  match runCipher' env (Some kind) bytes jid (beforeCipher' env st) with
  | (st1, inl msgBuffer) =>
      match accept' env (Some kind) msgBuffer st1 with
      | inl st2 => st2
      | inr err => onFailure' autoClean jid err st1
      end
  | (st1, inr err) => onFailure' autoClean jid err st1
  end.
Proof.
  intros Htag Hcontent Htype. unfold decryptPayload, beforeCipher.
  rewrite Htag, Hcontent, Htype. reflexivity.
Qed.



End NodeFacts.



(** The address is read again at every node: once the mapping of the
    envelope is stored, the next node is decrypted under the LID, no
    mapping is stored a second time, and the cleanup targets the LID
    addresses. *)
Lemma second_node_uses_stored_mapping :
  calls (stateOf
    (decrypt Scenarios.isLidUser Scenarios.isPnUser Scenarios.isHostedLidUser
       Scenarios.jidDecode Scenarios.noPadding Scenarios.decodeText
       Scenarios.noVerifiedName 1
       (Scenarios.learningRepository Scenarios.badMac) Scenarios.twoMessages
       true Scenarios.heldSessions))
  = [StoreLIDPNMappings Scenarios.peerLid Scenarios.peer;
     MigrateSession Scenarios.peer Scenarios.peerLid;
     DecryptMessage Scenarios.peer "msg" "ciphertext";
     DeleteSession
       [Scenarios.peer;
        "5511999999999:1@s.whatsapp.net"; "5511999999999:2@s.whatsapp.net";
        "5511999999999:3@s.whatsapp.net"; "5511999999999:4@s.whatsapp.net";
        "5511999999999:5@s.whatsapp.net"];
     DecryptMessage Scenarios.peerLid "msg" "ciphertext";
     DeleteSession
       ["123456789@lid"; "123456789:1@lid"; "123456789:2@lid";
        "123456789:3@lid"; "123456789:4@lid"; "123456789:5@lid"]].
Proof. vm_compute. reflexivity. Qed.



End DecryptFacts.

(** ** The session migrator *)

Module MigratorFacts.
Import KeyStore Migrator.

(** A staged move carries the device it was staged for. *)
Lemma toMigrate_device now st pn d mv :
  toMigrate now st pn d = Some mv -> mv.1 = d.
Proof.
  unfold toMigrate. destruct (ledgerHolds now st pn d); [discriminate|].
  destruct (sessions st !! (pn, PhoneNumber, d)); [|discriminate].
  by intros [= <-].
Qed.

(** A move is staged only where the phone-number key holds a record and
    no unexpired ledger entry covers the device. *)
Lemma toMigrate_None now st pn d :
  toMigrate now st pn d = None <->
  ledgerHolds now st pn d = true \/ sessions st !! (pn, PhoneNumber, d) = None.
Proof.
  unfold toMigrate. destruct (ledgerHolds now st pn d); [tauto|].
  destruct (sessions st !! (pn, PhoneNumber, d)); split; try done.
  - intros [?|?]; done.
  - by right.
Qed.

(** The phone-number key of a device after the staged relocations. *)
Lemma relocate_fold_pn pn lid staged m d :
  foldl (relocate pn lid) m staged !! (pn, PhoneNumber, d)
  = if bool_decide (d ∈ staged.*1) then None else m !! (pn, PhoneNumber, d).
Proof.
  revert m. induction staged as [|[d' r] staged IH]; intros m; cbn [foldl fmap list_fmap].
  - rewrite bool_decide_eq_false_2; [reflexivity | apply not_elem_of_nil].
  - rewrite IH. unfold relocate. cbn [fst snd].
    destruct (decide (d = d')) as [->|Hne].
    + rewrite lookup_delete_eq.
      rewrite (bool_decide_eq_true_2 (d' ∈ d' :: staged.*1))
        by (apply elem_of_cons; by left).
      by case_bool_decide.
    + rewrite lookup_delete_ne by congruence.
      rewrite lookup_insert_ne by congruence.
      case_bool_decide as H1; case_bool_decide as H2; try reflexivity.
      * exfalso. apply H2, elem_of_cons. by right.
      * exfalso. apply elem_of_cons in H2 as [?|?]; done.
Qed.

(** The state after a call that returned statistics. *)
Lemma migrateSessions_Done now tx source target st r st' :
  migrateSessions now tx source target st = (Done r, st') ->
  tag source = PhoneNumber /\ tag target = LongLivedId /\
  deviceList st' = deviceList st /\
  let devices := default [] (deviceList st !! user source) in
  let staged := omap (toMigrate now st (user source)) devices in
  r = {| migrated := Z.of_nat (length staged);
         skipped := Z.of_nat (length devices) - Z.of_nat (length staged);
         total := Z.of_nat (length devices) |} /\
  sessions st' = foldl (relocate (user source) (user target)) (sessions st) staged.
Proof.
  unfold migrateSessions.
  destruct (tag source), (tag target); try discriminate.
  destruct (default [] (deviceList st !! user source)) as [|d0 ds] eqn:Hdev.
  - intros [= <- <-]. repeat split; reflexivity.
  - destruct tx; [|discriminate]. intros [= <- <-]. repeat split; reflexivity.
Qed.

(** After a committed call from a ledger-consistent state, no device of
    the list holds a record under the phone-number key. *)
Lemma migrated_devices_leave_pn_keyspace now tx source target st r st' :
  ledgerConsistent now st (user source) ->
  migrateSessions now tx source target st = (Done r, st') ->
  forall d, d ∈ default [] (deviceList st !! user source) ->
    sessions st' !! (user source, PhoneNumber, d) = None.
Proof.
  intros Hcons Hrun d Hd.
  apply migrateSessions_Done in Hrun as (_ & _ & _ & _ & Hs).
  cbv zeta in Hs. rewrite Hs, relocate_fold_pn.
  case_bool_decide as Hin; [reflexivity|].
  destruct (toMigrate now st (user source) d) as [mv|] eqn:Hm.
  - exfalso. apply Hin. apply list_elem_of_fmap. exists mv.
    split; [symmetry; by eapply toMigrate_device|].
    apply list_elem_of_omap. eauto.
  - apply toMigrate_None in Hm as [Hl|Hn]; [by apply Hcons | exact Hn].
Qed.

Lemma omap_all_None {A B : Type} (f : A -> option B) (l : list A) :
  (forall x, x ∈ l -> f x = None) -> omap f l = [].
Proof.
  induction l as [|x l IH]; intros H; [reflexivity|].
  cbn. rewrite (H x) by (apply elem_of_cons; by left).
  apply IH. intros y Hy. apply H, elem_of_cons. by right.
Qed.

(** Where no device of the list holds a phone-number record, a call
    stages nothing, returns [migrated = 0] and changes nothing. *)
Lemma migrateSessions_nothing_to_move now tx source target st :
  tag source = PhoneNumber -> tag target = LongLivedId ->
  (forall d, d ∈ default [] (deviceList st !! user source) ->
     sessions st !! (user source, PhoneNumber, d) = None) ->
  let n := Z.of_nat (length (default [] (deviceList st !! user source))) in
  migrateSessions now tx source target st
  = (match tx, default [] (deviceList st !! user source) with
     | Aborts, _ :: _ => Failed
     | _, _ => Done {| migrated := 0; skipped := n; total := n |}
     end, st).
Proof.
  intros Hs Ht Hnone n. unfold migrateSessions. rewrite Hs, Ht.
  assert (Hst : omap (toMigrate now st (user source))
                  (default [] (deviceList st !! user source)) = []).
  { apply omap_all_None. intros d Hd. apply toMigrate_None. right.
    by apply Hnone. }
  subst n.
  destruct (default [] (deviceList st !! user source)) as [|d0 ds] eqn:Hdev.
  - by destruct tx.
  - destruct tx; [|reflexivity]. rewrite Hst. cbn [foldl length].
    change (Z.of_nat 0) with 0. rewrite Z.sub_0_r. by destruct st.
Qed.

(** An empty ledger is consistent with any store. *)
Lemma ledgerConsistent_fresh now st pn :
  ledger st = ∅ -> ledgerConsistent now st pn.
Proof.
  intros He d _. unfold ledgerHolds. rewrite He, lookup_empty. discriminate.
Qed.

(** A committed call leaves a state that is consistent at any time. *)
Lemma ledgerConsistent_after now now' tx source target st r st' :
  ledgerConsistent now st (user source) ->
  migrateSessions now tx source target st = (Done r, st') ->
  ledgerConsistent now' st' (user source).
Proof.
  intros Hcons Hrun d Hd _.
  pose proof (migrateSessions_Done _ _ _ _ _ _ _ Hrun) as (_ & _ & Hdl & _).
  rewrite Hdl in Hd.
  by eapply migrated_devices_leave_pn_keyspace.
Qed.

(** C3, as stated, fails: a device that an unexpired ledger entry covers
    is skipped without touching the store, so a call that succeeds leaves
    it with records under both keyspaces when a phone-number record was
    established again after the migration. *)
Lemma ledger_skipped_device_keeps_both_records :
  let run := migrateSessions Scenarios.fixedNow Commits
               Scenarios.pnIdentity Scenarios.lidIdentity
               Scenarios.reestablished in
  run.1 = Done {| migrated := 0; skipped := 1; total := 1 |} /\
  inBothKeyspaces run.2 "5511900000000" "abc123" 0.
Proof.
  intros run. split; [vm_compute; reflexivity|].
  split; eexists; vm_compute; reflexivity.
Qed.

(** The second half of C3 fails in the same state once the ledger entry
    expires between the two calls: the second call migrates one device. *)
Example second_call_migrates_after_ledger_expiry :
  let first := migrateSessions Scenarios.fixedNow Commits
                 Scenarios.pnIdentity Scenarios.lidIdentity
                 Scenarios.reestablished in
  let second := migrateSessions (Scenarios.fixedNow + LEDGER_GRACE_MS) Commits
                  Scenarios.pnIdentity Scenarios.lidIdentity first.2 in
  first.1 = Done {| migrated := 0; skipped := 1; total := 1 |} /\
  second.1 = Done {| migrated := 1; skipped := 0; total := 1 |}.
Proof. split; vm_compute; reflexivity. Qed.

(** C3 (amended): let the state be ledger-consistent when the first call
    is made (no listed device that an unexpired ledger entry covers holds a
    phone-number record; so it is with an empty ledger), and let the first
    call succeed. Then no device of the identity's device list holds a
    record under the phone-number key afterwards, hence none holds records
    under both keyspaces; a second call with the same arguments, at any
    time, stages nothing: it returns [migrated = 0] when its transaction
    commits (it fails when the transaction aborts and the list is not
    empty), and it leaves the state as it is. *)
Theorem second_migration_moves_nothing
    (now1 now2 : Z) (tx1 tx2 : TxOutcome) (source target : Identity)
    (st st1 : State) (r1 : MigrationResult) :
  ledgerConsistent now1 st (user source) ->
  migrateSessions now1 tx1 source target st = (Done r1, st1) ->
  let devices := default [] (deviceList st !! user source) in
  let second := migrateSessions now2 tx2 source target st1 in
  (forall d, d ∈ devices ->
     sessions st1 !! (user source, PhoneNumber, d) = None /\
     ~ inBothKeyspaces st1 (user source) (user target) d) /\
  (tx2 = Commits ->
   second.1 = Done {| migrated := 0;
                      skipped := Z.of_nat (length devices);
                      total := Z.of_nat (length devices) |}) /\
  (tx2 = Aborts -> devices ≠ [] -> second.1 = Failed) /\
  second.2 = st1 /\
  (forall d, d ∈ devices ->
     ~ inBothKeyspaces second.2 (user source) (user target) d).
Proof.
  intros Hcons Hrun devices second.
  pose proof (migrateSessions_Done _ _ _ _ _ _ _ Hrun) as (Hs & Ht & Hdl & _).
  assert (Hgone : forall d, d ∈ devices ->
            sessions st1 !! (user source, PhoneNumber, d) = None)
    by (intros d Hd; by eapply migrated_devices_leave_pn_keyspace).
  assert (Hnot : forall d, d ∈ devices ->
            ~ inBothKeyspaces st1 (user source) (user target) d).
  { intros d Hd [[x Hx] _]. rewrite (Hgone d Hd) in Hx. discriminate. }
  assert (Hsecond : second
            = (match tx2, devices with
               | Aborts, _ :: _ => Failed
               | _, _ => Done {| migrated := 0;
                                 skipped := Z.of_nat (length devices);
                                 total := Z.of_nat (length devices) |}
               end, st1)).
  { subst second devices. rewrite <- Hdl.
    apply migrateSessions_nothing_to_move; try done.
    rewrite Hdl. exact Hgone. }
  rewrite Hsecond. cbn [fst snd].
  split; [intros d Hd; split; [by apply Hgone | by apply Hnot]|].
  split; [intros ->; by destruct devices|].
  split; [intros -> Hne; by destruct devices|].
  split; [reflexivity | exact Hnot].
Qed.

(** The amended C3 at the two devices of the scenario: both records move
    in the first call, the second call moves nothing. *)
Lemma second_migration_moves_nothing_witness :
  let first := migrateSessions Scenarios.fixedNow Commits
                 Scenarios.pnIdentity Scenarios.lidIdentity
                 Scenarios.twoDevices in
  first.1 = Done {| migrated := 2; skipped := 0; total := 2 |} /\
  (migrateSessions (Scenarios.fixedNow + 1) Commits
     Scenarios.pnIdentity Scenarios.lidIdentity first.2).1
  = Done {| migrated := 0; skipped := 2; total := 2 |} /\
  ~ inBothKeyspaces first.2 "5511900000000" "abc123" 5.
Proof.
  intros first.
  assert (Hfirst : migrateSessions Scenarios.fixedNow Commits
                     Scenarios.pnIdentity Scenarios.lidIdentity
                     Scenarios.twoDevices
                   = (Done {| migrated := 2; skipped := 0; total := 2 |},
                      first.2)) by (vm_compute; reflexivity).
  destruct (second_migration_moves_nothing
              Scenarios.fixedNow (Scenarios.fixedNow + 1) Commits Commits
              Scenarios.pnIdentity Scenarios.lidIdentity
              Scenarios.twoDevices first.2
              {| migrated := 2; skipped := 0; total := 2 |}
              (ledgerConsistent_fresh Scenarios.fixedNow Scenarios.twoDevices
                 "5511900000000" eq_refl) Hfirst)
    as (Hafter & Hsecond & _).
  split; [vm_compute; reflexivity|].
  split; [exact (Hsecond eq_refl)|].
  apply Hafter. vm_compute. apply list_elem_of_further, list_elem_of_here.
Defined.

End MigratorFacts.

(* ===================================================================== *)
(** * Further properties                                                   *)
(* ===================================================================== *)

(** ** The activity tracker *)

Module TrackerExtras.
Import JS KeyStore ActivityTracker TrackerLifecycle TrackerHistory
  KeyStoreFacts TrackerFacts.

(** Reading one key through [keys.get(ns, [key])]. *)
Lemma get_single {V : Type} (m : gmap string V) (k : string) :
  KeyStore.get m [k] !! k = m !! k.
Proof.
  unfold KeyStore.get.
  destruct (m !! k) as [v|] eqn:E.
  - apply map_lookup_filter_Some. split; [exact E|].
    simpl. apply bool_decide_pack, list_elem_of_singleton. reflexivity.
  - apply map_lookup_filter_None. left. exact E.
Qed.

(** The fallback of [getLastActivity] when the buffer has no entry. *)
Lemma getLastActivity_from_disk config jid t store :
  enabled config = true ->
  truthyNum (activityCache t !! jid) = false ->
  getLastActivity config jid t (Returns store)
  = (lastActivityAt <$> sessionActivity store !! activityKey jid,
     [Get "session-activity" [activityKey jid]]).
Proof.
  intros Hen Hmiss. unfold getLastActivity. rewrite Hen. cbn [negb].
  rewrite Hmiss. by rewrite get_single.
Qed.

(** X1: under an enabled configuration, an activity recorded at a
    non-zero reading of the clock is what [getLastActivity] returns for
    that identity, without any call on the store (whether the store would
    answer or throw); for every other identity the answer is what it was
    before the recording. *)
Theorem recorded_activity_read_from_buffer
    (config : SessionActivityConfig) (now : Z) (jid : string)
    (t : Tracker) (disk : outcome KeyStore.t) :
  enabled config = true -> now ≠ 0 ->
  getLastActivity config jid (recordActivity config now jid t) disk
  = (Some now, []) /\
  forall other, other ≠ jid ->
    getLastActivity config other (recordActivity config now jid t) disk
    = getLastActivity config other t disk.
Proof.
  intros Hen Hnz. unfold getLastActivity, recordActivity. rewrite Hen. simpl.
  split.
  - rewrite lookup_insert_eq. simpl.
    rewrite (proj2 (Z.eqb_neq now 0) Hnz). reflexivity.
  - intros other Hne. by rewrite lookup_insert_ne.
Qed.

Lemma recorded_activity_read_from_buffer_witness :
  getLastActivity Scenarios.trackerOn "5511999999999@s.whatsapp.net"
    Scenarios.oneRecorded
    (Throws {| errName := "Error"; errMessage := "Disk read error" |})
  = (Some Scenarios.fixedNow, []).
Proof.
  apply (recorded_activity_read_from_buffer Scenarios.trackerOn
           Scenarios.fixedNow "5511999999999@s.whatsapp.net"
           makeSessionActivityTracker _ eq_refl).
  discriminate.
Defined.

(** X2: what was buffered when [stop()] runs is persisted: under an
    enabled configuration and a committing transaction, [stop()] disarms
    the timer and empties the buffer, and afterwards [getLastActivity]
    returns the buffered timestamp of every identity from the store, with
    one read, for the stopped tracker as for a new tracker on that
    store. *)
Theorem stop_persists_buffered_activity
    (config : SessionActivityConfig) (clock : nat -> Z)
    (r : Running) (store : KeyStore.t) (jid : string) (ts : Z) :
  enabled config = true ->
  coherent (tracker r) ->
  activityCache (tracker r) !! jid = Some ts ->
  let stopped := stop config clock Commits r store in
  flushInterval stopped.1.1 = None /\
  activityCache (tracker stopped.1.1) = ∅ /\
  getLastActivity config jid (tracker stopped.1.1) (Returns stopped.1.2)
  = (Some ts, [Get "session-activity" [activityKey jid]]) /\
  getLastActivity config jid makeSessionActivityTracker (Returns stopped.1.2)
  = (Some ts, [Get "session-activity" [activityKey jid]]).
Proof.
  intros Hen Hc Hjid stopped.
  assert (Hne : activityCache (tracker r) ≠ ∅).
  { intros He. rewrite He, lookup_empty in Hjid. discriminate. }
  assert (Hflush : flush config clock Commits (tracker r) store
                   = ({| activityCache := ∅; isDirty := false;
                         stats := {| totalUpdates := totalUpdates (stats (tracker r));
                                     totalFlushes := totalFlushes (stats (tracker r)) + 1;
                                     lastFlushAt := clock 1%nat;
                                     lastFlushDuration := clock 2%nat - clock 0%nat;
                                     cacheSize := 0 |} |},
                      applySet (SetSessionActivity (flushUpdates (activityCache (tracker r)))) store,
                      [Transaction "session-activity-flush"
                         [SetSessionActivity (flushUpdates (activityCache (tracker r)))]])).
  { unfold flush. rewrite (flush_guard _ _ Hen Hc).
    rewrite bool_decide_eq_false_2 by done. reflexivity. }
  subst stopped. unfold stop. rewrite Hflush. cbn [fst snd tracker flushInterval].
  split; [reflexivity|]. split; [reflexivity|].
  assert (Hstored : lastActivityAt <$>
            sessionActivity
              (applySet (SetSessionActivity (flushUpdates (activityCache (tracker r))))
                 store) !! activityKey jid = Some ts).
  { simpl. rewrite lookup_applyUpdates, lookup_flushUpdates, Hjid. reflexivity. }
  split.
  - rewrite getLastActivity_from_disk; [by rewrite Hstored | done | ].
    simpl. by rewrite lookup_empty.
  - rewrite getLastActivity_from_disk; [by rewrite Hstored | done | ].
    simpl. by rewrite lookup_empty.
Qed.

Lemma stop_persists_buffered_activity_witness :
  let stopped := stop Scenarios.trackerOn Scenarios.steadyClock Commits
                   {| tracker := Scenarios.oneRecorded; flushInterval := None |}
                   Scenarios.emptyStore in
  getLastActivity Scenarios.trackerOn "5511999999999@s.whatsapp.net"
    makeSessionActivityTracker (Returns stopped.1.2)
  = (Some Scenarios.fixedNow,
     [Get "session-activity" [activityKey "5511999999999@s.whatsapp.net"]]).
Proof.
  intros stopped.
  exact (proj2 (proj2 (proj2
    (stop_persists_buffered_activity Scenarios.trackerOn Scenarios.steadyClock
       {| tracker := Scenarios.oneRecorded; flushInterval := None |}
       Scenarios.emptyStore "5511999999999@s.whatsapp.net" Scenarios.fixedNow
       eq_refl (fun _ => eq_refl) eq_refl)))).
Defined.

(** *** The merged view *)

Lemma substring_all (s : string) : String.substring 0 (String.length s) s = s.
Proof. induction s as [|c s IH]; simpl; [reflexivity | by rewrite IH]. Qed.

Lemma prefix_append (p s : string) : String.prefix p (p +:+ s) = true.
Proof.
  induction p as [|c p IH]; simpl; [by destruct s|].
  destruct (ascii_dec c c); [exact IH | done].
Qed.

Lemma substring_append (p s : string) :
  String.substring (String.length p)
    (String.length (p +:+ s) - String.length p) (p +:+ s) = s.
Proof.
  induction p as [|c p IH]; simpl.
  - rewrite Nat.sub_0_r. apply substring_all.
  - exact IH.
Qed.

Lemma prefix_split (p k : string) :
  String.prefix p k = true ->
  k = p +:+ String.substring (String.length p)
              (String.length k - String.length p) k.
Proof.
  revert k. induction p as [|c p IH]; intros k H; simpl.
  - rewrite Nat.sub_0_r. symmetry. apply substring_all.
  - destruct k as [|c' k]; [discriminate|]. simpl in H.
    destruct (ascii_dec c c') as [<-|]; [|discriminate].
    change (String c p +:+ ?x) with (String c (p +:+ x)).
    f_equal. by apply IH.
Qed.

(** The loop over the entries of the store, one entry at a time. *)
Lemma collectEntry_lookup result key metadata jid :
  collectEntry result (key, metadata) !! jid =
  if bool_decide (key = activityKey jid) then
    if lastActivityAt metadata =? 0 then result !! jid
    else Some (lastActivityAt metadata)
  else result !! jid.
Proof.
  unfold collectEntry, startsWith, truthyNum.
  case_bool_decide as Hk.
  - subst key. unfold activityKey at 1. rewrite prefix_append.
    unfold activityKey. rewrite substring_append.
    destruct (lastActivityAt metadata =? 0); cbn [negb];
      [reflexivity | apply lookup_insert_eq].
  - destruct (String.prefix keyPrefix key) eqn:Hp; [|reflexivity].
    destruct (lastActivityAt metadata =? 0); cbn [negb]; [reflexivity|].
    apply lookup_insert_ne. intros Hj. apply Hk.
    rewrite (prefix_split keyPrefix key Hp) at 1. rewrite Hj. reflexivity.
Qed.

Lemma collect_fold_lookup (l : list (string * SessionActivityMetadata))
    (acc : gmap string Z) (jid : string) :
  NoDup l.*1 ->
  foldl collectEntry acc l !! jid =
  match (list_to_map l : gmap string SessionActivityMetadata) !! activityKey jid with
  | Some metadata =>
      if lastActivityAt metadata =? 0 then acc !! jid
      else Some (lastActivityAt metadata)
  | None => acc !! jid
  end.
Proof.
  revert acc. induction l as [|[k md] l IH]; intros acc Hnd; [reflexivity|].
  apply NoDup_cons in Hnd as [Hk Hnd]. cbn [foldl list_to_map foldr curry].
  rewrite (IH _ Hnd), collectEntry_lookup.
  destruct (decide (k = activityKey jid)) as [->|Hne].
  - rewrite lookup_insert_eq, bool_decide_eq_true_2 by done.
    rewrite (not_elem_of_list_to_map_1 l (activityKey jid)) by done.
    reflexivity.
  - rewrite lookup_insert_ne, bool_decide_eq_false_2 by done. reflexivity.
Qed.

(** Merging the buffer into the result: the buffer wins. *)
Lemma merge_buffer_lookup (result cache : gmap string Z) (jid : string) :
  map_fold (fun j timestamp acc => <[j := timestamp]> acc) result cache !! jid
  = match cache !! jid with
    | Some timestamp => Some timestamp
    | None => result !! jid
    end.
Proof.
  apply (map_fold_weak_ind
           (fun r (c : gmap string Z) =>
              r !! jid = match c !! jid with
                         | Some timestamp => Some timestamp
                         | None => result !! jid
                         end)).
  - by rewrite lookup_empty.
  - intros j x m r Hfresh IH.
    destruct (decide (j = jid)) as [->|Hne].
    + by rewrite !lookup_insert_eq.
    + by rewrite !lookup_insert_ne.
Qed.

(** X3: the merged view of [getAllActivities] under an enabled
    configuration. When the store answers, an identity maps to its
    buffered timestamp if the buffer has one, else to the timestamp the
    store holds under the identity's key when that timestamp is not zero,
    else to nothing; keys of the namespace without the
    ["session-activity:"] prefix play no part. When the read of the store
    throws, the view is empty, buffered entries included. *)
Theorem merged_view_buffer_wins
    (config : SessionActivityConfig) (t : Tracker) (store : KeyStore.t) :
  enabled config = true ->
  (forall jid,
     (getAllActivities config t (Returns store)).1 !! jid
     = match activityCache t !! jid with
       | Some timestamp => Some timestamp
       | None => persistedActivity store jid
       end) /\
  (forall e, (getAllActivities config t (Throws e)).1 = ∅).
Proof.
  intros Hen. unfold getAllActivities. rewrite Hen. cbn [negb fst].
  split; [|reflexivity].
  intros jid. rewrite merge_buffer_lookup.
  destruct (activityCache t !! jid); [reflexivity|].
  unfold KeyStore.get.
  rewrite collect_fold_lookup by apply NoDup_fst_map_to_list.
  rewrite list_to_map_to_list, lookup_empty. unfold persistedActivity.
  destruct (sessionActivity store !! activityKey jid) as [md|]; [|reflexivity].
  destruct (lastActivityAt md =? 0); reflexivity.
Qed.

Lemma merged_view_buffer_wins_witness :
  (getAllActivities Scenarios.trackerOn Scenarios.oneRecorded
     (Returns Scenarios.storeWithActivity)).1 !! "5511888888888@s.whatsapp.net"
  = Some 1699999000000.
Proof.
  rewrite (proj1 (merged_view_buffer_wins Scenarios.trackerOn
                    Scenarios.oneRecorded Scenarios.storeWithActivity eq_refl)).
  reflexivity.
Defined.

(** *** Flushing twice *)

(** X4: a flush that follows a flush whose transaction committed does
    nothing: it makes no call on the store and leaves tracker and store as
    they are, whatever its own transaction would do; so what one
    committed flush wrote is not written again. *)
Theorem flush_after_commit_is_noop
    (config : SessionActivityConfig) (clock clock' : nat -> Z)
    (tx : TxOutcome) (t : Tracker) (store : KeyStore.t) :
  let first := flush config clock Commits t store in
  flush config clock' tx first.1.1 first.1.2 = (first.1.1, first.1.2, []).
Proof.
  unfold flush.
  destruct (negb (enabled config) || negb (isDirty t)
            || (size (activityCache t) =? 0)%nat) eqn:Hguard.
  - cbn [fst snd]. rewrite Hguard. reflexivity.
  - cbn [fst snd KeyStore.transaction isDirty negb]. 
    rewrite orb_true_r. reflexivity.
Qed.

(** *** Histories *)

Lemma statsCoherent_recordActivity config now jid t :
  statsCoherent t -> statsCoherent (recordActivity config now jid t).
Proof.
  unfold recordActivity, statsCoherent.
  destruct (enabled config); simpl; [reflexivity | done].
Qed.

Lemma statsCoherent_flush config clock tx t store :
  statsCoherent t -> statsCoherent (flush config clock tx t store).1.1.
Proof.
  unfold flush, statsCoherent.
  destruct (negb (enabled config) || negb (isDirty t)
            || (size (activityCache t) =? 0)%nat); simpl; [done|].
  destruct tx; simpl; [|done]. by rewrite map_size_empty.
Qed.

Lemma totalUpdates_flush config clock tx t store :
  totalUpdates (stats (flush config clock tx t store).1.1)
  = totalUpdates (stats t).
Proof.
  unfold flush.
  destruct (negb (enabled config) || negb (isDirty t)
            || (size (activityCache t) =? 0)%nat); simpl; [done|].
  by destruct tx.
Qed.

Lemma totalUpdates_recordActivity config now jid t :
  totalUpdates (stats (recordActivity config now jid t))
  = totalUpdates (stats t) + if enabled config then 1 else 0.
Proof.
  unfold recordActivity. destruct (enabled config); simpl; lia.
Qed.

Lemma history_from_any_state config ops (s : Tracker * KeyStore.t) :
  coherent s.1 -> statsCoherent s.1 ->
  let s' := foldl (step config) s ops in
  coherent s'.1 /\ statsCoherent s'.1 /\
  totalUpdates (stats s'.1)
  = totalUpdates (stats s.1)
    + if enabled config
      then Z.of_nat (length (filter (fun op => isRecord op = true) ops))
      else 0.
Proof.
  revert s. induction ops as [|op ops IH]; intros s Hc Hs; cbn [foldl].
  - repeat split; try done. rewrite filter_nil. destruct (enabled config); simpl; lia.
  - destruct (IH (step config s op)) as (Hc' & Hs' & Hn).
    + destruct op; simpl;
        [by apply coherent_recordActivity | by apply coherent_flush].
    + destruct op; simpl;
        [by apply statsCoherent_recordActivity | by apply statsCoherent_flush].
    + split; [exact Hc'|]. split; [exact Hs'|]. rewrite Hn.
      destruct op as [now jid | clock tx]; cbn [step fst snd].
      * rewrite totalUpdates_recordActivity, filter_cons_True by done.
        destruct (enabled config); cbn [length]; lia.
      * rewrite totalUpdates_flush, filter_cons_False by done. lia.
Qed.

(** X5: after any history of recordings and flushes on a new tracker,
    failed flushes included, the buffer is dirty whenever it holds an
    entry, the [cacheSize] statistic is the number of buffered identities,
    and [totalUpdates] is the number of recordings made (none under a
    disabled configuration). *)
Theorem history_keeps_buffer_and_statistics_in_step
    (config : SessionActivityConfig) (store : KeyStore.t) (ops : list Op) :
  let t := (execute config store ops).1 in
  coherent t /\
  cacheSize (stats t) = Z.of_nat (size (activityCache t)) /\
  totalUpdates (stats t)
  = if enabled config
    then Z.of_nat (length (filter (fun op => isRecord op = true) ops))
    else 0.
Proof.
  intros t. subst t. unfold execute.
  destruct (history_from_any_state config ops (makeSessionActivityTracker, store))
    as (Hc & Hs & Hn); [apply coherent_initial | reflexivity |].
  split; [exact Hc|]. split; [exact Hs|]. rewrite Hn. cbn [fst].
  change (totalUpdates (stats makeSessionActivityTracker)) with 0. lia.
Qed.

Lemma flush_store_frame config clock tx t store :
  let store' := (flush config clock tx t store).1.2 in
  session store' = session store /\
  (forall k, is_Some (sessionActivity store !! k) ->
             is_Some (sessionActivity store' !! k)) /\
  (forall k, String.prefix keyPrefix k = false ->
             sessionActivity store' !! k = sessionActivity store !! k).
Proof.
  unfold flush.
  destruct (negb (enabled config) || negb (isDirty t)
            || (size (activityCache t) =? 0)%nat); simpl; [done|].
  destruct tx; simpl; [|done].
  split; [reflexivity|]. split.
  - intros k Hk. rewrite lookup_applyUpdates.
    destruct (flushUpdates (activityCache t) !! k) as [w|] eqn:E; [|exact Hk].
    unfold flushUpdates in E.
    apply lookup_kmap_Some in E as (jid & -> & E); [|apply _].
    rewrite lookup_fmap in E.
    destruct (activityCache t !! jid); simpl in E; [|discriminate].
    injection E as <-. eauto.
  - intros k Hk. rewrite lookup_applyUpdates, lookup_flushUpdates_other; [done|].
    intros jid _ ->. unfold activityKey in Hk.
    by rewrite prefix_append in Hk.
Qed.

(** X6: whatever the history of recordings and flushes, the tracker never
    changes the [session] namespace, never removes an activity record the
    store held, and never changes a key of the activity namespace that
    does not start with ["session-activity:"]. *)
Theorem history_confined_to_activity_keys
    (config : SessionActivityConfig) (store : KeyStore.t) (ops : list Op) :
  let store' := (execute config store ops).2 in
  session store' = session store /\
  (forall k, is_Some (sessionActivity store !! k) ->
             is_Some (sessionActivity store' !! k)) /\
  (forall k, String.prefix keyPrefix k = false ->
             sessionActivity store' !! k = sessionActivity store !! k).
Proof.
  unfold execute. generalize makeSessionActivityTracker as t.
  revert store. induction ops as [|op ops IH]; intros store t; cbn [foldl].
  - done.
  - destruct op as [now jid | clock tx]; cbn [step fst snd].
    + apply IH.
    + pose proof (flush_store_frame config clock tx t store) as (H1 & H2 & H3).
      cbv zeta in H1, H2, H3.
      destruct (flush config clock tx t store) as [[t1 store1] calls].
      cbn [fst snd] in *.
      destruct (IH store1 t1) as (I1 & I2 & I3).
      split; [by rewrite I1|]. split.
      * intros k Hk. by apply I2, H2.
      * intros k Hk. by rewrite I3, H3.
Qed.

Lemma start_frame config clock tx r store :
  let started := start config clock tx r store in
  enabled config = true -> is_Some (flushInterval started.1.1).
Proof.
  unfold start. intros Hen. rewrite Hen. cbn [negb].
  destruct (flushInterval r) as [p|] eqn:E; [cbn; rewrite E; eauto|].
  destruct (flush config clock tx (tracker r) store) as [[t' s'] c]. cbn. eauto.
Qed.

(** X7: [start()] is guarded. A second [start()] after a first one arms
    no second timer, makes no flush and no call on the store, whatever the
    configuration; under a disabled configuration [start()] arms nothing
    at all. *)
Theorem start_twice_arms_one_timer
    (config : SessionActivityConfig) (clock clock' : nat -> Z)
    (tx tx' : TxOutcome) (r : Running) (store : KeyStore.t) :
  let started := start config clock tx r store in
  start config clock' tx' started.1.1 started.1.2
  = (started.1.1, started.1.2, []) /\
  (enabled config = false -> started = (r, store, [])).
Proof.
  intros started. split.
  - destruct (enabled config) eqn:Hen.
    + pose proof (start_frame config clock tx r store Hen) as [p Hp].
      fold started in Hp. unfold start at 1. rewrite Hen, Hp. reflexivity.
    + unfold start at 1. rewrite Hen. reflexivity.
  - intros Hoff. subst started. unfold start. rewrite Hoff. reflexivity.
Qed.

End TrackerExtras.

(** ** The cleanup scheduler *)

Module CleanupExtras.
Import JS KeyStore SessionCleanup KeyStoreFacts CleanupFacts.

(** *** The guards of a run *)

Lemma run_releases config env st store :
  enabled config = true -> cleanupRunning st = false ->
  cleanupRunning (runState (runCleanup config env st store)) = false /\
  Get "session" [] ∈ runCalls (runCleanup config env st store).
Proof.
  intros Hen Hidle. rewrite runCalls_eq, Hen, Hidle. cbn [negb andb].
  split.
  - unfold runCleanup. rewrite Hen, Hidle. cbn [negb].
    destruct (loadActivities env) as [am|e]; [|reflexivity].
    destruct (0 <? length _)%nat; [|reflexivity].
    destruct (txOutcome env); reflexivity.
  - destruct (runSelected _); apply elem_of_cons; by left.
Qed.

(** X8: the re-entrancy guard. A run that finds cleanup disabled or
    another run in progress returns zeroed statistics without reading or
    writing the store and leaves the manager's state as it is. Every other
    run reads the store and ends with [cleanupRunning] false, also when the
    activity tracker throws or the deletion fails, so that the next trigger
    is not skipped. *)
Theorem run_guard_skips_and_is_released
    (config : SessionCleanupConfig) (env : Env) (st : State)
    (store : KeyStore.t) :
  let r := runCleanup config env st store in
  (enabled config = false \/ cleanupRunning st = true ->
   r = {| runStats := emptyStats; runState := st; runStore := store;
          runCalls := []; runSelected := [] |}) /\
  (enabled config = true -> cleanupRunning st = false ->
   cleanupRunning (runState r) = false /\
   Get "session" [] ∈ runCalls r /\
   forall env',
     Get "session" [] ∈
       runCalls (runCleanup config env' (runState r) (runStore r))).
Proof.
  intros r. split.
  - subst r. unfold runCleanup. intros [-> | Hrun]; [reflexivity|].
    rewrite Hrun. by destruct (enabled config).
  - intros Hen Hidle.
    destruct (run_releases config env st store Hen Hidle) as [Hrel Hget].
    split; [exact Hrel|]. split; [exact Hget|].
    intros env'. by apply run_releases.
Qed.

Lemma run_guard_skips_and_is_released_witness :
  runCleanup Scenarios.cleanupConfig Scenarios.mixedEnv
    {| lastCleanupAt := 0; cleanupRunning := true |} Scenarios.mixedStore
  = {| runStats := emptyStats;
       runState := {| lastCleanupAt := 0; cleanupRunning := true |};
       runStore := Scenarios.mixedStore; runCalls := []; runSelected := [] |}.
Proof.
  apply (proj1 (run_guard_skips_and_is_released Scenarios.cleanupConfig
                  Scenarios.mixedEnv
                  {| lastCleanupAt := 0; cleanupRunning := true |}
                  Scenarios.mixedStore)).
  right. reflexivity.
Defined.

(** *** Failures inside a run *)

Lemma scan_fold_errors_eq config env am keys acc :
  errors (scanStats (foldl (scanStep config env am) acc keys))
  = errors (scanStats acc)
    + Z.of_nat (length (filter (fun k => parseSessionMetadata env k = None) keys)).
Proof.
  revert acc. induction keys as [|k keys IH]; intros acc; cbn [foldl].
  - rewrite filter_nil. simpl. lia.
  - rewrite IH, scanStep_errors.
    destruct (parseSessionMetadata env k) as [m|] eqn:E.
    + rewrite filter_cons_False by (rewrite E; done). lia.
    + rewrite filter_cons_True by done. cbn [length]. lia.
Qed.

(** X9: a failing read of the session store is swallowed: the run scans
    nothing, selects and deletes nothing, leaves the store as it is, and,
    when the tracker answers, reports no error at all. *)
Theorem failed_read_scans_nothing
    (config : SessionCleanupConfig) (env : Env) (st : State)
    (store : KeyStore.t) :
  enabled config = true -> cleanupRunning st = false ->
  getThrows env = true ->
  let r := runCleanup config env st store in
  runSelected r = [] /\ runStore r = store /\
  totalScanned (runStats r) = 0 /\ totalDeleted (runStats r) = 0 /\
  (forall am, loadActivities env = Returns am ->
     errors (runStats r) = 0 /\ runCalls r = [Get "session" []]).
Proof.
  intros Hen Hidle Hget r. subst r. unfold runCleanup.
  rewrite Hen, Hidle. cbn [negb].
  unfold getAllSessionKeys. rewrite Hget.
  destruct (loadActivities env) as [am|e]; cbn;
    repeat split; try reflexivity; try discriminate.
Qed.

Lemma failed_read_scans_nothing_witness :
  let env := {| getThrows := true;
                getPNForLID := fun _ => Returns None;
                sessionActivityTracker := None;
                txOutcome := Commits;
                clockStart := 0; clockAt := fun _ => 0;
                clockEnd := 0; clockDuration := 0 |} in
  runStore (runCleanup Scenarios.cleanupConfig env Scenarios.idle
              Scenarios.mixedStore) = Scenarios.mixedStore.
Proof.
  intros env.
  exact (proj1 (proj2 (failed_read_scans_nothing Scenarios.cleanupConfig env
                         Scenarios.idle Scenarios.mixedStore
                         eq_refl eq_refl eq_refl))).
Defined.

(** X10: the [errors] statistic of a run that scans (cleanup enabled, no
    other run in progress, the tracker answers) counts the session keys
    whose metadata cannot be parsed, plus one when the deletion
    transaction fails; a run abandoned because the tracker throws reports
    one error. *)
Theorem errors_count_unparsed_keys_and_failed_deletion
    (config : SessionCleanupConfig) (env : Env) (st : State)
    (store : KeyStore.t) :
  enabled config = true -> cleanupRunning st = false ->
  let r := runCleanup config env st store in
  let unparsed :=
    filter (fun k => parseSessionMetadata env k = None)
      (getAllSessionKeys env store) in
  (forall am, loadActivities env = Returns am ->
     errors (runStats r)
     = Z.of_nat (length unparsed)
       + match txOutcome env, runSelected r with
         | Aborts, _ :: _ => 1
         | _, _ => 0
         end) /\
  (forall e, loadActivities env = Throws e ->
     errors (runStats r) = 1 /\ runSelected r = [] /\ runStore r = store).
Proof.
  intros Hen Hidle r unparsed. split.
  - intros am Hact. subst r.
    pose proof (runStats_errors config env st store) as H. cbv zeta in H.
    rewrite H, Hen, Hidle, Hact. cbn [negb andb].
    unfold scan. rewrite scan_fold_errors_eq. cbn. reflexivity.
  - intros e Hact. subst r. unfold runCleanup.
    rewrite Hen, Hidle, Hact. cbn. done.
Qed.

Lemma errors_count_unparsed_keys_and_failed_deletion_witness :
  errors (runStats (runCleanup Scenarios.cleanupConfig
                      (Scenarios.orphanUntracked Aborts) Scenarios.idle
                      {| session := {[ "123456789_2.0" := "session-data";
                                       ".0" := "session-data" ]};
                         sessionActivity := ∅ |}))
  = 2.
Proof.
  rewrite (proj1 (errors_count_unparsed_keys_and_failed_deletion
                    Scenarios.cleanupConfig (Scenarios.orphanUntracked Aborts)
                    Scenarios.idle _ eq_refl eq_refl) ∅ eq_refl).
  vm_compute. reflexivity.
Defined.

(** *** What a run leaves in the store *)

(** X11: a run only deletes. Every session record found after a run was
    there before with the same content, every record that disappeared was
    selected by the run, and the activity namespace is not touched. *)
Theorem run_only_deletes_selected_sessions
    (config : SessionCleanupConfig) (env : Env) (st : State)
    (store : KeyStore.t) :
  let r := runCleanup config env st store in
  (forall k v, session (runStore r) !! k = Some v -> session store !! k = Some v) /\
  (forall k, is_Some (session store !! k) ->
             session (runStore r) !! k = None ->
             k ∈ runSelected r /\ txOutcome env = Commits) /\
  sessionActivity (runStore r) = sessionActivity store.
Proof.
  intros r. subst r. split; [|split].
  - intros k v. rewrite runStore_session.
    destruct (txOutcome env); [|done]. by case_bool_decide.
  - intros k [v Hv]. rewrite runStore_session, Hv.
    destruct (txOutcome env); [|done]. by case_bool_decide.
  - apply runStore_sessionActivity.
Qed.

Lemma filter_none {A : Type} (P : A -> Prop) `{!forall x, Decision (P x)}
    (l : list A) :
  (forall x, x ∈ l -> ~ P x) -> filter P l = [].
Proof.
  induction l as [|x l IH]; intros Hall; [reflexivity|].
  rewrite filter_cons_False by (apply Hall, elem_of_cons; by left).
  apply IH. intros y Hy. apply Hall, elem_of_cons. by right.
Qed.

Lemma runStore_nothing_selected config env st store :
  runSelected (runCleanup config env st store) = [] ->
  runStore (runCleanup config env st store) = store /\
  totalDeleted (runStats (runCleanup config env st store)) = 0.
Proof.
  unfold runCleanup.
  destruct (enabled config); cbn [negb]; [|done].
  destruct (cleanupRunning st); [done|].
  destruct (loadActivities env) as [am|e]; [|done].
  destruct (0 <? length _)%nat eqn:Hlen; [|done].
  destruct (txOutcome env); cbn; intros Hnil;
    rewrite Hnil in Hlen; discriminate.
Qed.

(** X12: cleanup is idempotent in an unchanged environment. After a run
    whose deletion committed, a second run with the same answers of the
    collaborators and the same clock readings selects nothing, deletes
    nothing and leaves the store as the first run left it. After a run
    whose deletion failed, the second run selects the same keys again. *)
Theorem second_run_selects_nothing
    (config : SessionCleanupConfig) (env : Env) (st : State)
    (store : KeyStore.t) :
  enabled config = true -> cleanupRunning st = false ->
  let first := runCleanup config env st store in
  let second := runCleanup config env (runState first) (runStore first) in
  (txOutcome env = Commits ->
   runSelected second = [] /\ runStore second = runStore first /\
   totalDeleted (runStats second) = 0) /\
  (txOutcome env = Aborts -> runSelected second = runSelected first).
Proof.
  intros Hen Hidle first second.
  destruct (run_releases config env st store Hen Hidle) as [Hrel _].
  fold first in Hrel.
  split.
  - intros Htx.
    assert (Hnil : runSelected second = []).
    { subst second. rewrite runSelected_eq, Hen, Hrel. cbn [negb andb].
      destruct (loadActivities env) as [am|e] eqn:Hact; [|reflexivity].
      apply filter_none. intros k Hk Hsel.
      apply elem_of_getAllSessionKeys in Hk as [Hget [v Hv]].
      subst first. rewrite runStore_session, Htx in Hv.
      destruct (bool_decide (k ∈ runSelected (runCleanup config env st store)))
        eqn:Hin; [discriminate|].
      apply bool_decide_eq_false in Hin.
      apply Hin.
      apply (proj2 (runSelected_iff config env st store am k Hen Hidle Hget Hact)).
      split; [rewrite Hv; eauto | exact Hsel]. }
    split; [exact Hnil|]. by apply runStore_nothing_selected.
  - intros Htx. subst second.
    rewrite (runSelected_eq config env (runState first)), Hen, Hrel.
    subst first. rewrite (runStore_aborted config env st store Htx).
    by rewrite runSelected_eq, Hen, Hidle.
Qed.

Lemma second_run_selects_nothing_witness :
  let first := runCleanup Scenarios.cleanupConfig Scenarios.mixedEnv
                 Scenarios.idle Scenarios.mixedStore in
  runSelected (runCleanup Scenarios.cleanupConfig Scenarios.mixedEnv
                 (runState first) (runStore first)) = [].
Proof.
  intros first.
  exact (proj1 (proj1 (second_run_selects_nothing Scenarios.cleanupConfig
                         Scenarios.mixedEnv Scenarios.idle Scenarios.mixedStore
                         eq_refl eq_refl) eq_refl)).
Defined.

(** X13: a manager built without activity tracker ([null]) selects exactly
    the stored orphans: the long-lived-id records whose reverse lookup
    answered that there is no phone number. No other record is ever
    selected, whatever its age. *)
Theorem without_tracker_only_orphans_selected
    (config : SessionCleanupConfig) (env : Env) (st : State)
    (store : KeyStore.t) (k : string) :
  enabled config = true -> cleanupRunning st = false ->
  getThrows env = false -> sessionActivityTracker env = None ->
  k ∈ runSelected (runCleanup config env st store)
  <-> is_Some (session store !! k) /\
      exists m, parseSessionMetadata env k = Some m /\
                isLID m = true /\ hasLIDMapping m = Some false.
Proof.
  intros Hen Hidle Hget Hnull.
  assert (Hact : loadActivities env = Returns ∅)
    by (unfold loadActivities; by rewrite Hnull).
  rewrite (runSelected_iff config env st store ∅ k) by done.
  unfold selects.
  destruct (parseSessionMetadata env k) as [m|] eqn:Hparse.
  - rewrite decision_untracked by (simpl; by rewrite lookup_empty).
    change (isLID (withActivity ∅ m) && mappingIsFalse (withActivity ∅ m))
      with (isLID m && mappingIsFalse m).
    unfold mappingIsFalse. split.
    + intros [Hin Hdec]. split; [done|]. exists m.
      apply andb_true_iff in Hdec as [Hl Hm].
      destruct (hasLIDMapping m) as [[]|]; done.
    + intros [Hin (m' & [= <-] & Hl & Hm)]. by rewrite Hl, Hm.
  - split; [intros [_ ?]; discriminate | intros [_ (m & ? & _)]; discriminate].
Qed.

Lemma without_tracker_only_orphans_selected_witness :
  "5511999999999_0.1" ∉
    runSelected (runCleanup Scenarios.cleanupConfig
                   (SessionCleanupV1.withoutTracker Scenarios.mixedEnv)
                   Scenarios.idle Scenarios.mixedStore).
Proof.
  intros Hsel.
  apply (without_tracker_only_orphans_selected Scenarios.cleanupConfig
           (SessionCleanupV1.withoutTracker Scenarios.mixedEnv) Scenarios.idle
           Scenarios.mixedStore "5511999999999_0.1"
           eq_refl eq_refl eq_refl eq_refl) in Hsel
    as [_ (m & Hparse & Hlid & _)].
  vm_compute in Hparse. injection Hparse as <-. discriminate Hlid.
Defined.

(** *** The first version *)

Lemma parse_has_no_activity env k m :
  parseSessionMetadata env k = Some m ->
  lastActivityMs m = None /\ createdAtMs m = None.
Proof.
  unfold parseSessionMetadata.
  repeat match goal with
         | |- context [if ?b then _ else _] => destruct b
         | |- context [match getPNForLID ?e ?j with _ => _ end] =>
             destruct (getPNForLID e j)
         end; try discriminate; by intros [= <-].
Qed.

Lemma withActivity_empty env k m :
  parseSessionMetadata env k = Some m -> withActivity ∅ m = m.
Proof.
  intros H. apply parse_has_no_activity in H as [H1 H2].
  unfold withActivity. rewrite lookup_empty. destruct m; simpl in *.
  by subst.
Qed.

Lemma first_version_decision config m now :
  lastActivityMs m = None ->
  (shouldCleanupSession config m now).1
  = (SessionCleanupV1.shouldCleanupSession config m now).1.
Proof.
  intros H. rewrite decision_untracked by (by rewrite H).
  unfold SessionCleanupV1.shouldCleanupSession.
  destruct (isLID m && mappingIsFalse m), (isPrimary m); reflexivity.
Qed.

Lemma first_version_step config env acc acc1 k :
  scanStats acc = scanStats acc1 ->
  sessionsToDelete acc = sessionsToDelete acc1 ->
  let s := scanStep config (SessionCleanupV1.withoutTracker env) ∅ acc k in
  let s1 := SessionCleanupV1.scanStep config env acc1 k in
  scanStats s = scanStats s1 /\ sessionsToDelete s = sessionsToDelete s1.
Proof.
  intros Hs Hl. unfold scanStep, SessionCleanupV1.scanStep.
  change (parseSessionMetadata (SessionCleanupV1.withoutTracker env) k)
    with (parseSessionMetadata env k).
  change (clockAt (SessionCleanupV1.withoutTracker env) k) with (clockAt env k).
  destruct (parseSessionMetadata env k) as [m|] eqn:Hparse; cbn.
  - rewrite (withActivity_empty env k m Hparse).
    pose proof (first_version_decision config m (clockAt env k)
                  (proj1 (parse_has_no_activity env k m Hparse))) as Hdec.
    destruct (shouldCleanupSession config m (clockAt env k)) as [c reason].
    destruct (SessionCleanupV1.shouldCleanupSession config m (clockAt env k))
      as [c1 reason1].
    cbn in Hdec. subst c1. destruct c; cbn; [|done].
    by rewrite Hs, Hl.
  - by rewrite Hs, Hl.
Qed.

Lemma first_version_scan config env stats keys :
  let s := scan config (SessionCleanupV1.withoutTracker env) ∅ stats keys in
  let s1 := SessionCleanupV1.scan config env stats keys in
  scanStats s = scanStats s1 /\ sessionsToDelete s = sessionsToDelete s1.
Proof.
  unfold scan, SessionCleanupV1.scan.
  assert (Hgen : forall acc acc1,
            scanStats acc = scanStats acc1 ->
            sessionsToDelete acc = sessionsToDelete acc1 ->
            scanStats (foldl (scanStep config (SessionCleanupV1.withoutTracker env) ∅) acc keys)
            = scanStats (foldl (SessionCleanupV1.scanStep config env) acc1 keys) /\
            sessionsToDelete (foldl (scanStep config (SessionCleanupV1.withoutTracker env) ∅) acc keys)
            = sessionsToDelete (foldl (SessionCleanupV1.scanStep config env) acc1 keys)).
  { induction keys as [|k keys IH]; intros acc acc1 Hs Hl; cbn [foldl]; [done|].
    destruct (first_version_step config env acc acc1 k Hs Hl) as [Hs' Hl'].
    by apply IH. }
  by apply Hgen.
Qed.

(** X14: the manager with activity tracking, built without a tracker
    ([null]), behaves as the first version of the module does: for every
    configuration, environment, state and store the two [runCleanup]
    return the same statistics, select the same keys, make the same calls
    and leave the same state and store. *)
Theorem without_tracker_runs_as_first_version
    (config : SessionCleanupConfig) (env : Env) (st : State)
    (store : KeyStore.t) :
  runCleanup config (SessionCleanupV1.withoutTracker env) st store
  = SessionCleanupV1.runCleanup config env st store.
Proof.
  unfold runCleanup, SessionCleanupV1.runCleanup.
  destruct (enabled config); cbn [negb]; [|reflexivity].
  destruct (cleanupRunning st); [reflexivity|].
  change (loadActivities (SessionCleanupV1.withoutTracker env)) with
    (@Returns (gmap string Z) ∅).
  change (getAllSessionKeys (SessionCleanupV1.withoutTracker env) store)
    with (getAllSessionKeys env store).
  cbn iota.
  destruct (first_version_scan config env
              (setTotals emptyStats
                 (Z.of_nat (length (getAllSessionKeys env store))) 0 0)
              (getAllSessionKeys env store)) as [Hs Hl].
  cbv zeta in Hs, Hl. rewrite Hs, Hl. reflexivity.
Qed.

(** *** Addresses that do not parse *)

Lemma split_nonempty sep s : split sep s <> [].
Proof.
  destruct s as [|c s]; cbn [split]; [done|].
  destruct (Ascii.eqb c sep); [done|]. by destruct (split sep s).
Qed.

Lemma split_head sep s :
  exists h t, split sep s = h :: t /\
    match s with
    | EmptyString => h = EmptyString
    | String c _ =>
        if Ascii.eqb c sep then h = EmptyString else exists h', h = String c h'
    end.
Proof.
  destruct s as [|c s]; cbn [split]; [by eexists _, _|].
  destruct (Ascii.eqb c sep); [by eexists _, _|].
  destruct (split sep s) as [|h t]; eexists _, _; split; eauto.
Qed.

Lemma startsWith_char k c :
  startsWith k (String c EmptyString) = true <-> exists r, k = String c r.
Proof.
  unfold startsWith. destruct k as [|c' r]; cbn [String.prefix].
  - split; [done|]. by intros [? ?].
  - destruct (ascii_dec c c') as [->|Hne].
    + split; [eauto|]. intros _. by destruct r.
    + split; [done|]. intros [r' [= <- _]]. done.
Qed.

(** X15: the session keys a scan cannot parse. When the reverse lookup of
    the mapping store does not throw, [parseSessionMetadata] returns null
    exactly for the empty address and for the addresses that begin with
    ["."] or ["_"] (those whose user part is empty); every other address,
    whatever follows its first character, yields metadata. Whatever the
    lookup does, the addresses of the first kind never parse. *)
Theorem parse_fails_exactly_on_empty_user
    (env : Env) (signalAddr : string)
    (Hlookup : forall j e, getPNForLID env j <> Throws e) :
  let emptyUser :=
    signalAddr = EmptyString \/ startsWith signalAddr "." = true
    \/ startsWith signalAddr "_" = true in
  (parseSessionMetadata env signalAddr = None <-> emptyUser) /\
  (forall env', emptyUser -> parseSessionMetadata env' signalAddr = None).
Proof.
  intros emptyUser. subst emptyUser. rewrite !startsWith_char.
  assert (Hnone : forall env',
    signalAddr = EmptyString \/ (exists r, signalAddr = String "."%char r)
    \/ (exists r, signalAddr = String "_"%char r) ->
    parseSessionMetadata env' signalAddr = None).
  { intros env' [->|[[r ->]|[r ->]]]; [reflexivity|reflexivity|].
    unfold parseSessionMetadata.
    destruct (split_head "."%char (String "_"%char r)) as (h & t & -> & Hh).
    cbn in Hh. destruct Hh as [h' ->]. cbn [lookup list_lookup truthyStr negb].
    reflexivity. }
  split; [|intros env' H; apply Hnone; by rewrite <- !startsWith_char].
  split; [|apply Hnone].
  intros Hparse. destruct signalAddr as [|c r]; [by left|]. right.
  destruct (Ascii.eqb c "."%char) eqn:Hdot.
  { apply Ascii.eqb_eq in Hdot as ->. left; eauto. }
  destruct (Ascii.eqb c "_"%char) eqn:Hund.
  { apply Ascii.eqb_eq in Hund as ->. right; eauto. }
  exfalso. revert Hparse. unfold parseSessionMetadata.
  destruct (split_head "."%char (String c r)) as (h & t & -> & Hh).
  cbn iota in Hh. rewrite Hdot in Hh. destruct Hh as [h' ->].
  cbn [lookup list_lookup truthyStr negb from_option id].
  destruct (split_head "_"%char (String c h')) as (u & t' & -> & Hu).
  cbn iota in Hu. rewrite Hund in Hu. destruct Hu as [u' ->].
  cbn [lookup list_lookup truthyStr negb from_option id].
  match goal with
  | |- context [if ?b then _ else _] => destruct b
  end; [|done].
  match goal with
  | |- context [getPNForLID ?e ?j] =>
      pose proof (Hlookup j) as Hl; destruct (getPNForLID e j)
  end; [done|]. by edestruct Hl.
Qed.

Lemma parse_fails_exactly_on_empty_user_witness :
  (parseSessionMetadata Scenarios.mappedLidStale "_2.0" = None <->
   ("_2.0" = EmptyString \/ startsWith "_2.0" "." = true
    \/ startsWith "_2.0" "_" = true)) /\
  (forall env',
     ("_2.0" = EmptyString \/ startsWith "_2.0" "." = true
      \/ startsWith "_2.0" "_" = true) ->
     parseSessionMetadata env' "_2.0" = None).
Proof.
  apply (parse_fails_exactly_on_empty_user Scenarios.mappedLidStale "_2.0").
  intros j e. discriminate.
Defined.

End CleanupExtras.

(* ===================================================================== *)
(** ** The decryption pipeline, further                                    *)
(* ===================================================================== *)

Module DecryptExtras.
Import JS Decrypt DecryptNodes DecryptFacts.

Lemma countCalls_app p xs ys :
  countCalls p (xs ++ ys)%list = (countCalls p xs + countCalls p ys)%nat.
Proof. unfold countCalls. by rewrite List.filter_app, length_app. Qed.

Lemma countCalls_replicate p n c :
  countCalls p (replicate n c) = if p c then n else 0%nat.
Proof.
  unfold countCalls. induction n as [|n IH]; cbn [replicate List.filter].
  - by destruct (p c).
  - destruct (p c); cbn [length]; [by rewrite IH | exact IH].
Qed.

(** Strings built by appending. *)

Lemma append_assoc (a b c : string) : (a +:+ b) +:+ c = a +:+ (b +:+ c).
Proof.
  induction a as [|x a IH]; [reflexivity|].
  change (String x a +:+ b) with (String x (a +:+ b)).
  change (String x (a +:+ b) +:+ c) with (String x ((a +:+ b) +:+ c)).
  change (String x a +:+ (b +:+ c)) with (String x (a +:+ (b +:+ c))).
  by rewrite IH.
Qed.

Lemma length_append (a b : string) :
  String.length (a +:+ b) = (String.length a + String.length b)%nat.
Proof.
  induction a as [|x a IH]; [reflexivity|].
  change (String x a +:+ b) with (String x (a +:+ b)).
  cbn [String.length]. by rewrite IH.
Qed.

Lemma eqb_length (s t : string) :
  String.length s <> String.length t -> String.eqb s t = false.
Proof. intros H. apply String.eqb_neq. by intros ->. Qed.

Lemma endsWith_refl (s : string) : endsWith s s = true.
Proof. destruct s; cbn [endsWith]; by rewrite String.eqb_refl. Qed.

Lemma endsWith_append (p s : string) : endsWith (p +:+ s) s = true.
Proof.
  induction p as [|x p IH]; [apply endsWith_refl|].
  change (String x p +:+ s) with (String x (p +:+ s)).
  cbn [endsWith]. rewrite IH. apply orb_true_r.
Qed.

(** A string that ends with [s] ends with [t], no longer than [s], only
    if [s] does. *)
Lemma endsWith_append_false (p s t : string) :
  (String.length t <= String.length s)%nat ->
  endsWith s t = false -> endsWith (p +:+ s) t = false.
Proof.
  intros Hlen Hs. induction p as [|x p IH]; [exact Hs|].
  change (String x p +:+ s) with (String x (p +:+ s)).
  cbn [endsWith]. rewrite IH, orb_false_r. apply eqb_length.
  cbn [String.length]. rewrite length_append. lia.
Qed.

Lemma endsWith_suffix (x t1 t2 : string) :
  endsWith x (t1 +:+ t2) = true -> endsWith x t2 = true.
Proof.
  induction x as [|c x IH]; intros H; cbn [endsWith] in H;
    apply orb_true_iff in H as [H|H]; try done.
  - apply String.eqb_eq in H. rewrite H. apply endsWith_append.
  - apply String.eqb_eq in H. rewrite H. apply endsWith_append.
  - apply IH in H. cbn [endsWith]. rewrite H. apply orb_true_r.
Qed.

(** The same for a longer [t], through one of its own endings. *)
Lemma endsWith_append_false_suffix (p s t1 t2 : string) :
  (String.length t2 <= String.length s)%nat ->
  endsWith s t2 = false -> endsWith (p +:+ s) (t1 +:+ t2) = false.
Proof.
  intros Hlen Hs.
  destruct (endsWith (p +:+ s) (t1 +:+ t2)) eqn:H; [|reflexivity].
  apply endsWith_suffix in H.
  by rewrite (endsWith_append_false p s t2 Hlen Hs) in H.
Qed.

Lemma includes_append (p s t : string) :
  includes s t = true -> includes (p +:+ s) t = true.
Proof.
  intros Hs. induction p as [|x p IH]; [exact Hs|].
  change (String x p +:+ s) with (String x (p +:+ s)).
  cbn [includes]. rewrite IH. apply orb_true_r.
Qed.

Lemma includes_at_cons (x : ascii) (p : string) :
  includes (String x p) "@" = false <-> x <> "@"%char /\ includes p "@" = false.
Proof.
  cbn [includes String.prefix].
  destruct (ascii_dec "@" x) as [<-|Hne].
  - split; [|by intros [? _]]. by destruct p.
  - cbn [orb]. split; [intros H; split; [congruence | exact H] | by intros [_ H]].
Qed.

(** A pattern that begins with ["@"] is not found before the first ["@"]. *)
Lemma includes_append_false (p s t : string) :
  includes p "@" = false ->
  includes s (String "@" t) = false ->
  includes (p +:+ s) (String "@" t) = false.
Proof.
  intros Hp Hs. induction p as [|x p IH]; [exact Hs|].
  apply includes_at_cons in Hp as [Hx Hp].
  change (String x p +:+ s) with (String x (p +:+ s)).
  cbn [includes]. rewrite (IH Hp), orb_false_r.
  cbn [String.prefix]. destruct (ascii_dec "@" x); [congruence | reflexivity].
Qed.

Lemma includes_at_append (a b : string) :
  includes a "@" = false -> includes b "@" = false ->
  includes (a +:+ b) "@" = false.
Proof.
  intros Ha Hb. induction a as [|x a IH]; [exact Hb|].
  apply includes_at_cons in Ha as [Hx Ha].
  change (String x a +:+ b) with (String x (a +:+ b)).
  apply includes_at_cons. split; [exact Hx | by apply IH].
Qed.

Lemma digits_without_at (d : Decimal.uint) :
  includes (NilEmpty.string_of_uint d) "@" = false.
Proof.
  induction d; cbn [NilEmpty.string_of_uint]; [reflexivity|..];
    apply includes_at_cons; (split; [discriminate | assumption]).
Qed.

Lemma numToString_without_at (n : Z) : includes (numToString n) "@" = false.
Proof.
  unfold numToString, NilZero.string_of_int, NilZero.string_of_uint.
  destruct n as [|p|p]; cbn [Z.to_int]; [reflexivity|..];
    pose proof (digits_without_at (Pos.to_uint p)) as H;
    destruct (Pos.to_uint p); try exact H; try reflexivity;
    apply includes_at_cons; (split; [discriminate|]); try exact H; reflexivity.
Qed.

(** The domain read off an address is the one it was built with. *)
Lemma sessionDomain_canonical (p d : string) :
  includes p "@" = false ->
  d ∈ ["s.whatsapp.net"; "lid"; "hosted"; "hosted.lid"] ->
  sessionDomain (p +:+ "@" +:+ d) = d.
Proof.
  intros Hp Hd. unfold sessionDomain.
  change ("@" +:+ d) with (String "@" d).
  rewrite !elem_of_cons, elem_of_nil in Hd.
  destruct Hd as [->|[->|[->|[->|[]]]]].
  - rewrite (endsWith_append_false p "@s.whatsapp.net" "@lid"),
      (endsWith_append_false p "@s.whatsapp.net" "@hosted.lid"),
      (includes_append_false p "@s.whatsapp.net" "hosted");
      (reflexivity || assumption || (cbn; lia)).
  - rewrite (endsWith_append p "@lid"),
      (includes_append_false p "@lid" "hosted");
      (reflexivity || assumption).
  - change "@hosted.lid" with ("@hosted." +:+ "lid").
    rewrite (endsWith_append_false p "@hosted" "@lid"),
      (endsWith_append_false_suffix p "@hosted" "@hosted." "lid"),
      (includes_append p "@hosted" "@hosted");
      (reflexivity || (cbn; lia)).
  - rewrite (endsWith_append p "@hosted.lid"), orb_true_r,
      (includes_append p "@hosted.lid" "@hosted"); reflexivity.
Qed.

Section NodeExtras.

Variable isLidUser : string -> bool.
Variable isPnUser : string -> bool.
Variable isHostedLidUser : string -> bool.
Variable jidDecode : string -> option FullJid.
Variable unpadRandomMax16 : string -> outcome string.
Variable decodeMessage : string -> outcome Decoded.
Variable decodeVerifiedName : string -> outcome (option (option string)).
Variable firstAttempt : Z.
Variable repository : Repository.

#[local] Abbreviation getDecryptionJid' := (getDecryptionJid isLidUser isHostedLidUser repository).
#[local] Abbreviation storeMapping' := (storeMappingFromEnvelope isLidUser isPnUser repository).
#[local] Abbreviation targets' := (corruptedSessionTargets jidDecode).
#[local] Abbreviation cleanup' := (cleanupCorruptedSession jidDecode repository).
#[local] Abbreviation runCipher' := (runCipher firstAttempt repository).
#[local] Abbreviation cipherAnswer' := (cipherAnswer repository).
#[local] Abbreviation accept' := (acceptPlaintext unpadRandomMax16 decodeMessage).
#[local] Abbreviation onFailure' := (onDecryptFailure jidDecode repository).
#[local] Abbreviation note' := (noteAttributes decodeVerifiedName).
#[local] Abbreviation beforeCipher' :=
  (beforeCipher isLidUser isPnUser isHostedLidUser repository).
#[local] Abbreviation decryptPayload' :=
  (decryptPayload isLidUser isPnUser isHostedLidUser jidDecode unpadRandomMax16
     decodeMessage firstAttempt repository).
#[local] Abbreviation decryptNode' :=
  (decryptNode isLidUser isPnUser isHostedLidUser jidDecode unpadRandomMax16
     decodeMessage decodeVerifiedName firstAttempt repository).
#[local] Abbreviation decryptLoop' :=
  (decryptLoop isLidUser isPnUser isHostedLidUser jidDecode unpadRandomMax16
     decodeMessage decodeVerifiedName firstAttempt repository).
#[local] Abbreviation decrypt' :=
  (decrypt isLidUser isPnUser isHostedLidUser jidDecode unpadRandomMax16
     decodeMessage decodeVerifiedName firstAttempt repository).

(** *** Nothing to decrypt *)

Lemma noteAttributes_view st node st' :
  note' st node = Returns st' ->
  isViewOnce (fullMessage st')
  = isViewOnce (fullMessage st) || viewOnceNode node /\
  message (fullMessage st') = message (fullMessage st).
Proof.
  unfold noteAttributes, viewOnceNode.
  destruct (content node) as [bytes|];
    try destruct (String.eqb (tag node) "verified_name");
    try destruct (decodeVerifiedName bytes) as [[v|]|e];
    try discriminate;
    destruct (String.eqb (tag node) "unavailable"
              && bool_decide (attrs node !! "type" = Some "view_once"));
    destruct (truthyStr (attrs node !! "count") && String.eqb (tag node) "enc");
    intros [= <-]; simpl; rewrite ?orb_true_r, ?orb_false_r; done.
Qed.

(** The head of the loop body throws the error of the decoder of a
    [verified_name] child, and nothing else. *)
Lemma noteAttributes_throws st node e :
  note' st node = Throws e ->
  exists bytes, tag node = "verified_name" /\ content node = Binary bytes /\
                decodeVerifiedName bytes = Throws e.
Proof.
  unfold noteAttributes.
  destruct (content node) as [bytes|]; [|discriminate].
  destruct (String.eqb (tag node) "verified_name") eqn:Htag; [|discriminate].
  apply String.eqb_eq in Htag.
  destruct (decodeVerifiedName bytes) as [[v|]|e'] eqn:Hdec; try discriminate.
  intros [= <-]. eauto.
Qed.

Lemma decryptPayload_skips env autoClean st node :
  decryptable node = false -> decryptPayload' env autoClean st node = st.
Proof.
  unfold decryptPayload, decryptable.
  destruct (String.eqb (tag node) "enc"), (String.eqb (tag node) "plaintext"),
    (content node); simpl; done.
Qed.

Lemma loop_nothing_decryptable env autoClean nodes st :
  Forall (fun n => decryptable n = false) nodes ->
  let ended := decryptLoop' env autoClean nodes st in
  let st' := stateOf ended in
  decryptables st' = decryptables st /\
  cipherCalls st' = cipherCalls st /\
  sessions st' = sessions st /\
  calls st' = calls st /\
  message (fullMessage st') = message (fullMessage st) /\
  messageStubType (fullMessage st') = messageStubType (fullMessage st) /\
  messageStubParameters (fullMessage st')
  = messageStubParameters (fullMessage st) /\
  (ended = Completes st' ->
   isViewOnce (fullMessage st')
   = isViewOnce (fullMessage st) || existsb viewOnceNode nodes) /\
  (forall e, ended = Rejects st' e ->
     exists node bytes, node ∈ nodes /\ tag node = "verified_name" /\
       content node = Binary bytes /\ decodeVerifiedName bytes = Throws e).
Proof.
  intros Hall. revert st.
  induction Hall as [|n nodes Hn _ IH]; intros st;
    cbn [decryptLoop existsb].
  - cbn [stateOf]. rewrite orb_false_r. repeat split; try done.
  - unfold decryptNode.
    destruct (note' st n) as [st0|e] eqn:Hnote.
    + rewrite (decryptPayload_skips env autoClean st0 n Hn).
      destruct (noteAttributes_frame decodeVerifiedName st n st0 Hnote)
        as (H1 & H2 & H3 & H4 & H5 & H6).
      destruct (noteAttributes_view st n st0 Hnote) as (H7 & H8).
      destruct (IH st0) as (I1 & I2 & I3 & I4 & I5 & I6 & I7 & I8 & I9).
      cbv zeta in *.
      rewrite I1, I2, I3, I4, I5, I6, I7, H1, H2, H3, H4, H5, H6, H8.
      repeat split; try done.
      * intros Hc. rewrite (I8 Hc), H7, orb_assoc. done.
      * intros e He. destruct (I9 e He) as (node & bytes & Hin & Hrest).
        exists node, bytes. split; [by apply list_elem_of_further | exact Hrest].
    + cbn [stateOf]. repeat split; try done.
      intros e' [= <-].
      destruct (noteAttributes_throws st n e Hnote) as (bytes & Ht & Hc & Hd).
      exists n, bytes. split; [apply list_elem_of_here | done].
Qed.

(** X16: a stanza without anything to decrypt. When no child of the
    stanza is an [enc] or [plaintext] node with binary content (or the
    content is no array at all), [decrypt()] makes no call on the
    repository, deletes no session record and sets no message. When the
    certificate of every [verified_name] child decodes, [decrypt()]
    completes and marks the message as a stub with
    [NO_MESSAGE_FOUND_ERROR_TEXT], unless some child is an [unavailable]
    node of type [view_once]: then the message is flagged as view-once and
    no stub is set. Otherwise [decrypt()] rejects with the error of the
    decoder of a [verified_name] child, and no stub is set. *)
Theorem nothing_decryptable_is_reported
    (env : Envelope) (autoClean : bool) (held : gset string) :
  (forall nodes, stanzaContent env = Some nodes ->
     Forall (fun n => decryptable n = false) nodes) ->
  let ended := decrypt' env autoClean held in
  let st := stateOf ended in
  let nodes := default [] (stanzaContent env) in
  let viewOnce := existsb viewOnceNode nodes in
  calls st = [] /\ sessions st = held /\
  message (fullMessage st) = None /\
  (Forall (decodesName decodeVerifiedName) nodes ->
   ended = Completes st /\
   isViewOnce (fullMessage st) = viewOnce /\
   (viewOnce = false ->
    messageStubType (fullMessage st) = Some CIPHERTEXT /\
    messageStubParameters (fullMessage st) = [NO_MESSAGE_FOUND_ERROR_TEXT]) /\
   (viewOnce = true -> messageStubType (fullMessage st) = None)) /\
  (forall e, ended = Rejects st e ->
     messageStubType (fullMessage st) = None /\
     exists node bytes, node ∈ nodes /\ tag node = "verified_name" /\
       content node = Binary bytes /\ decodeVerifiedName bytes = Throws e).
Proof.
  intros Hall ended st nodes viewOnce. subst ended st nodes viewOnce.
  unfold decrypt.
  destruct (stanzaContent env) as [nodes|]; cbn [from_option id].
  2:{ cbn. repeat split; try done. }
  destruct (loop_nothing_decryptable env autoClean nodes (initialState held)
              (Hall nodes eq_refl))
    as (I1 & I2 & I3 & I4 & I5 & I6 & I7 & I8 & I9).
  cbv zeta in *.
  pose proof (decryptLoop_completes isLidUser isPnUser isHostedLidUser
                jidDecode unpadRandomMax16 decodeMessage decodeVerifiedName
                firstAttempt repository env autoClean nodes
                (initialState held)) as Hcompletes.
  destruct (decryptLoop' env autoClean nodes (initialState held))
    as [final|final e]; cbn [stateOf] in *.
  - cbn in I1, I3, I4, I5, I6, I7.
    specialize (I8 eq_refl). cbn in I8.
    rewrite I1, I8. cbn [Z.eqb andb].
    destruct (existsb viewOnceNode nodes); cbn [negb].
    + rewrite I3, I4, I5, I6, I8. repeat split; try done.
    + cbn. rewrite I3, I4, I5, I8. repeat split; try done.
  - cbn in I3, I4, I5, I6.
    split; [exact I4|]. split; [exact I3|]. split; [exact I5|].
    split.
    + intros Hdec. destruct (Hcompletes Hdec) as [st' Hst']. discriminate.
    + intros e' [= <-]. split; [exact I6|]. by apply I9.
Qed.

(** *** Counting the calls *)

Lemma storeMapping_counts stanzaAttrs sender jid :
  countCalls isCipherCall (storeMapping' stanzaAttrs sender jid) = 0%nat /\
  countCalls isDeleteSession (storeMapping' stanzaAttrs sender jid) = 0%nat.
Proof.
  unfold storeMappingFromEnvelope.
  destruct (extractAddressingContext stanzaAttrs) as [[mode alt] rcp].
  destruct alt as [alt|]; [|done].
  destruct (truthyStr (Some alt) && isLidUser alt && isPnUser sender
            && String.eqb jid sender); [|done].
  destruct (storeLIDPNMappings repository alt sender); done.
Qed.

Lemma runCipher_counts env e2eType bytes jid st :
  let st1 := (runCipher' env e2eType bytes jid st).1 in
  decryptables st1 = decryptables st /\
  exists n, (n <= 3)%nat /\
    cipherCalls st1 = (cipherCalls st + n)%nat /\
    countCalls isCipherCall (calls st1)
    = (countCalls isCipherCall (calls st) + n)%nat /\
    countCalls isDeleteSession (calls st1)
    = countCalls isDeleteSession (calls st).
Proof.
  unfold runCipher.
  destruct (String.eqb _ "skmsg");
    [|destruct (String.eqb _ "pkmsg" || String.eqb _ "msg");
      [|destruct (String.eqb _ "plaintext")]];
    cbn [fst decryptables cipherCalls calls]; split; try reflexivity.
  1,2: match goal with
       | |- context [retry DECRYPTION_RETRY_OPTIONS firstAttempt ?fn] =>
           exists (attemptsMade (retry DECRYPTION_RETRY_OPTIONS firstAttempt fn));
           split; [apply (retry_at_most_three firstAttempt fn)|]
       end;
       rewrite !countCalls_app, !countCalls_replicate;
       cbn [isCipherCall isDeleteSession]; repeat split; lia.
  all: exists 0%nat; repeat split; lia.
Qed.

Lemma acceptPlaintext_counts env e2eType msgBuffer st st2 :
  accept' env e2eType msgBuffer st = inl st2 ->
  decryptables st2 = decryptables st /\
  cipherCalls st2 = cipherCalls st /\
  countCalls isCipherCall (calls st2) = countCalls isCipherCall (calls st) /\
  countCalls isDeleteSession (calls st2)
  = countCalls isDeleteSession (calls st).
Proof.
  unfold acceptPlaintext.
  destruct (if negb _ then _ else _) as [padded|]; [|discriminate].
  destruct (decodeMessage padded) as [msg|]; [|discriminate].
  intros [= <-]. destruct (senderKeyDistributionMessage msg);
    cbn [withMessage addCalls decryptables cipherCalls calls];
    rewrite ?countCalls_app; unfold countCalls; cbn; repeat split; lia.
Qed.

Lemma onDecryptFailure_counts autoClean jid err st :
  let st' := onFailure' autoClean jid err st in
  decryptables st' = decryptables st /\
  cipherCalls st' = cipherCalls st /\
  countCalls isCipherCall (calls st') = countCalls isCipherCall (calls st) /\
  (countCalls isDeleteSession (calls st)
   <= countCalls isDeleteSession (calls st')
   <= countCalls isDeleteSession (calls st) + 1)%nat.
Proof.
  unfold onDecryptFailure.
  destruct (isCorruptedSessionError (originalErrorOf err) && autoClean);
    [|unfold countCalls; cbn; repeat split; lia].
  unfold cleanupCorruptedSession.
  destruct (targets' jid) as [l|]; [|unfold countCalls; cbn; repeat split; lia].
  destruct (deleteSession repository l);
    cbn [fst withMessage addCalls decryptables cipherCalls calls];
    rewrite !countCalls_app; unfold countCalls; cbn; repeat split; lia.
Qed.

Lemma decryptPayload_binary env autoClean st node bytes :
  decryptable node = true -> content node = Binary bytes ->
  decryptPayload' env autoClean st node =
  let jid := getDecryptionJid' (calls st) (author env) in
  let st1 :=
    {| fullMessage := fullMessage st;
       decryptables := decryptables st + 1;
       cipherCalls := cipherCalls st;
       sessions := sessions st;
       calls := calls st |} in
  let st2 :=
    if negb (String.eqb (tag node) "plaintext")
    then addCalls st1 (storeMapping' (stanzaAttrs env) (author env) jid)
    else st1 in
  let e2eType :=
    if String.eqb (tag node) "plaintext" then Some "plaintext"
    else attrs node !! "type" in
  match runCipher' env e2eType bytes jid st2 with
  | (st3, inl msgBuffer) =>
      match accept' env e2eType msgBuffer st3 with
      | inl st4 => st4
      | inr err => onFailure' autoClean jid err st3
      end
  | (st3, inr err) => onFailure' autoClean jid err st3
  end.
Proof.
  intros Hd Hc. unfold decryptable in Hd. rewrite Hc, andb_true_r in Hd.
  unfold decryptPayload. rewrite Hc.
  replace (negb (String.eqb (tag node) "enc")
           && negb (String.eqb (tag node) "plaintext")) with false
    by (destruct (String.eqb (tag node) "enc"),
          (String.eqb (tag node) "plaintext"); done).
  reflexivity.
Qed.

Lemma decryptPayload_counts env autoClean st node :
  let st' := decryptPayload' env autoClean st node in
  let d := if decryptable node then 1%nat else 0%nat in
  decryptables st' = decryptables st + Z.of_nat d /\
  exists n k, (n <= 3 * d)%nat /\ (k <= d)%nat /\
    cipherCalls st' = (cipherCalls st + n)%nat /\
    countCalls isCipherCall (calls st')
    = (countCalls isCipherCall (calls st) + n)%nat /\
    countCalls isDeleteSession (calls st')
    = (countCalls isDeleteSession (calls st) + k)%nat.
Proof.
  cbv zeta.
  destruct (decryptable node) eqn:Hd.
  2:{ rewrite (decryptPayload_skips env autoClean st node Hd).
      split; [lia|]. exists 0%nat, 0%nat. repeat split; lia. }
  assert (Hc : exists bytes, content node = Binary bytes).
  { unfold decryptable in Hd. destruct (content node); [eauto|].
    by rewrite andb_false_r in Hd. }
  destruct Hc as [bytes Hc].
  rewrite (decryptPayload_binary env autoClean st node bytes Hd Hc). cbv zeta.
  match goal with
  | |- context [runCipher' ?a ?b ?c ?d ?s] =>
      pose proof (runCipher_counts a b c d s) as (R1 & n & Rn & R2 & R3 & R4);
      assert (S1 : decryptables s = decryptables st + 1 /\
                   cipherCalls s = cipherCalls st /\
                   countCalls isCipherCall (calls s)
                   = countCalls isCipherCall (calls st) /\
                   countCalls isDeleteSession (calls s)
                   = countCalls isDeleteSession (calls st));
      [|destruct (runCipher' a b c d s) as [st1 [msgBuffer|err]] eqn:Hrun]
  end.
  { destruct (negb (String.eqb (tag node) "plaintext"));
      cbn [addCalls decryptables cipherCalls calls];
      rewrite ?countCalls_app;
      try destruct (storeMapping_counts (stanzaAttrs env) (author env)
                      (getDecryptionJid' (calls st) (author env))) as [-> ->];
      repeat split; lia. }
  - cbv zeta in R1, R2, R3, R4. cbn [fst] in R1, R2, R3, R4.
    destruct S1 as (S1 & S2 & S3 & S4).
    match goal with
    | |- context [accept' ?a ?b ?c ?s] =>
        destruct (accept' a b c s) as [st2|err] eqn:Hacc
    end.
    + destruct (acceptPlaintext_counts _ _ _ _ _ Hacc) as (A1 & A2 & A3 & A4).
      split; [lia|]. exists n, 0%nat. repeat split; lia.
    + match goal with
      | |- context [onFailure' ?a ?j ?e ?s] =>
          pose proof (onDecryptFailure_counts a j e s) as (F1 & F2 & F3 & F4)
      end.
      cbv zeta in F1, F2, F3, F4.
      split; [lia|].
      match goal with
      | |- context [countCalls isDeleteSession (calls ?s')] =>
          exists n, (countCalls isDeleteSession (calls s')
                     - countCalls isDeleteSession (calls st))%nat
      end.
      repeat split; lia.
  - cbv zeta in R1, R2, R3, R4. cbn [fst] in R1, R2, R3, R4.
    destruct S1 as (S1 & S2 & S3 & S4).
    match goal with
    | |- context [onFailure' ?a ?j ?e ?s] =>
        pose proof (onDecryptFailure_counts a j e s) as (F1 & F2 & F3 & F4)
    end.
    cbv zeta in F1, F2, F3, F4.
    split; [lia|].
    match goal with
    | |- context [countCalls isDeleteSession (calls ?s')] =>
        exists n, (countCalls isDeleteSession (calls s')
                   - countCalls isDeleteSession (calls st))%nat
    end.
    repeat split; lia.
Qed.

(** The counters after the loop, with [d'] the decryptable children it
    went through: all of them when it completes. *)
Lemma decryptLoop_counts env autoClean nodes st :
  let ended := decryptLoop' env autoClean nodes st in
  let st' := stateOf ended in
  let d := length (List.filter decryptable nodes) in
  exists d' n k, (d' <= d)%nat /\ (ended = Completes st' -> d' = d) /\
    decryptables st' = decryptables st + Z.of_nat d' /\
    (n <= 3 * d')%nat /\ (k <= d')%nat /\
    cipherCalls st' = (cipherCalls st + n)%nat /\
    countCalls isCipherCall (calls st')
    = (countCalls isCipherCall (calls st) + n)%nat /\
    countCalls isDeleteSession (calls st')
    = (countCalls isDeleteSession (calls st) + k)%nat.
Proof.
  cbv zeta. revert st.
  induction nodes as [|node nodes IH]; intros st;
    cbn [decryptLoop List.filter].
  - exists 0%nat, 0%nat, 0%nat. cbn. repeat split; lia.
  - unfold decryptNode.
    destruct (note' st node) as [st0|e] eqn:Hnote.
    + destruct (noteAttributes_frame decodeVerifiedName st node st0 Hnote)
        as (N1 & N2 & _ & N4 & _).
      destruct (decryptPayload_counts env autoClean st0 node)
        as (D1 & n0 & k0 & Dn & Dk & D2 & D3 & D4).
      cbv zeta in D1, Dn, Dk.
      destruct (IH (decryptPayload' env autoClean st0 node))
        as (d' & n & k & Hd & Hc & I1 & In & Ik & I2 & I3 & I4).
      rewrite N1 in D1. rewrite N2 in D2. rewrite N4 in D3, D4.
      destruct (decryptable node); cbn [length].
      * exists (S d'), (n0 + n)%nat, (k0 + k)%nat.
        repeat split; try lia. intros Hcompl. specialize (Hc Hcompl). lia.
      * exists d', (n0 + n)%nat, (k0 + k)%nat.
        repeat split; try lia. intros Hcompl. exact (Hc Hcompl).
    + cbn [stateOf]. exists 0%nat, 0%nat, 0%nat.
      repeat split; try lia. discriminate.
Qed.

(** X17: what one [decrypt()] call may ask of the repository, however it
    ends. The counter [decryptables] counts [enc] and [plaintext] children
    with binary content, all of them when [decrypt()] completes. The
    cipher is called at most three times for each child counted (the
    attempts that [retry] makes at most) and never for any other child, and
    [deleteSession] is requested at most once for each child counted. *)
Theorem repository_calls_bounded_by_decryptables
    (env : Envelope) (autoClean : bool) (held : gset string) :
  let ended := decrypt' env autoClean held in
  let st := stateOf ended in
  let d := length (List.filter decryptable (default [] (stanzaContent env))) in
  0 <= decryptables st <= Z.of_nat d /\
  (ended = Completes st -> decryptables st = Z.of_nat d) /\
  cipherCalls st = countCalls isCipherCall (calls st) /\
  Z.of_nat (countCalls isCipherCall (calls st)) <= 3 * decryptables st /\
  Z.of_nat (countCalls isDeleteSession (calls st)) <= decryptables st.
Proof.
  intros ended st d. subst ended st d. unfold decrypt.
  destruct (stanzaContent env) as [nodes|]; cbn [from_option id].
  2:{ cbn. repeat split; lia. }
  destruct (decryptLoop_counts env autoClean nodes (initialState held))
    as (d' & n & k & Hd & Hc & I1 & In & Ik & I2 & I3 & I4).
  cbv zeta in *. cbn in I1, I2, I3, I4.
  destruct (decryptLoop' env autoClean nodes (initialState held))
    as [final|final e]; cbn [stateOf] in *.
  - specialize (Hc eq_refl).
    destruct ((decryptables final =? 0) && negb (isViewOnce (fullMessage final)));
      cbn [withMessage decryptables cipherCalls calls];
      repeat split; try lia.
  - repeat split; try lia. discriminate.
Qed.

(** *** Errors that match no pattern *)

Lemma shouldRetry_unclassified e attempt :
  unclassifiedMessage e -> decryptionShouldRetry e attempt = (attempt <? 2).
Proof. intros [H1 H2]. unfold decryptionShouldRetry. by rewrite H1, H2. Qed.

(** X18: an error that matches no pattern is retried. When the cipher
    calls of an [enc] node (of type [pkmsg], [msg] or [skmsg]) all fail
    with errors whose messages match neither the missing-record nor the
    corrupted-session patterns, the node makes two cipher calls if [retry]
    numbers the first attempt 1 and three if it numbers it 0, the last
    error is the one reported, and the message is left as a stub with its
    message. Unless that error is classified as a corrupted session by its
    name and cleanup is on, nothing is deleted. *)
Theorem unclassified_error_is_retried
    (env : Envelope) (autoClean : bool) (st : DecryptState)
    (node : BinaryNode) (bytes kind : string) :
  tag node = "enc" -> content node = Binary bytes ->
  attrs node !! "type" = Some kind -> ciphered kind ->
  0 <= firstAttempt <= 1 ->
  let jid := getDecryptionJid' (calls st) (author env) in
  let fn := fun i => cipherAnswer' env kind bytes jid (cipherCalls st + i)%nat in
  (forall i, (i < 3)%nat -> exists e, fn i = Throws e /\ unclassifiedMessage e) ->
  let made := Z.to_nat (3 - firstAttempt) in
  exists after e,
    decryptNode' env autoClean st node = Completes after /\
    fn (made - 1)%nat = Throws e /\
    (2 <= made <= 3)%nat /\
    cipherCalls after = (cipherCalls st + made)%nat /\
    messageStubType (fullMessage after) = Some CIPHERTEXT /\
    messageStubParameters (fullMessage after) = [errMessage e] /\
    (isCorruptedSessionError e && autoClean = false ->
     sessions after = sessions st /\
     calls after
     = (calls st ++ storeMapping' (stanzaAttrs env) (author env) jid
        ++ replicate made (cipherCall env kind bytes jid))%list).
Proof.
  intros Htag Hbin Htype Hkind Hf jid fn Hall made.
  destruct (noteAttributes_enc decodeVerifiedName st node Htag) as [st0 Hnote].
  destruct (noteAttributes_frame decodeVerifiedName st node st0 Hnote)
    as (_ & N2 & N3 & N4 & _).
  pose proof (beforeCipher_frame isLidUser isPnUser isHostedLidUser repository
                env st0) as (Hc1 & Hs1 & Hl1).
  cbv zeta in Hc1, Hs1, Hl1. rewrite N4 in Hl1. fold jid in Hl1.
  rewrite N2 in Hc1. rewrite N3 in Hs1.
  set (st1 := beforeCipher' env st0) in *.
  assert (Hfn : (fun i => cipherAnswer' env kind bytes jid (cipherCalls st1 + i)%nat)
                = fn) by (subst fn; by rewrite Hc1).
  destruct (Hall 0%nat ltac:(lia)) as (e0 & H0 & U0).
  destruct (Hall 1%nat ltac:(lia)) as (e1 & H1 & U1).
  destruct (Hall 2%nat ltac:(lia)) as (e2 & H2 & U2).
  assert (Hretry :
    exists e err, fn (made - 1)%nat = Throws e /\ (2 <= made <= 3)%nat /\
      originalErrorOf err = e /\
      retry DECRYPTION_RETRY_OPTIONS firstAttempt fn
      = {| attemptsMade := made; retryResult := inr err |}).
  { rewrite retry_decryption_unfold, H0, H1, H2.
    rewrite (shouldRetry_unclassified e0 _ U0), (shouldRetry_unclassified e1 _ U1).
    assert (Hcase : firstAttempt = 0 \/ firstAttempt = 1) by lia.
    subst made. destruct Hcase as [-> | ->].
    - exists e2, (RetryExhaustedError e2 3). cbn. repeat split; (lia || done).
    - exists e1, (Raw e1). cbn. repeat split; (lia || done). }
  destruct Hretry as (e & err & Hlast & Hmade & Horig & Hret).
  set (after := onFailure' autoClean jid err
                  (afterCipher st1 made (cipherCall env kind bytes jid))).
  assert (Hafter : decryptNode' env autoClean st node = Completes after).
  { unfold decryptNode. rewrite Hnote.
    rewrite (decryptPayload_enc isLidUser isPnUser isHostedLidUser jidDecode
               unpadRandomMax16 decodeMessage firstAttempt repository
               env autoClean st0 node bytes kind) by done.
    cbv zeta. rewrite N4. fold jid. fold st1.
    rewrite (runCipher_ciphered firstAttempt repository env kind bytes jid st1
               Hkind).
    cbv zeta. rewrite Hfn, Hret. reflexivity. }
  pose proof (onDecryptFailure_stub jidDecode repository autoClean jid err
                (afterCipher st1 made (cipherCall env kind bytes jid)))
    as (Hst & Hpar & Hcc).
  cbv zeta in Hst, Hpar, Hcc. fold after in Hst, Hpar, Hcc.
  rewrite Horig in Hpar.
  exists after, e.
  split; [exact Hafter|]. split; [exact Hlast|]. split; [exact Hmade|].
  split; [|split; [exact Hst | split; [exact Hpar|]]].
  - rewrite Hcc. unfold afterCipher. cbn [cipherCalls]. by rewrite Hc1.
  - intros Hoff. subst after. unfold onDecryptFailure.
    rewrite Horig, Hoff.
    unfold withMessage, afterCipher; cbn [calls sessions].
    rewrite Hl1, Hs1. split; [reflexivity|]. by rewrite <- !app_assoc.
Qed.

(** *** Payloads that are not encrypted *)

Lemma noteAttributes_other st node :
  tag node <> "verified_name" -> exists st', note' st node = Returns st'.
Proof.
  intros Htag.
  apply (noteAttributes_returns decodeVerifiedName). unfold decodesName.
  destruct (content node); [|done].
  by replace (String.eqb (tag node) "verified_name") with false
    by (symmetry; by apply String.eqb_neq).
Qed.

(** X19: a payload marked as plaintext never reaches the cipher. For a
    [plaintext] node, and equally for an [enc] node whose [type] attribute
    is ["plaintext"], the bytes are decoded as they are: the iteration
    completes, no cipher call is made, [unpadRandomMax16] is not applied,
    no session is deleted, and when the bytes decode the fields are merged
    into the message without touching the stub. Only an [enc] node stores
    the mapping of the envelope first. *)
Theorem plaintext_payload_bypasses_cipher
    (env : Envelope) (autoClean : bool) (st : DecryptState)
    (node : BinaryNode) (bytes : string) (msg : Decoded) :
  content node = Binary bytes ->
  tag node = "plaintext"
  \/ (tag node = "enc" /\ attrs node !! "type" = Some "plaintext") ->
  decodeMessage bytes = Returns msg ->
  let mapping :=
    if String.eqb (tag node) "plaintext" then []
    else storeMapping' (stanzaAttrs env) (author env)
           (getDecryptionJid' (calls st) (author env)) in
  let distribution :=
    match senderKeyDistributionMessage msg with
    | Some item => [ProcessSenderKeyDistributionMessage (author env) item]
    | None => []
    end in
  exists after,
    decryptNode' env autoClean st node = Completes after /\
    cipherCalls after = cipherCalls st /\
    sessions after = sessions st /\
    calls after = (calls st ++ mapping ++ distribution)%list /\
    message (fullMessage after)
    = Some match message (fullMessage st) with
           | Some old => fields msg ∪ old
           | None => fields msg
           end /\
    messageStubType (fullMessage after) = messageStubType (fullMessage st) /\
    messageStubParameters (fullMessage after)
    = messageStubParameters (fullMessage st).
Proof.
  intros Hbin Hkind Hdec mapping distribution.
  assert (Hname : tag node <> "verified_name")
    by (destruct Hkind as [-> | [-> _]]; discriminate).
  destruct (noteAttributes_other st node Hname) as [st0 Hnote].
  destruct (noteAttributes_frame decodeVerifiedName st node st0 Hnote)
    as (_ & N2 & N3 & N4 & N5 & N6).
  destruct (noteAttributes_view st node st0 Hnote) as (_ & N8).
  assert (Hd : decryptable node = true).
  { unfold decryptable. rewrite Hbin.
    destruct Hkind as [-> | [-> _]]; reflexivity. }
  subst mapping distribution.
  unfold decryptNode. rewrite Hnote.
  rewrite (decryptPayload_binary env autoClean st0 node bytes Hd Hbin). cbv zeta.
  assert (He : (if String.eqb (tag node) "plaintext" then Some "plaintext"
                else attrs node !! "type") = Some "plaintext").
  { destruct Hkind as [-> | [-> ->]]; reflexivity. }
  rewrite He, N4.
  change (runCipher' env (Some "plaintext") bytes ?j ?s) with (s, @inl _ Thrown bytes).
  cbv iota beta.
  unfold acceptPlaintext.
  change (negb (String.eqb (default "undefined" (Some "plaintext")) "plaintext"))
    with false.
  cbv iota. rewrite Hdec.
  eexists. split; [reflexivity|].
  destruct (String.eqb (tag node) "plaintext"); cbn [negb];
    destruct (senderKeyDistributionMessage msg);
    cbn [withMessage addCalls fullMessage cipherCalls sessions calls message
         messageStubType messageStubParameters];
    rewrite ?N2, ?N3, ?N4, ?N5, ?N6, ?N8, ?app_nil_r, <- ?app_assoc;
    destruct (message (fullMessage st)); repeat split; reflexivity.
Qed.

(** X20: an [enc] node whose [type] is none of [skmsg], [pkmsg], [msg]
    and [plaintext] (a missing attribute reads as ["undefined"]) is counted
    as decryptable but makes no cipher call: the error
    ["Unknown e2e type: <type>"] is caught by the loop, the iteration
    completes, and the error becomes the parameter of the stub; no message
    is set by this node. *)
Theorem unknown_e2e_type_is_stubbed
    (env : Envelope) (autoClean : bool) (st : DecryptState)
    (node : BinaryNode) (bytes : string) :
  tag node = "enc" -> content node = Binary bytes ->
  let kind := default "undefined" (attrs node !! "type") in
  kind ∉ ["skmsg"; "pkmsg"; "msg"; "plaintext"] ->
  exists after,
    decryptNode' env autoClean st node = Completes after /\
    decryptables after = decryptables st + 1 /\
    cipherCalls after = cipherCalls st /\
    countCalls isCipherCall (calls after) = countCalls isCipherCall (calls st) /\
    message (fullMessage after) = message (fullMessage st) /\
    messageStubType (fullMessage after) = Some CIPHERTEXT /\
    messageStubParameters (fullMessage after) = ["Unknown e2e type: " +:+ kind].
Proof.
  intros Htag Hbin kind Hkind.
  destruct (noteAttributes_enc decodeVerifiedName st node Htag) as [st0 Hnote].
  destruct (noteAttributes_frame decodeVerifiedName st node st0 Hnote)
    as (N1 & N2 & _ & N4 & _).
  destruct (noteAttributes_view st node st0 Hnote) as (_ & N8).
  assert (Hd : decryptable node = true).
  { unfold decryptable. by rewrite Hbin, Htag. }
  unfold decryptNode. rewrite Hnote.
  rewrite (decryptPayload_binary env autoClean st0 node bytes Hd Hbin). cbv zeta.
  rewrite Htag.
  change (String.eqb "enc" "plaintext") with false. cbn [negb]. cbv iota.
  assert (Hrun : forall j s,
            runCipher' env (attrs node !! "type") bytes j s
            = (s, inr (Raw {| errName := "Error";
                              errMessage := "Unknown e2e type: " +:+ kind |}))).
  { intros j s. unfold runCipher. fold kind.
    assert (Hne : forall k, k ∈ ["skmsg"; "pkmsg"; "msg"; "plaintext"] ->
                            String.eqb kind k = false).
    { intros k Hk. apply String.eqb_neq. intros ->. done. }
    rewrite !Hne by (repeat constructor). reflexivity. }
  rewrite Hrun.
  match goal with
  | |- context [onFailure' ?a ?j ?e ?s] =>
      pose proof (onDecryptFailure_stub jidDecode repository a j e s)
        as (Hst & Hpar & Hcc);
      pose proof (onDecryptFailure_counts a j e s) as (F1 & _ & F3 & _);
      set (out := onFailure' a j e s) in *
  end.
  cbv zeta in Hst, Hpar, Hcc, F1, F3.
  cbn [addCalls decryptables cipherCalls calls originalErrorOf errMessage]
    in Hpar, Hcc, F1, F3.
  destruct (storeMapping_counts (stanzaAttrs env) (author env)
              (getDecryptionJid' (calls st0) (author env))) as [M1 _].
  rewrite countCalls_app, M1, N4 in F3.
  exists out. split; [reflexivity|].
  split; [by rewrite F1, N1|]. split; [by rewrite Hcc, N2|].
  split; [rewrite F3; lia|]. split; [|split; [exact Hst | exact Hpar]].
  subst out. unfold onDecryptFailure.
  cbn [withMessage setStub fullMessage message].
  match goal with
  | |- context [if ?b then _ else _] => destruct b
  end; [rewrite (cleanup_fullMessage jidDecode repository)|]; exact N8.
Qed.

(** *** What the cleanup of a corrupted session targets *)

(** X21: the cleanup reaches the record that failed. For an address
    [user@domain], or [user:device@domain] with a device above 0, under one
    of the four domains, where the user holds no ["@"] and [jidDecode]
    returns this user and device, the domain that [cleanupCorruptedSession]
    reads off the suffix is the domain of the address, and the address
    itself is among the targets passed to [deleteSession]: as the primary
    address, as one of devices 1 to 5, or as the device beyond 5. *)
Theorem cleanup_targets_include_failing_address
    (u d : string) (dev : option Z) (fj : FullJid) :
  includes u "@" = false -> u <> EmptyString ->
  d ∈ ["s.whatsapp.net"; "lid"; "hosted"; "hosted.lid"] ->
  let jid :=
    match dev with
    | Some n => deviceJid u n d
    | None => u +:+ "@" +:+ d
    end in
  (forall n, dev = Some n -> 0 < n /\ device fj = Some n) ->
  jidDecode jid = Some fj -> user fj = u ->
  sessionDomain jid = d /\
  exists l, targets' jid = Some l /\ jid ∈ l /\ (6 <= length l <= 7)%nat.
Proof.
  intros Hu Hne Hd jid Hdev Hdec Huser.
  assert (Hdom : sessionDomain jid = d).
  { subst jid. destruct dev as [n|].
    - unfold deviceJid.
      rewrite <- (append_assoc ":" (numToString n) ("@" +:+ d)).
      rewrite <- (append_assoc u (":" +:+ numToString n) ("@" +:+ d)).
      apply sessionDomain_canonical; [|exact Hd].
      apply includes_at_append; [exact Hu|].
      change (":" +:+ numToString n) with (String ":" (numToString n)).
      apply includes_at_cons. split; [discriminate|].
      apply numToString_without_at.
    - by apply sessionDomain_canonical. }
  split; [exact Hdom|].
  exists (expectedTargets jid fj).
  split; [apply (corruptedSessionTargets_decoded jidDecode jid fj Hdec);
          by rewrite Huser|].
  unfold expectedTargets. rewrite Hdom, Huser.
  destruct dev as [n|].
  - destruct (Hdev n eq_refl) as [Hpos ->]. subst jid.
    destruct (5 <? n) eqn:Hbig; cbn [app length]; (split; [|lia]).
    + rewrite !elem_of_cons. do 6 right. by left.
    + apply Z.ltb_ge in Hbig.
      assert (Hn : n = 1 \/ n = 2 \/ n = 3 \/ n = 4 \/ n = 5) by lia.
      rewrite !elem_of_cons.
      destruct Hn as [->|[->|[->|[->| ->]]]]; auto 10.
  - subst jid. split.
    + apply elem_of_app. left. apply list_elem_of_here.
    + rewrite length_app. cbn [length].
      destruct (device fj) as [dv|]; [destruct (5 <? dv)|]; cbn [length]; lia.
Qed.

(** *** The mapping learnt from the envelope *)

(** X22: what [storeMappingFromEnvelope] asks of the repository for the
    address that [getDecryptionJid] chose, after whatever calls were made
    before. It makes no call, or stores one
    mapping from the alternate address of the envelope (a LID) to the
    sender (a phone-number address) and, only when storing succeeded,
    migrates the sender's session to it. Once the repository knows a LID
    for the sender, the envelope is not consulted any more: no call is
    made. *)
Theorem envelope_mapping_only_for_unmapped_sender
    (stanzaAttrs : gmap string string) (sender : string)
    (madeSoFar : list RepoCall) :
  let made :=
    storeMapping' stanzaAttrs sender (getDecryptionJid' madeSoFar sender) in
  (made = [] \/
   exists alt,
     (extractAddressingContext stanzaAttrs).1.2 = Some alt /\
     isLidUser alt = true /\ isPnUser sender = true /\
     made = (StoreLIDPNMappings alt sender
             :: if storeLIDPNMappings repository alt sender
                then [MigrateSession sender alt] else [])%list) /\
  (forall lid,
     getLIDForPN repository madeSoFar sender = Some lid ->
     lid <> EmptyString -> lid <> sender ->
     isLidUser sender = false -> isHostedLidUser sender = false ->
     made = []).
Proof.
  cbv zeta. unfold storeMappingFromEnvelope.
  destruct (extractAddressingContext stanzaAttrs) as [[mode alt] rcp].
  cbn [fst snd]. destruct alt as [alt|]; [|split; [by left | done]].
  split.
  - destruct (truthyStr (Some alt)); cbn [andb]; [|by left].
    destruct (isLidUser alt) eqn:Hlid; cbn [andb]; [|by left].
    destruct (isPnUser sender) eqn:Hpn; cbn [andb]; [|by left].
    destruct (String.eqb _ sender); [|by left].
    right. exists alt. split; [reflexivity|].
    split; [exact Hlid|]. split; [reflexivity|].
    by destruct (storeLIDPNMappings repository alt sender).
  - intros lid Hlid Hne Hdiff Hl Hh. unfold getDecryptionJid.
    rewrite Hl, Hh, Hlid. cbn [orb].
    destruct lid as [|c r]; [done|]. cbn [orStr].
    replace (String.eqb (String c r) sender) with false
      by (symmetry; by apply String.eqb_neq).
    by rewrite andb_false_r.
Qed.


(** *** Whose sessions a stanza may touch *)

(** The decryption addresses read for the author after some of the given
    calls. *)
#[local] Abbreviation chosenWithin made env :=
  (fun j => exists h, h `prefix_of` made /\
                      j = getDecryptionJid' h (author env)).
#[local] Abbreviation concerns' made env :=
  (concernsAuthor (chosenWithin made env) targets' env).

Lemma storeMapping_concerns made env jid :
  Forall (concerns' made env)
    (storeMapping' (stanzaAttrs env) (author env) jid).
Proof.
  unfold storeMappingFromEnvelope.
  destruct (extractAddressingContext (stanzaAttrs env)) as [[mode alt] rcp].
  destruct alt as [alt|]; [|constructor].
  destruct (_ && _); [|constructor].
  destruct (storeLIDPNMappings repository alt (author env));
    repeat constructor.
Qed.

(** The calls of one iteration: those made before, followed by calls that
    concern the author under the address read at this node. *)
Lemma decryptPayload_calls made env autoClean st node :
  calls (decryptPayload' env autoClean st node) `prefix_of` made ->
  exists extra,
    calls (decryptPayload' env autoClean st node) = (calls st ++ extra)%list /\
    Forall (concerns' made env) extra.
Proof.
  destruct (decryptable node) eqn:Hd.
  2:{ rewrite (decryptPayload_skips env autoClean st node Hd).
      exists []. by rewrite app_nil_r. }
  assert (Hc : exists bytes, content node = Binary bytes).
  { unfold decryptable in Hd. destruct (content node); [eauto|].
    by rewrite andb_false_r in Hd. }
  destruct Hc as [bytes Hc].
  rewrite (decryptPayload_binary env autoClean st node bytes Hd Hc). cbv zeta.
  set (jid := getDecryptionJid' (calls st) (author env)).
  set (mapping := if negb (String.eqb (tag node) "plaintext")
                  then storeMapping' (stanzaAttrs env) (author env) jid
                  else []).
  match goal with
  | |- context [runCipher' ?a ?b ?c ?d ?s] =>
      assert (Hs : calls s = (calls st ++ mapping)%list);
      [|set (st2 := s) in *; set (e2eType := b) in *]
  end.
  { subst mapping. destruct (negb (String.eqb (tag node) "plaintext"));
      cbn [addCalls calls]; [reflexivity | by rewrite app_nil_r]. }
  assert (Hmapping : Forall (concerns' made env) mapping).
  { subst mapping. destruct (negb (String.eqb (tag node) "plaintext"));
      [apply storeMapping_concerns | constructor]. }
  intros Hprefix.
  assert (Hchosen : forall extra,
            (calls st ++ extra)%list `prefix_of` made ->
            chosenWithin made env jid).
  { intros extra Hpre. exists (calls st). split; [|reflexivity].
    etransitivity; [|exact Hpre]. by apply prefix_app_r. }
  assert (Hcipher : exists n c,
            (runCipher' env e2eType bytes jid st2).1
            = afterCipher st2 n c /\
            (n = 0%nat \/
             c = DecryptGroupMessage (sender env) (author env) bytes \/
             exists kind, c = DecryptMessage jid kind bytes /\
                          (kind = "pkmsg" \/ kind = "msg"))).
  { unfold runCipher. generalize (default "undefined" e2eType). intros kd.
    destruct (String.eqb kd "skmsg");
      [|destruct (String.eqb kd "pkmsg" || String.eqb kd "msg") eqn:Hk;
        [|destruct (String.eqb kd "plaintext")]]; cbn [fst].
    - eexists _, _. split; [reflexivity|]. right; by left.
    - eexists _, _. split; [reflexivity|].
      right; right. eexists. split; [reflexivity|].
      apply orb_true_iff in Hk as [Hk|Hk]; apply String.eqb_eq in Hk; auto.
    - exists 0%nat, (DeleteSession []). split; [|by left].
      unfold afterCipher. destruct st2; cbn.
      by rewrite Nat.add_0_r, app_nil_r.
    - exists 0%nat, (DeleteSession []). split; [|by left].
      unfold afterCipher. destruct st2; cbn.
      by rewrite Nat.add_0_r, app_nil_r. }
  destruct Hcipher as (n & c & Hrun & Hc').
  assert (Hcalls1 : forall st1 res,
            runCipher' env e2eType bytes jid st2 = (st1, res) ->
            calls st1 = (calls st ++ mapping ++ replicate n c)%list).
  { intros st1 res Heq. rewrite Heq in Hrun. cbn [fst] in Hrun.
    rewrite Hrun. unfold afterCipher. cbn [calls].
    by rewrite Hs, <- app_assoc. }
  assert (Hciphered : forall extra,
            (calls st ++ extra)%list `prefix_of` made ->
            Forall (concerns' made env) (replicate n c)).
  { intros extra Hpre.
    destruct Hc' as [-> | [-> | (kind & -> & Hkind)]].
    - constructor.
    - apply Forall_replicate. by split.
    - apply Forall_replicate.
      split; [exact (Hchosen extra Hpre) | exact Hkind]. }
  assert (Hfailure : forall err st1,
            calls st1 = (calls st ++ mapping ++ replicate n c)%list ->
            calls (onFailure' autoClean jid err st1) `prefix_of` made ->
            exists extra,
              calls (onFailure' autoClean jid err st1)
              = (calls st ++ extra)%list /\
              Forall (concerns' made env) extra).
  { intros err st1 Hst1. unfold onDecryptFailure.
    destruct (isCorruptedSessionError (originalErrorOf err) && autoClean).
    - unfold cleanupCorruptedSession.
      destruct (targets' jid) as [l|] eqn:Ht.
      + assert (Hboth : forall st',
                  calls st' = (calls st1 ++ [DeleteSession l])%list ->
                  calls st' `prefix_of` made ->
                  exists extra, calls st' = (calls st ++ extra)%list /\
                                Forall (concerns' made env) extra).
        { intros st' Hst' Hpre. rewrite Hst', Hst1, <- !app_assoc in Hpre.
          exists ((mapping ++ replicate n c) ++ [DeleteSession l])%list.
          split; [by rewrite Hst', Hst1, <- !app_assoc|].
          apply Forall_app. split; [apply Forall_app; split|].
          - exact Hmapping.
          - exact (Hciphered _ Hpre).
          - repeat constructor. exists jid.
            split; [exact (Hchosen _ Hpre) | exact Ht]. }
        destruct (deleteSession repository l); apply Hboth; reflexivity.
      + cbn [fst withMessage calls]. rewrite Hst1. intros Hpre.
        eexists. split; [reflexivity|].
        apply Forall_app. split; [exact Hmapping | exact (Hciphered _ Hpre)].
    - cbn [withMessage calls]. rewrite Hst1. intros Hpre.
      eexists. split; [reflexivity|].
      apply Forall_app. split; [exact Hmapping | exact (Hciphered _ Hpre)]. }
  revert Hprefix.
  destruct (runCipher' env e2eType bytes jid st2) as [st1 [msgBuffer|err]]
    eqn:Hrun'; pose proof (Hcalls1 _ _ eq_refl) as Hst1;
    [|by apply Hfailure].
  unfold acceptPlaintext.
  destruct (if negb (String.eqb (default "undefined" e2eType) "plaintext")
            then unpadRandomMax16 msgBuffer
            else Returns msgBuffer) as [padded|e]; [|by apply Hfailure].
  destruct (decodeMessage padded) as [msg|e]; [|by apply Hfailure].
  destruct (senderKeyDistributionMessage msg) as [item|];
    cbn [withMessage addCalls calls]; rewrite Hst1; intros Hpre.
  - rewrite <- !app_assoc in Hpre.
    exists ((mapping ++ replicate n c)
            ++ [ProcessSenderKeyDistributionMessage (author env) item])%list.
    split; [by rewrite <- !app_assoc|].
    apply Forall_app. split; [apply Forall_app; split|].
    + exact Hmapping.
    + exact (Hciphered _ Hpre).
    + by repeat constructor.
  - eexists. split; [reflexivity|].
    apply Forall_app. split; [exact Hmapping | exact (Hciphered _ Hpre)].
Qed.

Lemma decryptLoop_concerns made env autoClean nodes st :
  calls (stateOf (decryptLoop' env autoClean nodes st)) `prefix_of` made ->
  Forall (concerns' made env) (calls st) ->
  Forall (concerns' made env)
    (calls (stateOf (decryptLoop' env autoClean nodes st))).
Proof.
  revert st. induction nodes as [|node nodes IH]; intros st;
    cbn [decryptLoop]; [done|].
  unfold decryptNode.
  destruct (note' st node) as [st0|e] eqn:Hnote; [|done].
  destruct (noteAttributes_frame decodeVerifiedName st node st0 Hnote)
    as (_ & _ & _ & N4 & _).
  intros Hprefix Hst.
  assert (Hgrows : forall nodes' st',
            calls st' `prefix_of`
              calls (stateOf (decryptLoop' env autoClean nodes' st'))).
  { induction nodes' as [|node' nodes' IH']; intros st'; cbn [decryptLoop];
      [done|].
    unfold decryptNode.
    destruct (note' st' node') as [st0'|e'] eqn:Hnote'; [|done].
    destruct (noteAttributes_frame decodeVerifiedName st' node' st0' Hnote')
      as (_ & _ & _ & N4' & _).
    etransitivity; [|apply IH'].
    destruct (decryptPayload_calls
                (calls (decryptPayload' env autoClean st0' node')) env autoClean
                st0' node' ltac:(done)) as (extra & -> & _).
    rewrite N4'. by apply prefix_app_r. }
  apply IH; [exact Hprefix|].
  destruct (decryptPayload_calls made env autoClean st0 node) as (extra & -> & Hextra).
  { etransitivity; [apply Hgrows | exact Hprefix]. }
  rewrite N4. apply Forall_app. by split.
Qed.

(** X23: one [decrypt()] call touches the author's sessions only, however
    it ends. Every call it makes on the repository is made for the author
    of the envelope: the pairwise cipher is called (type [pkmsg] or [msg])
    with a decryption address that [getDecryptionJid] gave for the author
    after some of the calls made, that is the author's own address or a
    LID that the repository returned for it; the group cipher is called
    with the envelope's sender as group and the author as author; a stored
    mapping and a migration are for the author's address; a sender key
    distribution is processed for the author; and a [deleteSession]
    request carries exactly the cleanup targets of such a decryption
    address. *)
Theorem decrypt_calls_concern_the_author
    (env : Envelope) (autoClean : bool) (held : gset string) :
  let made := calls (stateOf (decrypt' env autoClean held)) in
  Forall
    (concernsAuthor
       (fun j => exists h, h `prefix_of` made /\
                           j = getDecryptionJid' h (author env))
       targets' env)
    made.
Proof.
  cbv zeta. unfold decrypt.
  destruct (stanzaContent env) as [nodes|]; [|constructor].
  pose proof (decryptLoop_concerns
                (calls (stateOf (decryptLoop' env autoClean nodes
                                   (initialState held))))
                env autoClean nodes (initialState held)
                ltac:(done) ltac:(constructor)) as Hloop.
  destruct (decryptLoop' env autoClean nodes (initialState held))
    as [final|final e]; cbn [stateOf] in *; [|exact Hloop].
  destruct ((decryptables final =? 0) && negb (isViewOnce (fullMessage final)));
    cbn [withMessage calls]; exact Hloop.
Qed.

End NodeExtras.

Lemma nothing_decryptable_is_reported_witness :
  let env := {| stanzaAttrs := ∅;
                stanzaContent :=
                  Some [ {| tag := "unavailable";
                            attrs := {[ "type" := "view_once" ]};
                            content := OtherContent |} ];
                author := Scenarios.peer; sender := Scenarios.peer |} in
  let ended := decrypt Scenarios.isLidUser Scenarios.isPnUser
                 Scenarios.isHostedLidUser Scenarios.jidDecode
                 Scenarios.noPadding Scenarios.decodeText
                 Scenarios.noVerifiedName 1
                 (Scenarios.failingRepository Scenarios.badMac) env true
                 Scenarios.heldSessions in
  ended = Completes (stateOf ended) /\
  calls (stateOf ended) = [] /\
  isViewOnce (fullMessage (stateOf ended)) = true /\
  messageStubType (fullMessage (stateOf ended)) = None.
Proof.
  intros env ended.
  destruct (nothing_decryptable_is_reported
              Scenarios.isLidUser Scenarios.isPnUser
              Scenarios.isHostedLidUser Scenarios.jidDecode Scenarios.noPadding
              Scenarios.decodeText Scenarios.noVerifiedName 1
              (Scenarios.failingRepository Scenarios.badMac) env true
              Scenarios.heldSessions)
    as (Hcalls & _ & _ & Hcompletes & _).
  { intros nodes [= <-]. repeat constructor. }
  destruct Hcompletes as (Hended & Hview & _ & Hstub).
  { repeat constructor. }
  split; [exact Hended|]. split; [exact Hcalls|].
  split; [exact Hview|]. by apply Hstub.
Defined.

Lemma unclassified_error_is_retried_witness :
  let e := {| errName := "Error"; errMessage := "socket closed" |} in
  let node f :=
    decryptNode Scenarios.isLidUser Scenarios.isPnUser
      Scenarios.isHostedLidUser Scenarios.jidDecode Scenarios.noPadding
      Scenarios.decodeText Scenarios.noVerifiedName f
      (Scenarios.failingRepository e) Scenarios.oneMessage true
      (initialState Scenarios.heldSessions) Scenarios.encNode in
  (exists after, node 1 = Completes after /\ cipherCalls after = 2%nat /\
     messageStubParameters (fullMessage after) = ["socket closed"] /\
     sessions after = Scenarios.heldSessions) /\
  (exists after, node 0 = Completes after /\ cipherCalls after = 3%nat).
Proof.
  intros e node. split.
  - destruct (unclassified_error_is_retried
                Scenarios.isLidUser Scenarios.isPnUser
                Scenarios.isHostedLidUser Scenarios.jidDecode Scenarios.noPadding
                Scenarios.decodeText Scenarios.noVerifiedName 1
                (Scenarios.failingRepository e) Scenarios.oneMessage true
                (initialState Scenarios.heldSessions) Scenarios.encNode
                "ciphertext" "msg"
                eq_refl eq_refl eq_refl (or_intror (or_intror eq_refl))
                ltac:(lia))
      as (after & e' & Hnode & Hlast & _ & Hcalls & _ & Hparam & Hkeep).
    { intros i _. exists e. split; [reflexivity | split; reflexivity]. }
    injection Hlast as <-.
    exists after. split; [exact Hnode|]. split; [exact Hcalls|].
    split; [exact Hparam|]. exact (proj1 (Hkeep eq_refl)).
  - destruct (unclassified_error_is_retried
                Scenarios.isLidUser Scenarios.isPnUser
                Scenarios.isHostedLidUser Scenarios.jidDecode Scenarios.noPadding
                Scenarios.decodeText Scenarios.noVerifiedName 0
                (Scenarios.failingRepository e) Scenarios.oneMessage true
                (initialState Scenarios.heldSessions) Scenarios.encNode
                "ciphertext" "msg"
                eq_refl eq_refl eq_refl (or_intror (or_intror eq_refl))
                ltac:(lia))
      as (after & e' & Hnode & _ & _ & Hcalls & _).
    { intros i _. exists e. split; [reflexivity | split; reflexivity]. }
    exists after. split; [exact Hnode | exact Hcalls].
Defined.

Lemma plaintext_payload_bypasses_cipher_witness :
  let node := {| tag := "enc"; attrs := {[ "type" := "plaintext" ]};
                 content := Binary "hello" |} in
  exists after,
    decryptNode Scenarios.isLidUser Scenarios.isPnUser
      Scenarios.isHostedLidUser Scenarios.jidDecode Scenarios.noPadding
      Scenarios.decodeText Scenarios.noVerifiedName 1
      (Scenarios.failingRepository Scenarios.badMac) Scenarios.oneMessage true
      (initialState Scenarios.heldSessions) node
    = Completes after /\
    cipherCalls after = 0%nat /\
    message (fullMessage after) = Some {[ "conversation" := "hello" ]} /\
    messageStubType (fullMessage after) = None.
Proof.
  intros node.
  destruct (plaintext_payload_bypasses_cipher
              Scenarios.isLidUser Scenarios.isPnUser
              Scenarios.isHostedLidUser Scenarios.jidDecode Scenarios.noPadding
              Scenarios.decodeText Scenarios.noVerifiedName 1
              (Scenarios.failingRepository Scenarios.badMac)
              Scenarios.oneMessage true
              (initialState Scenarios.heldSessions) node "hello"
              {| fields := {[ "conversation" := "hello" ]};
                 senderKeyDistributionMessage := None |}
              eq_refl (or_intror (conj eq_refl eq_refl)) eq_refl)
    as (after & Hnode & Hcalls & _ & _ & Hmsg & Hstub & _).
  exists after. split; [exact Hnode|]. split; [exact Hcalls|].
  split; [exact Hmsg | exact Hstub].
Defined.

Lemma unknown_e2e_type_is_stubbed_witness :
  let node := {| tag := "enc"; attrs := ∅; content := Binary "bytes" |} in
  exists after,
    decryptNode Scenarios.isLidUser Scenarios.isPnUser
      Scenarios.isHostedLidUser Scenarios.jidDecode Scenarios.noPadding
      Scenarios.decodeText Scenarios.noVerifiedName 1
      (Scenarios.failingRepository Scenarios.badMac) Scenarios.oneMessage true
      (initialState Scenarios.heldSessions) node
    = Completes after /\
    cipherCalls after = 0%nat /\
    messageStubParameters (fullMessage after) = ["Unknown e2e type: undefined"].
Proof.
  intros node.
  destruct (unknown_e2e_type_is_stubbed
              Scenarios.isLidUser Scenarios.isPnUser
              Scenarios.isHostedLidUser Scenarios.jidDecode Scenarios.noPadding
              Scenarios.decodeText Scenarios.noVerifiedName 1
              (Scenarios.failingRepository Scenarios.badMac)
              Scenarios.oneMessage true
              (initialState Scenarios.heldSessions) node "bytes"
              eq_refl eq_refl)
    as (after & Hnode & _ & Hcalls & _ & _ & _ & Hparam).
  { cbn. rewrite !elem_of_cons, elem_of_nil. intros [H|[H|[H|[H|[]]]]]; discriminate H. }
  exists after. split; [exact Hnode|]. split; [exact Hcalls | exact Hparam].
Defined.

Lemma cleanup_targets_include_failing_address_witness :
  sessionDomain "5511999999999:7@lid" = "lid" /\
  exists l, corruptedSessionTargets Scenarios.jidDecode "5511999999999:7@lid"
            = Some l /\
            "5511999999999:7@lid" ∈ l /\ (6 <= length l <= 7)%nat.
Proof.
  apply (cleanup_targets_include_failing_address Scenarios.jidDecode
           "5511999999999" "lid" (Some 7)
           {| user := "5511999999999"; device := Some 7; server := "lid" |}).
  - reflexivity.
  - discriminate.
  - rewrite !elem_of_cons. right. by left.
  - intros n [= <-]. split; [lia | reflexivity].
  - reflexivity.
  - reflexivity.
Defined.

End DecryptExtras.

(* ===================================================================== *)
(** ** Decoding the envelope                                               *)
(* ===================================================================== *)

Module DecodeExtras.
Import JS DecodeNode.

Section DecodeFacts.

Variable isPnUser : string -> bool.
Variable isLidUser : string -> bool.
Variable isHostedLidUser : string -> bool.
Variable isHostedPnUser : string -> bool.
Variable isJidGroup : string -> bool.
Variable isJidBroadcast : string -> bool.
Variable isJidStatusBroadcast : string -> bool.
Variable isJidNewsletter : string -> bool.
Variable isJidMetaAI : string -> bool.
Variable areJidsSameUser : string -> string -> bool.

#[local] Abbreviation classify' :=
  (classify isPnUser isLidUser isHostedLidUser isHostedPnUser isJidGroup
     isJidBroadcast isJidStatusBroadcast isJidNewsletter isJidMetaAI
     areJidsSameUser).
#[local] Abbreviation decode' :=
  (decodeMessageNode isPnUser isLidUser isHostedLidUser isHostedPnUser
     isJidGroup isJidBroadcast isJidStatusBroadcast isJidNewsletter
     isJidMetaAI areJidsSameUser).

Lemma truthyStr_inv (s : option string) :
  truthyStr s = true -> exists c r, s = Some (String c r).
Proof. destruct s as [[|c r]|]; [done | eauto | done]. Qed.

Lemma classify_returns stanzaAttrs meId meLid t chatId who mine :
  classify' stanzaAttrs meId meLid = Returns (t, chatId, who, mine) ->
  chatId <> EmptyString /\ who <> EmptyString /\
  (Some who = stanzaAttrs !! "from" \/ Some who = stanzaAttrs !! "participant") /\
  (if isChat t then Some who = stanzaAttrs !! "from"
   else Some chatId = stanzaAttrs !! "from") /\
  (isNewsletter t = true -> isJidNewsletter chatId = true).
Proof.
  unfold classify.
  destruct (truthyStr (stanzaAttrs !! "from")) eqn:Hfrom; cbn [negb];
    [|discriminate].
  apply truthyStr_inv in Hfrom as (c & r & ->). cbn [from_option Datatypes.id].
  destruct (_ || _ || _ || _).
  { destruct (truthyStr (stanzaAttrs !! "recipient")) eqn:Hrcp; cbn [andb].
    - apply truthyStr_inv in Hrcp as (c' & r' & ->). cbn [from_option Datatypes.id].
      destruct (negb (isJidMetaAI _)).
      + destruct (negb _ && negb _); [discriminate|].
        intros [= <- <- <- <-]. cbn. repeat split; auto; discriminate.
      + intros [= <- <- <- <-]. cbn. repeat split; auto; discriminate.
    - intros [= <- <- <- <-]. cbn. repeat split; auto; discriminate. }
  destruct (isJidGroup _).
  { destruct (truthyStr (stanzaAttrs !! "participant")) eqn:Hp; cbn [negb];
      [|discriminate].
    apply truthyStr_inv in Hp as (c' & r' & ->). cbn [from_option Datatypes.id].
    intros [= <- <- <- <-]. cbn. repeat split; auto; discriminate. }
  destruct (isJidBroadcast _).
  { destruct (truthyStr (stanzaAttrs !! "participant")) eqn:Hp; cbn [negb];
      [|discriminate].
    apply truthyStr_inv in Hp as (c' & r' & ->). cbn [from_option Datatypes.id].
    intros [= <- <- <- <-].
    destruct (isJidStatusBroadcast _), (areJidsSameUser _ meId); cbn;
      repeat split; auto; discriminate. }
  destruct (isJidNewsletter _) eqn:Hn; [|discriminate].
  intros [= <- <- <- <-]. cbn. repeat split; auto; discriminate.
Qed.

(** X24: what every decoded message satisfies. When [decodeMessageNode]
    returns, the chat ([remoteJid]), the author and the sender are not
    empty; the author is the [from] or the [participant] attribute; the
    sender is the author or the chat; at most one of [remoteJidAlt] and
    [participantAlt] is set; the status is [SERVER_ACK] exactly when the
    message is [fromMe]; and a [server_id] is kept for a newsletter chat
    only. *)
Theorem decoded_message_is_well_formed
    (stanzaAttrs : gmap string string) (meId meLid : string) (d : DecodedNode) :
  decode' stanzaAttrs meId meLid = Returns d ->
  let k := key (fullMessage d) in
  remoteJid k <> EmptyString /\ author d <> EmptyString /\
  sender d <> EmptyString /\
  (Some (author d) = stanzaAttrs !! "from"
   \/ Some (author d) = stanzaAttrs !! "participant") /\
  (sender d = author d \/ sender d = remoteJid k) /\
  (remoteJidAlt k = None \/ participantAlt k = None) /\
  (status (fullMessage d) = Some SERVER_ACK <-> fromMe k = true) /\
  (server_id k <> None -> isJidNewsletter (remoteJid k) = true).
Proof.
  unfold decodeMessageNode.
  destruct (classify' stanzaAttrs meId meLid) as [[[[t chatId] who] mine]|e]
    eqn:Hc; [|discriminate].
  destruct (classify_returns _ _ _ _ _ _ _ Hc) as (H1 & H2 & H3 & H4 & H5).
  destruct (Decrypt.extractAddressingContext stanzaAttrs) as [[mode alt] rcp].
  intros [= <-]. cbn.
  split; [exact H1|]. split; [exact H2|].
  split; [by destruct (isChat t)|]. split; [exact H3|].
  split; [destruct (isChat t); auto|].
  split; [destruct (isJidGroup chatId); cbn; auto|].
  split; [destruct mine; split; (done || discriminate)|].
  destruct (isNewsletter t); cbn; [auto | done].
Qed.

(** X25: a chat message addressed to somebody else is accepted from the
    user's own devices only. For a stanza from a user address with a
    [recipient] that is not the Meta AI address, [decodeMessageNode]
    throws unless [from] is the user (by phone number or by LID); when it
    is, the message is [fromMe] with status [SERVER_ACK], the chat is the
    recipient, and both author and sender are [from]. *)
Theorem chat_with_recipient_only_from_me
    (stanzaAttrs : gmap string string) (meId meLid from rcp : string) :
  stanzaAttrs !! "from" = Some from -> from <> EmptyString ->
  isPnUser from || isLidUser from || isHostedLidUser from
  || isHostedPnUser from = true ->
  stanzaAttrs !! "recipient" = Some rcp -> rcp <> EmptyString ->
  isJidMetaAI rcp = false ->
  let mine := areJidsSameUser from meId || areJidsSameUser from meLid in
  (mine = false ->
   decode' stanzaAttrs meId meLid
   = Throws (boom "receipient present, but msg not from me")) /\
  (mine = true ->
   exists d, decode' stanzaAttrs meId meLid = Returns d /\
     fromMe (key (fullMessage d)) = true /\
     status (fullMessage d) = Some SERVER_ACK /\
     remoteJid (key (fullMessage d)) = rcp /\
     author d = from /\ sender d = from).
Proof.
  intros Hfrom Hne Huser Hrcp Hrne Hai mine. subst mine.
  unfold decodeMessageNode, classify. rewrite Hfrom, Hrcp.
  destruct from as [|c r]; [done|]. destruct rcp as [|c' r']; [done|].
  cbn [truthyStr negb from_option Datatypes.id]. rewrite Huser, Hai. cbn [negb andb].
  destruct (areJidsSameUser (String c r) meId),
    (areJidsSameUser (String c r) meLid); cbn [negb andb orb];
    (split; [try discriminate; try reflexivity | try discriminate]);
    intros _;
    destruct (Decrypt.extractAddressingContext stanzaAttrs) as [[mode alt] rcp0];
    eexists; (split; [reflexivity|]); cbn; repeat split.
Qed.

End DecodeFacts.

Lemma decoded_message_is_well_formed_witness :
  exists d, sampleDecode groupStanza = Returns d /\
    author d = "5511999999999@s.whatsapp.net" /\
    sender d = "120363000000000000@g.us" /\
    (remoteJidAlt (key (fullMessage d)) = None
     \/ participantAlt (key (fullMessage d)) = None) /\
    (status (fullMessage d) = Some SERVER_ACK
     <-> fromMe (key (fullMessage d)) = true).
Proof.
  eexists. split; [vm_compute; reflexivity|].
  split; [reflexivity|]. split; [reflexivity|].
  match goal with
  | |- context [key (fullMessage ?d)] =>
      destruct (decoded_message_is_well_formed
                  sampleIsPnUser sampleIsLidUser sampleIsHostedLidUser
                  sampleIsHostedPnUser sampleIsJidGroup sampleIsJidBroadcast
                  sampleIsJidStatusBroadcast sampleIsJidNewsletter
                  sampleIsJidMetaAI sampleAreJidsSameUser groupStanza
                  "5511888888888@s.whatsapp.net" "987654321@lid" d)
        as (_ & _ & _ & _ & _ & Halt & Hack & _)
  end; [vm_compute; reflexivity|].
  split; [exact Halt | exact Hack].
Defined.

Lemma chat_with_recipient_only_from_me_witness :
  exists d, sampleDecode ownStanza = Returns d /\
    fromMe (key (fullMessage d)) = true /\
    remoteJid (key (fullMessage d)) = "5511999999999@s.whatsapp.net" /\
    author d = "5511888888888@s.whatsapp.net".
Proof.
  destruct (chat_with_recipient_only_from_me
              sampleIsPnUser sampleIsLidUser sampleIsHostedLidUser
              sampleIsHostedPnUser sampleIsJidGroup sampleIsJidBroadcast
              sampleIsJidStatusBroadcast sampleIsJidNewsletter
              sampleIsJidMetaAI sampleAreJidsSameUser ownStanza
              "5511888888888@s.whatsapp.net" "987654321@lid"
              "5511888888888@s.whatsapp.net" "5511999999999@s.whatsapp.net"
              eq_refl ltac:(discriminate) eq_refl eq_refl ltac:(discriminate)
              eq_refl)
    as [_ Hmine].
  destruct (Hmine eq_refl) as (d & Hd & Hme & _ & Hchat & Hauthor & _).
  exists d. split; [exact Hd|]. split; [exact Hme|].
  split; [exact Hchat | exact Hauthor].
Defined.

End DecodeExtras.

(* ===================================================================== *)
(** ** Trusted-contact tokens                                              *)
(* ===================================================================== *)

Module TcTokenExtras.
Import TcToken.

Lemma cutoff_bounds (now : Z) :
  let cutoff :=
    (now / TC_TOKEN_BUCKET_DURATION - (TC_TOKEN_NUM_BUCKETS - 1))
    * TC_TOKEN_BUCKET_DURATION in
  now - 4 * TC_TOKEN_BUCKET_DURATION < cutoff <= now - 3 * TC_TOKEN_BUCKET_DURATION.
Proof.
  cbv zeta. unfold TC_TOKEN_BUCKET_DURATION, TC_TOKEN_NUM_BUCKETS.
  Z.div_mod_to_equations. lia.
Qed.

Lemma cutoff_monotone (now later : Z) :
  now <= later ->
  (now / TC_TOKEN_BUCKET_DURATION - (TC_TOKEN_NUM_BUCKETS - 1))
  * TC_TOKEN_BUCKET_DURATION
  <= (later / TC_TOKEN_BUCKET_DURATION - (TC_TOKEN_NUM_BUCKETS - 1))
     * TC_TOKEN_BUCKET_DURATION.
Proof.
  intros H. unfold TC_TOKEN_BUCKET_DURATION, TC_TOKEN_NUM_BUCKETS.
  Z.div_mod_to_equations. lia.
Qed.

(** X26: the rolling window of a received token. With [now] the current
    time in seconds, a token whose timestamp is at most 21 days (three
    buckets) old is never expired, one that is 28 days (four buckets) old
    or older always is. A token
    that is expired stays expired at any later reading of the clock. A
    missing timestamp and one that is not a number count as expired, and a
    string is read through [Number]. *)
Theorem token_expiry_window (Number : string -> JsNumber) (dateNow ts : Z) :
  let now := dateNow / 1000 in
  let expired := isTcTokenExpired Number dateNow (Numeric (Num ts)) in
  (now - ts <= 3 * TC_TOKEN_BUCKET_DURATION -> expired = false) /\
  (4 * TC_TOKEN_BUCKET_DURATION <= now - ts -> expired = true) /\
  (forall later, dateNow <= later -> expired = true ->
     isTcTokenExpired Number later (Numeric (Num ts)) = true) /\
  isTcTokenExpired Number dateNow Missing = true /\
  isTcTokenExpired Number dateNow (Numeric NaN) = true /\
  (forall s, isTcTokenExpired Number dateNow (Text s)
             = isTcTokenExpired Number dateNow (Numeric (Number s))).
Proof.
  intros now expired. subst now expired. unfold isTcTokenExpired.
  pose proof (cutoff_bounds (dateNow / 1000)) as Hb. cbv zeta in Hb.
  split; [intros H; apply Z.ltb_ge; lia|].
  split; [intros H; apply Z.ltb_lt; lia|].
  split; [|repeat split].
  intros later Hlater Hexp. apply Z.ltb_lt in Hexp. apply Z.ltb_lt.
  pose proof (cutoff_monotone (dateNow / 1000) (later / 1000)
                ltac:(apply Z.div_le_mono; lia)).
  lia.
Qed.

(** X27: the two bucket tests agree. A token whose own timestamp is
    expired always calls for a new token to be issued, and a timestamp in
    the current bucket neither is expired nor calls for a new token. Without
    a sender timestamp a new token is always issued. *)
Theorem expired_token_calls_for_new_one
    (Number : string -> JsNumber) (dateNow ts : Z) :
  (isTcTokenExpired Number dateNow (Numeric (Num ts)) = true ->
   shouldSendNewTcToken dateNow (Some (Num ts)) = true) /\
  (ts / TC_TOKEN_BUCKET_DURATION = dateNow / 1000 / TC_TOKEN_BUCKET_DURATION ->
   isTcTokenExpired Number dateNow (Numeric (Num ts)) = false /\
   shouldSendNewTcToken dateNow (Some (Num ts)) = false) /\
  shouldSendNewTcToken dateNow None = true.
Proof.
  unfold isTcTokenExpired, shouldSendNewTcToken.
  split; [|split; [|reflexivity]].
  - intros H. apply Z.ltb_lt in H. apply Z.ltb_lt.
    revert H. unfold TC_TOKEN_BUCKET_DURATION, TC_TOKEN_NUM_BUCKETS.
    intros H. Z.div_mod_to_equations. lia.
  - intros H. split; [apply Z.ltb_ge | apply Z.ltb_ge; lia].
    revert H. unfold TC_TOKEN_BUCKET_DURATION, TC_TOKEN_NUM_BUCKETS.
    intros H. Z.div_mod_to_equations. lia.
Qed.

End TcTokenExtras.

(* ===================================================================== *)
(** ** The cleanup scheduler                                               *)
(* ===================================================================== *)

Module SchedulerExtras.
Import SessionCleanup CleanupScheduler.

(** The state after [start()] was called repeatedly on a new manager,
    before any timer fired. *)
Lemma startAll_fresh config delays :
  enabled config = true ->
  let s := startAll config delays fresh in
  cleanupInterval s = None /\
  nextHandle s = length delays /\
  size (armed s) = length delays /\
  (forall h, (nextHandle s <= h)%nat -> armed s !! h = None) /\
  match delays with
  | [] => initialTimeout s = None
  | _ => exists h, initialTimeout s = Some h /\ is_Some (armed s !! h)
  end.
Proof.
  intros Hen. cbv zeta. unfold startAll.
  induction delays as [|d delays IH] using rev_ind.
  - cbn. repeat split; done.
  - rewrite foldl_app. cbn [foldl].
    destruct IH as (I1 & I2 & I3 & I4 & _).
    set (s := foldl _ fresh delays) in *.
    unfold start. rewrite Hen, I1. cbn [negb].
    cbn [cleanupInterval nextHandle armed initialTimeout].
    rewrite length_app. cbn [length].
    split; [reflexivity|]. split; [lia|].
    split; [rewrite map_size_insert_None by (apply I4; lia); lia|].
    split.
    + intros h Hh. rewrite lookup_insert_ne by lia. apply I4. lia.
    + assert (Hex : exists h, Some (nextHandle s) = Some h /\
                      is_Some (<[nextHandle s := Timeout d]> (armed s) !! h)).
      { exists (nextHandle s). split; [reflexivity|].
        rewrite lookup_insert_eq. eauto. }
      destruct (delays ++ [d])%list eqn:E; [by destruct delays | exact Hex].
Qed.

(** X28: [stop()] disarms the last timeout only. On an enabled manager,
    when [start()] is called once or more before the first scheduled
    cleanup and then [stop()] is called, [stop()] clears [initialTimeout]
    and disarms the timeout of the last [start()]; the timeouts of the
    earlier calls stay armed, since [start()] is guarded by
    [cleanupInterval] alone and overwrote their handle. After a single
    [start()] nothing stays armed. *)
Theorem stop_disarms_last_timeout_only
    (config : SessionCleanupConfig) (delays : list Z) :
  enabled config = true -> delays <> [] ->
  let s := stop (startAll config delays fresh) in
  initialTimeout s = None /\ cleanupInterval s = None /\
  size (armed s) = (length delays - 1)%nat.
Proof.
  intros Hen Hne.
  destruct (startAll_fresh config delays Hen) as (I1 & _ & I3 & _ & I5).
  cbv zeta in *. destruct delays as [|d delays]; [done|].
  destruct I5 as (h & Hh & Harmed).
  unfold stop. rewrite Hh.
  cbn [cleanupInterval initialTimeout armed]. rewrite I1.
  cbn [cleanupInterval initialTimeout armed].
  split; [reflexivity|]. split; [reflexivity|].
  rewrite map_size_delete_Some by exact Harmed. rewrite I3. cbn [length]. lia.
Qed.

(** X29: [stop()] cannot call off a scheduled cleanup that has begun.
    Once a timeout has fired and its callback awaits the cleanup, the
    recurring interval is armed when it resumes, whether or not [stop()]
    was called in between, and one more cleanup has run. *)
Theorem stop_during_first_cleanup_does_not_stop
    (config : SessionCleanupConfig) (s : Scheduler) :
  (0 < awaiting s)%nat ->
  let s' := firstCleanupDone config (stop s) in
  cleanupInterval s' = Some (nextHandle s) /\
  armed s' !! nextHandle s = Some (Interval (intervalMs config)) /\
  runs s' = S (runs s).
Proof.
  intros Hawait. cbv zeta.
  assert (Hstop : awaiting (stop s) = awaiting s /\
                  nextHandle (stop s) = nextHandle s /\
                  runs (stop s) = runs s).
  { unfold stop. destruct (initialTimeout s), (cleanupInterval s); done. }
  destruct Hstop as (H1 & H2 & H3).
  unfold firstCleanupDone. rewrite H1.
  destruct (awaiting s) as [|n]; [lia|].
  cbn [cleanupInterval armed runs]. rewrite H2, H3, lookup_insert_eq. done.
Qed.

Lemma stop_disarms_last_timeout_only_witness :
  size (armed (stop (startAll Scenarios.cleanupConfig [1000; 2000] fresh)))
  = 1%nat.
Proof.
  destruct (stop_disarms_last_timeout_only Scenarios.cleanupConfig [1000; 2000])
    as (_ & _ & Hsize); [reflexivity | discriminate | exact Hsize].
Defined.

Lemma stop_during_first_cleanup_does_not_stop_witness :
  let begun := fire 0 (start Scenarios.cleanupConfig 1000 fresh) in
  cleanupInterval (firstCleanupDone Scenarios.cleanupConfig (stop begun))
  = Some 1%nat.
Proof.
  intros begun.
  destruct (stop_during_first_cleanup_does_not_stop Scenarios.cleanupConfig begun)
    as (Hinterval & _).
  - vm_compute. lia.
  - exact Hinterval.
Defined.

End SchedulerExtras.
